(** * SocialBotTelegram: the pet state engine

    A shallow embedding of the Tamagochi bot's pet engine
    (src/database, src/services, src/bot/handlers) and the properties
    of its specification.

    Conventions of the embedding.
    - Python [int] is [Z]; [//] is [Z.div] (floor division for the
      positive divisors used here).
    - The database is an explicit store [DB] threaded through every
      operation: the [chats] table is a finite map keyed by [chat_id],
      the [users] table a finite map keyed by [(user_id, chat_id)], and
      the [events] table an append-only log (newest entry first).
    - [datetime.utcnow()] is the argument [now] (seconds since the
      epoch); its [.hour] is [hour_of now].
    - [random.random()], [random.choice] are arguments of the function
      that draws them.
    - The dictionaries returned to the transport layer are inductive
      result types; their user-facing text is a message key. *)

From Stdlib Require Import ZArith QArith Bool List Lia.
From stdpp Require Import base option gmap strings.
Import ListNotations.

Local Open Scope Z_scope.

(** ** database/models.py *)

Module Models.

Inductive PetStage := EGG | BABY | TEEN | ADULT | ANCIENT.

Inductive PetType := NORMAL | GOBLIN | MEME_CAT | CYBER_BOT | TROLL | ANGEL.

Inductive EventType :=
| BIRTH | DEATH | EVOLUTION | FEED | PLAY | GAMBLE_WIN | GAMBLE_LOSS
| RANDOM_EVENT | CRITICAL_HEALTH | NIGHT_DISTURB.

#[export] Instance PetStage_eq_dec : EqDecision PetStage.
Proof. solve_decision. Defined.

#[export] Instance PetType_eq_dec : EqDecision PetType.
Proof. solve_decision. Defined.

#[export] Instance EventType_eq_dec : EqDecision EventType.
Proof. solve_decision. Defined.

(** class Chat: one row of the [chats] table, one pet. *)
Record Chat := mkChat {
  chat_id : Z;
  pet_name : string;
  pet_stage : PetStage;
  pet_type : PetType;
  hunger : Z;
  mood : Z;
  energy : Z;
  health : Z;
  xp : Z;
  level : Z;
  is_alive : bool;
  is_sleeping : bool;
  cursing_count : Z;
  meme_count : Z;
  code_count : Z;
  caps_count : Z;
  created_at : Z;
  last_tick : Z;
  last_interaction : option Z;
  death_at : option Z
}.

(** [Chat(chat_id=chat_id)]: the column defaults. *)
Definition new_chat (cid now : Z) : Chat :=
  {| chat_id := cid; pet_name := "Питомец";
     pet_stage := EGG; pet_type := NORMAL;
     hunger := 100; mood := 100; energy := 100; health := 100;
     xp := 0; level := 1;
     is_alive := true; is_sleeping := false;
     cursing_count := 0; meme_count := 0; code_count := 0; caps_count := 0;
     created_at := now; last_tick := now;
     last_interaction := None; death_at := None |}.

(** class User: per-chat statistics of one participant. *)
Record User := mkUser {
  user_id : Z;
  user_chat_id : Z;
  username : option string;
  first_name : option string;
  karma_points : Z;
  feed_count : Z;
  play_count : Z;
  message_count : Z;
  night_disturb_count : Z;
  gamble_wins : Z;
  gamble_losses : Z;
  first_interaction : Z;
  user_last_interaction : Z
}.

Definition new_user (uid cid : Z) (uname fname : option string) (now : Z) : User :=
  {| user_id := uid; user_chat_id := cid;
     username := uname; first_name := fname;
     karma_points := 0; feed_count := 0; play_count := 0;
     message_count := 0; night_disturb_count := 0;
     gamble_wins := 0; gamble_losses := 0;
     first_interaction := now; user_last_interaction := now |}.

(** class Event: an audit record.  The free-text description is
    presentation and is not part of the model. *)
Record Event := mkEvent {
  event_chat_id : Z;
  event_type : EventType;
  event_user_id : option Z;
  event_created_at : Z
}.

(** The store behind an [AsyncSession]. *)
Record DB := mkDB {
  chats : gmap Z Chat;
  users : gmap (Z * Z) User;
  events : list Event
}.

Definition with_chats (f : gmap Z Chat -> gmap Z Chat) (db : DB) : DB :=
  {| chats := f (chats db); users := users db; events := events db |}.

Definition with_users (f : gmap (Z * Z) User -> gmap (Z * Z) User) (db : DB) : DB :=
  {| chats := chats db; users := f (users db); events := events db |}.

(** A [Chat] object held by a handler or a loop.  The session keeps a
    loaded object in step with its row (the ORM-enabled [update] of
    crud.py synchronises the session), so after a write the object is
    the row again. *)
Definition loaded (db : DB) (chat : Chat) : Chat :=
  default chat (chats db !! chat_id chat).

(** The four vitals of a pet, as one tuple. *)
Definition vitals (c : Chat) : Z * Z * Z * Z :=
  (hunger c, mood c, energy c, health c).

Definition in_range (v : Z) : Prop := 0 <= v <= 100.

Definition vitals_in_range (c : Chat) : Prop :=
  in_range (hunger c) /\ in_range (mood c) /\
  in_range (energy c) /\ in_range (health c).

End Models.
Export Models.

(** ** config.py *)

Module Config.

Record Config := mkConfig {
  TICK_INTERVAL_MINUTES : Z;
  CRITICAL_HEALTH_THRESHOLD : Z;
  NIGHT_START_HOUR : Z;
  NIGHT_END_HOUR : Z;
  XP_PER_MESSAGE : Z;
  XP_PER_FEED : Z;
  XP_PER_GAME : Z;
  MAX_STAT_VALUE : Z;
  STAT_DECAY_PER_TICK : Z
}.

(** The values taken when the environment sets none of the options. *)
Definition default_config : Config :=
  {| TICK_INTERVAL_MINUTES := 60;
     CRITICAL_HEALTH_THRESHOLD := 10;
     NIGHT_START_HOUR := 0;
     NIGHT_END_HOUR := 7;
     XP_PER_MESSAGE := 1;
     XP_PER_FEED := 5;
     XP_PER_GAME := 10;
     MAX_STAT_VALUE := 100;
     STAT_DECAY_PER_TICK := 5 |}.

End Config.
Export Config.

(** ** database/crud.py *)

Module ChatCRUD.

(** [get_or_create]: the row of [chat_id], inserted with the column
    defaults when it does not exist yet. *)
Definition get_or_create (db : DB) (now : Z) (cid : Z) : DB * Chat :=
  match chats db !! cid with
  | Some chat => (db, chat)
  | None =>
      let chat := new_chat cid now in
      (with_chats (insert cid chat) db, chat)
  end.

Definition get (db : DB) (cid : Z) : option Chat := chats db !! cid.

(** [max(0, min(100, v))] *)
Definition clamp (v : Z) : Z := Z.max 0 (Z.min 100 v).

(** The [update_data] dictionary of [update_stats] applied to one row:
    a vital is written only when its argument is not [None]. *)
Definition set_stats (hunger' mood' energy' health' : option Z) (now : Z)
    (c : Chat) : Chat :=
  {| chat_id := chat_id c; pet_name := pet_name c;
     pet_stage := pet_stage c; pet_type := pet_type c;
     hunger := match hunger' with Some v => clamp v | None => hunger c end;
     mood := match mood' with Some v => clamp v | None => mood c end;
     energy := match energy' with Some v => clamp v | None => energy c end;
     health := match health' with Some v => clamp v | None => health c end;
     xp := xp c; level := level c;
     is_alive := is_alive c; is_sleeping := is_sleeping c;
     cursing_count := cursing_count c; meme_count := meme_count c;
     code_count := code_count c; caps_count := caps_count c;
     created_at := created_at c; last_tick := last_tick c;
     last_interaction := Some now; death_at := death_at c |}.

Definition update_stats (db : DB) (now : Z) (cid : Z)
    (hunger' mood' energy' health' : option Z) : DB :=
  with_chats (alter (set_stats hunger' mood' energy' health' now) cid) db.

Definition set_xp (xp_amount : Z) (c : Chat) : Chat :=
  let xp' := xp c + xp_amount in
  let new_level := xp' / 100 + 1 in
  {| chat_id := chat_id c; pet_name := pet_name c;
     pet_stage := pet_stage c; pet_type := pet_type c;
     hunger := hunger c; mood := mood c; energy := energy c; health := health c;
     xp := xp';
     level := if new_level >? level c then new_level else level c;
     is_alive := is_alive c; is_sleeping := is_sleeping c;
     cursing_count := cursing_count c; meme_count := meme_count c;
     code_count := code_count c; caps_count := caps_count c;
     created_at := created_at c; last_tick := last_tick c;
     last_interaction := last_interaction c; death_at := death_at c |}.

Definition add_xp (db : DB) (cid : Z) (xp_amount : Z) : DB * option Chat :=
  match get db cid with
  | None => (db, None)
  | Some chat =>
      let chat' := set_xp xp_amount chat in
      (with_chats (insert cid chat') db, Some chat')
  end.

Definition set_dead (now : Z) (c : Chat) : Chat :=
  {| chat_id := chat_id c; pet_name := pet_name c;
     pet_stage := pet_stage c; pet_type := pet_type c;
     hunger := hunger c; mood := mood c; energy := energy c;
     health := 0;
     xp := xp c; level := level c;
     is_alive := false; is_sleeping := is_sleeping c;
     cursing_count := cursing_count c; meme_count := meme_count c;
     code_count := code_count c; caps_count := caps_count c;
     created_at := created_at c; last_tick := last_tick c;
     last_interaction := last_interaction c; death_at := Some now |}.

Definition kill_pet (db : DB) (now : Z) (cid : Z) : DB :=
  with_chats (alter (set_dead now) cid) db.

Definition set_revived (now : Z) (c : Chat) : Chat :=
  {| chat_id := chat_id c; pet_name := pet_name c;
     pet_stage := EGG; pet_type := NORMAL;
     hunger := 100; mood := 100; energy := 100; health := 100;
     xp := 0; level := 1;
     is_alive := true; is_sleeping := is_sleeping c;
     cursing_count := 0; meme_count := 0; code_count := 0; caps_count := 0;
     created_at := now; last_tick := last_tick c;
     last_interaction := last_interaction c; death_at := None |}.

Definition revive_pet (db : DB) (now : Z) (cid : Z) : DB :=
  with_chats (alter (set_revived now) cid) db.

Definition set_stage_type (new_stage : PetStage) (new_type : PetType)
    (c : Chat) : Chat :=
  {| chat_id := chat_id c; pet_name := pet_name c;
     pet_stage := new_stage; pet_type := new_type;
     hunger := hunger c; mood := mood c; energy := energy c; health := health c;
     xp := xp c; level := level c;
     is_alive := is_alive c; is_sleeping := is_sleeping c;
     cursing_count := cursing_count c; meme_count := meme_count c;
     code_count := code_count c; caps_count := caps_count c;
     created_at := created_at c; last_tick := last_tick c;
     last_interaction := last_interaction c; death_at := death_at c |}.

Definition evolve (db : DB) (cid : Z) (new_stage : PetStage)
    (new_type : PetType) : DB :=
  with_chats (alter (set_stage_type new_stage new_type) cid) db.

Definition valid_counters : list string :=
  ["cursing_count"; "meme_count"; "code_count"; "caps_count"].

(** [setattr(chat, counter_type, getattr(chat, counter_type) + amount)] *)
Definition bump_counter (counter_type : string) (amount : Z) (c : Chat) : Chat :=
  let bump (name : string) (v : Z) :=
    if String.eqb counter_type name then v + amount else v in
  {| chat_id := chat_id c; pet_name := pet_name c;
     pet_stage := pet_stage c; pet_type := pet_type c;
     hunger := hunger c; mood := mood c; energy := energy c; health := health c;
     xp := xp c; level := level c;
     is_alive := is_alive c; is_sleeping := is_sleeping c;
     cursing_count := bump "cursing_count" (cursing_count c);
     meme_count := bump "meme_count" (meme_count c);
     code_count := bump "code_count" (code_count c);
     caps_count := bump "caps_count" (caps_count c);
     created_at := created_at c; last_tick := last_tick c;
     last_interaction := last_interaction c; death_at := death_at c |}.

Definition increment_behavior_counter (db : DB) (cid : Z)
    (counter_type : string) (amount : Z) : DB :=
  if negb (existsb (String.eqb counter_type) valid_counters) then db
  else match get db cid with
       | Some chat => with_chats (insert cid (bump_counter counter_type amount chat)) db
       | None => db
       end.

Definition set_last_tick (now : Z) (c : Chat) : Chat :=
  {| chat_id := chat_id c; pet_name := pet_name c;
     pet_stage := pet_stage c; pet_type := pet_type c;
     hunger := hunger c; mood := mood c; energy := energy c; health := health c;
     xp := xp c; level := level c;
     is_alive := is_alive c; is_sleeping := is_sleeping c;
     cursing_count := cursing_count c; meme_count := meme_count c;
     code_count := code_count c; caps_count := caps_count c;
     created_at := created_at c; last_tick := now;
     last_interaction := last_interaction c; death_at := death_at c |}.

Definition update_last_tick (db : DB) (now : Z) (cid : Z) : DB :=
  with_chats (alter (set_last_tick now) cid) db.

End ChatCRUD.

Module UserCRUD.

(** [if name and user.name != name: user.name = name] *)
Definition refresh_name (given current : option string) : option string :=
  match given with
  | Some s => if negb (String.eqb s "") && negb (bool_decide (current = Some s))
              then Some s else current
  | None => current
  end.

Definition touch (uname fname : option string) (now : Z) (u : User) : User :=
  {| user_id := user_id u; user_chat_id := user_chat_id u;
     username := refresh_name uname (username u);
     first_name := refresh_name fname (first_name u);
     karma_points := karma_points u; feed_count := feed_count u;
     play_count := play_count u; message_count := message_count u;
     night_disturb_count := night_disturb_count u;
     gamble_wins := gamble_wins u; gamble_losses := gamble_losses u;
     first_interaction := first_interaction u;
     user_last_interaction := now |}.

Definition get_or_create (db : DB) (now : Z) (uid cid : Z)
    (uname fname : option string) : DB * User :=
  match users db !! (uid, cid) with
  | None =>
      let user := new_user uid cid uname fname now in
      (with_users (insert (uid, cid) user) db, user)
  | Some user =>
      let user' := touch uname fname now user in
      (with_users (insert (uid, cid) user') db, user')
  end.

Definition valid_stats : list string :=
  ["karma_points"; "feed_count"; "play_count"; "message_count";
   "night_disturb_count"; "gamble_wins"; "gamble_losses"].

(** [setattr(user, stat_name, getattr(user, stat_name) + amount)] *)
Definition bump_stat (stat_name : string) (amount : Z) (u : User) : User :=
  let bump (name : string) (v : Z) :=
    if String.eqb stat_name name then v + amount else v in
  {| user_id := user_id u; user_chat_id := user_chat_id u;
     username := username u; first_name := first_name u;
     karma_points := bump "karma_points" (karma_points u);
     feed_count := bump "feed_count" (feed_count u);
     play_count := bump "play_count" (play_count u);
     message_count := bump "message_count" (message_count u);
     night_disturb_count := bump "night_disturb_count" (night_disturb_count u);
     gamble_wins := bump "gamble_wins" (gamble_wins u);
     gamble_losses := bump "gamble_losses" (gamble_losses u);
     first_interaction := first_interaction u;
     user_last_interaction := user_last_interaction u |}.

Definition increment_stat (db : DB) (now : Z) (uid cid : Z)
    (stat_name : string) (amount : Z) : DB :=
  if negb (existsb (String.eqb stat_name) valid_stats) then db
  else
    let '(db1, user) := get_or_create db now uid cid None None in
    with_users (insert (uid, cid) (bump_stat stat_name amount user)) db1.

End UserCRUD.

Module EventCRUD.

Definition create (db : DB) (now : Z) (cid : Z) (etype : EventType)
    (uid : option Z) : DB :=
  {| chats := chats db; users := users db;
     events := {| event_chat_id := cid; event_type := etype;
                  event_user_id := uid; event_created_at := now |}
               :: events db |}.

(** [select(func.count(Event.id)).where(chat_id, event_type)] *)
Definition count_by_type (db : DB) (cid : Z) (etype : EventType) : Z :=
  Z.of_nat
    (length
       (List.filter
          (fun e => bool_decide (event_chat_id e = cid)
                    && bool_decide (event_type e = etype))
          (events db))).

End EventCRUD.

(** ** services/pet_logic.py *)

Module PetLogic.

(** The user-facing reason of a rejected action (the ["message"] of a
    [{"success": False, ...}] dictionary). *)
Inductive Reason := PetIsDead | PetIsSleeping | TooTired.

(** The dictionary returned by [feed] and [play]. *)
Inductive ActionResult :=
| Failed (reason : Reason)
| Fed (new_hunger new_mood : Z)
| Played (new_mood new_energy : Z).

(** [result["success"]] *)
Definition success (r : ActionResult) : bool :=
  match r with Failed _ => false | _ => true end.

(** The dictionary returned by [disturb_at_night]: [NotDisturbed] is
    [{"disturbed": False}], [Disturbed] carries the ["health"] of
    [{"disturbed": True, ...}]. *)
Inductive DisturbResult := NotDisturbed | Disturbed (new_health : Z).

Definition tick_stats (cfg : Config) (db : DB) (now : Z) (chat : Chat)
    : DB * (bool * bool) :=
  if negb (is_alive chat) then (db, (false, false))
  else
    let decay := STAT_DECAY_PER_TICK cfg in
    let new_hunger := Z.max 0 (hunger chat - decay) in
    let new_mood := Z.max 0 (mood chat - decay) in
    let new_energy := Z.max 0 (energy chat - decay) in
    let health_penalty := 0 in
    let health_penalty :=
      if new_hunger <? 20 then health_penalty + 10 else health_penalty in
    let health_penalty :=
      if new_mood <? 20 then health_penalty + 5 else health_penalty in
    let health_penalty :=
      if new_energy <? 20 then health_penalty + 5 else health_penalty in
    let new_health := Z.max 0 (health chat - health_penalty) in
    let db := ChatCRUD.update_stats db now (chat_id chat)
                (Some new_hunger) (Some new_mood) (Some new_energy)
                (Some new_health) in
    if new_health <=? 0 then
      let db := ChatCRUD.kill_pet db now (chat_id chat) in
      let db := EventCRUD.create db now (chat_id chat) DEATH None in
      (db, (false, true))
    else
      let is_critical := new_health <? CRITICAL_HEALTH_THRESHOLD cfg in
      let db :=
        if is_critical
        then EventCRUD.create db now (chat_id chat) CRITICAL_HEALTH None
        else db in
      let db := ChatCRUD.update_last_tick db now (chat_id chat) in
      (db, (true, is_critical)).

Definition feed (cfg : Config) (db : DB) (now : Z) (chat : Chat) (uid : Z)
    : DB * ActionResult :=
  if negb (is_alive chat) then (db, Failed PetIsDead)
  else if is_sleeping chat then (db, Failed PetIsSleeping)
  else
    let new_hunger := Z.min 100 (hunger chat + 30) in
    let new_mood := Z.min 100 (mood chat + 5) in
    let db := ChatCRUD.update_stats db now (chat_id chat)
                (Some new_hunger) (Some new_mood) None None in
    let db := fst (ChatCRUD.add_xp db (chat_id chat) (XP_PER_FEED cfg)) in
    let db := EventCRUD.create db now (chat_id chat) FEED (Some uid) in
    (db, Fed new_hunger new_mood).

Definition play (cfg : Config) (db : DB) (now : Z) (chat : Chat) (uid : Z)
    : DB * ActionResult :=
  if negb (is_alive chat) then (db, Failed PetIsDead)
  else if is_sleeping chat then (db, Failed PetIsSleeping)
  else if energy chat <? 20 then (db, Failed TooTired)
  else
    let new_mood := Z.min 100 (mood chat + 20) in
    let new_energy := Z.max 0 (energy chat - 10) in
    let new_hunger := Z.max 0 (hunger chat - 5) in
    let db := ChatCRUD.update_stats db now (chat_id chat)
                (Some new_hunger) (Some new_mood) (Some new_energy) None in
    let db := fst (ChatCRUD.add_xp db (chat_id chat) (XP_PER_GAME cfg)) in
    let db := EventCRUD.create db now (chat_id chat) PLAY (Some uid) in
    (db, Played new_mood new_energy).

(** [datetime.utcnow().hour] *)
Definition hour_of (now : Z) : Z := (now / 3600) mod 24.

(** The body of [is_night_time], on the hour and the two configured
    bounds it reads. *)
Definition is_night_hour (night_start night_end current_hour : Z) : bool :=
  if night_start <? night_end
  then (night_start <=? current_hour) && (current_hour <? night_end)
  else (current_hour >=? night_start) || (current_hour <? night_end).

Definition is_night_time (cfg : Config) (now : Z) : bool :=
  is_night_hour (NIGHT_START_HOUR cfg) (NIGHT_END_HOUR cfg) (hour_of now).

(** [chat.is_sleeping = b], written to the row by the next commit. *)
Definition set_sleeping (b : bool) (c : Chat) : Chat :=
  {| chat_id := chat_id c; pet_name := pet_name c;
     pet_stage := pet_stage c; pet_type := pet_type c;
     hunger := hunger c; mood := mood c; energy := energy c; health := health c;
     xp := xp c; level := level c;
     is_alive := is_alive c; is_sleeping := b;
     cursing_count := cursing_count c; meme_count := meme_count c;
     code_count := code_count c; caps_count := caps_count c;
     created_at := created_at c; last_tick := last_tick c;
     last_interaction := last_interaction c; death_at := death_at c |}.

Definition check_sleep_status (cfg : Config) (db : DB) (now : Z) (chat : Chat)
    : DB :=
  let is_night := is_night_time cfg now in
  if is_night && negb (is_sleeping chat) then
    with_chats (alter (set_sleeping true) (chat_id chat)) db
  else if negb is_night && is_sleeping chat then
    let db := with_chats (alter (set_sleeping false) (chat_id chat)) db in
    let new_energy := Z.min 100 (energy chat + 50) in
    ChatCRUD.update_stats db now (chat_id chat) None None (Some new_energy) None
  else db.

Definition disturb_at_night (db : DB) (now : Z) (chat : Chat) (uid : Z)
    : DB * DisturbResult :=
  if negb (is_sleeping chat) then (db, NotDisturbed)
  else
    let new_health := Z.max 0 (health chat - 15) in
    let new_mood := Z.max 0 (mood chat - 20) in
    let db := ChatCRUD.update_stats db now (chat_id chat)
                None (Some new_mood) None (Some new_health) in
    let db := EventCRUD.create db now (chat_id chat) NIGHT_DISTURB (Some uid) in
    (db, Disturbed new_health).

End PetLogic.

(** ** services/evolution.py *)

Module EvolutionSystem.

Definition STAGE_THRESHOLDS (s : PetStage) : Z :=
  match s with
  | EGG => 0
  | BABY => 100
  | TEEN => 500
  | ADULT => 1500
  | ANCIENT => 5000
  end.

Definition stage_order : list PetStage := [EGG; BABY; TEEN; ADULT; ANCIENT].

(** [stage_order.index(current_stage)]; [None] is the [ValueError]. *)
Fixpoint index (s : PetStage) (l : list PetStage) : option nat :=
  match l with
  | [] => None
  | x :: l' => if decide (x = s) then Some 0%nat else S <$> index s l'
  end.

Definition get_next_stage (current_stage : PetStage) : option PetStage :=
  match index current_stage stage_order with
  | Some current_index =>
      if (current_index <? length stage_order - 1)%nat
      then stage_order !! (current_index + 1)%nat
      else None
  | None => None
  end.

Definition determine_pet_type (chat : Chat) : PetType :=
  let total_interactions :=
    cursing_count chat + meme_count chat + code_count chat + caps_count chat in
  if (cursing_count chat =? 0) && (total_interactions >=? 200) then ANGEL
  else if code_count chat >=? 50 then CYBER_BOT
  else if meme_count chat >=? 50 then MEME_CAT
  else if (caps_count chat >=? 100) && (cursing_count chat >=? 30) then TROLL
  else if cursing_count chat >=? 50 then GOBLIN
  else NORMAL.

Definition check_and_evolve (db : DB) (now : Z) (chat : Chat)
    : DB * (bool * option PetStage * option PetType) :=
  if negb (is_alive chat) then (db, (false, None, None))
  else
    match get_next_stage (pet_stage chat) with
    | None => (db, (false, None, None))
    | Some next_stage =>
        let required_xp := STAGE_THRESHOLDS next_stage in
        if xp chat <? required_xp then (db, (false, None, None))
        else
          let new_type :=
            if decide (next_stage = TEEN) then determine_pet_type chat
            else pet_type chat in
          let db := ChatCRUD.evolve db (chat_id chat) next_stage new_type in
          let db := EventCRUD.create db now (chat_id chat) EVOLUTION None in
          (db, (true, Some next_stage, Some new_type))
    end.

End EvolutionSystem.

(** ** services/events.py *)

Module Events.

(** A Python [float] is the rational it denotes; comparison of floats
    is comparison of these rationals.  The literals below are the
    exact values of the IEEE-754 doubles nearest to 0.3, 0.2, 0.15 and
    0.25. *)
Definition float_0_3 : Q := 5404319552844595 # 18014398509481984.
Definition float_0_2 : Q := 3602879701896397 # 18014398509481984.
Definition float_0_15 : Q := 5404319552844595 # 36028797018963968.
Definition float_0_25 : Q := 1 # 4.

(** The values [random.random()] can return: the multiples [k / 2^53]
    with [0 <= k < 2^53]. *)
Definition random_value (k : Z) : Q := k # 9007199254740992.

(** [a > b] on floats *)
Definition float_gt (a b : Q) : bool := negb (Qle_bool a b).

(** The entries of the [outcomes], [visitors] and [weather_types]
    tables, in the order of the source. *)
Inductive BoxOutcome := BoxFood | BoxEnergyDrink | BoxToys | BoxMold | BoxTextbook.
Inductive VisitorKind := GoodFairy | EvilTroll | MerryClown.
Inductive WeatherType := Sunny | Rain | Thunderstorm | Snow.

(** A registered event together with the entry its [random.choice]
    takes from its own table. *)
Inductive RandomEvent :=
| FindBoxEvent (outcome : BoxOutcome)
| VisitorEvent (visitor : VisitorKind)
| WeatherEvent (weather : WeatherType).

(** [event.probability] *)
Definition probability (ev : RandomEvent) : Q :=
  match ev with
  | FindBoxEvent _ => float_0_2
  | VisitorEvent _ => float_0_15
  | WeatherEvent _ => float_0_25
  end.

Definition execute_box (db : DB) (now : Z) (chat : Chat) (outcome : BoxOutcome)
    : DB :=
  let cid := chat_id chat in
  let db :=
    match outcome with
    | BoxFood =>
        ChatCRUD.update_stats db now cid
          (Some (Z.min 100 (hunger chat + 50))) None None None
    | BoxEnergyDrink =>
        ChatCRUD.update_stats db now cid
          None None (Some (Z.min 100 (energy chat + 30))) None
    | BoxToys =>
        ChatCRUD.update_stats db now cid
          None (Some (Z.min 100 (mood chat + 40))) None None
    | BoxMold =>
        ChatCRUD.update_stats db now cid
          None None None (Some (Z.max 0 (health chat - 20)))
    | BoxTextbook => fst (ChatCRUD.add_xp db cid 50)
    end in
  EventCRUD.create db now cid RANDOM_EVENT None.

Definition execute_visitor (db : DB) (now : Z) (chat : Chat)
    (visitor : VisitorKind) : DB :=
  let cid := chat_id chat in
  let db :=
    match visitor with
    | GoodFairy =>
        ChatCRUD.update_stats db now cid
          (Some 100) (Some 100) (Some 100) (Some 100)
    | EvilTroll =>
        ChatCRUD.update_stats db now cid
          (Some (Z.max 0 (hunger chat - 30))) None None None
    | MerryClown =>
        ChatCRUD.update_stats db now cid
          None (Some (Z.min 100 (mood chat + 50))) None None
    end in
  EventCRUD.create db now cid RANDOM_EVENT None.

Definition execute_weather (db : DB) (now : Z) (chat : Chat)
    (weather : WeatherType) : DB :=
  let cid := chat_id chat in
  let db :=
    match weather with
    | Sunny =>
        ChatCRUD.update_stats db now cid
          None (Some (Z.min 100 (mood chat + 20))) None None
    | Rain =>
        ChatCRUD.update_stats db now cid
          None (Some (Z.max 0 (mood chat - 10))) None None
    | Thunderstorm =>
        ChatCRUD.update_stats db now cid
          None (Some (Z.max 0 (mood chat - 20)))
          (Some (Z.max 0 (energy chat - 15))) None
    | Snow =>
        ChatCRUD.update_stats db now cid
          None (Some (Z.min 100 (mood chat + 15))) None None
    end in
  EventCRUD.create db now cid RANDOM_EVENT None.

Definition execute (db : DB) (now : Z) (chat : Chat) (ev : RandomEvent) : DB :=
  match ev with
  | FindBoxEvent outcome => execute_box db now chat outcome
  | VisitorEvent visitor => execute_visitor db now chat visitor
  | WeatherEvent weather => execute_weather db now chat weather
  end.

(** [trigger_random_event]: [roll1] and [roll2] are the two calls of
    [random.random()], [ev] the choices of [random.choice].  The result
    is the event that fired, or [None]. *)
Definition trigger_random_event (db : DB) (now : Z) (chat : Chat)
    (roll1 : Q) (ev : RandomEvent) (roll2 : Q) : DB * option RandomEvent :=
  if negb (is_alive chat) || is_sleeping chat then (db, None)
  else if float_gt roll1 float_0_3 then (db, None)
  else if float_gt roll2 (probability ev) then (db, None)
  else (execute db now chat ev, Some ev).

End Events.

(** ** bot/handlers/commands.py and bot/handlers/callbacks.py *)

Module Handlers.

Import PetLogic.

(** What a handler reads from an incoming [Message] or [CallbackQuery]. *)
Record Message := mkMessage {
  message_chat_id : Z;
  chat_is_private : bool;
  from_user_id : Z;
  from_username : option string;
  from_first_name : option string
}.

(** What a handler sends back. *)
Inductive Reply :=
| Greeting
| GroupsOnly
| NoPetYet
| PetBorn
| PetAlreadyLives
| WokenUp (new_health : Z)
| ActionReply (result : ActionResult)
| PetDead
| TooHungryToGamble
| GambleOffer
| GambleWon (new_hunger : Z)
| GambleLost (new_hunger : Z).

Definition cmd_start (db : DB) (now : Z) (message : Message) : DB * Reply :=
  if chat_is_private message then (db, Greeting)
  else
    let '(db, chat) := ChatCRUD.get_or_create db now (message_chat_id message) in
    if negb (is_alive chat) then
      let db := ChatCRUD.revive_pet db now (message_chat_id message) in
      let db := EventCRUD.create db now (message_chat_id message) BIRTH None in
      (db, PetBorn)
    else (db, PetAlreadyLives).

(** The night-disturbance check shared by [cmd_feed] and [cmd_play]:
    [Some] is the early [return] of the handler. *)
Definition check_night_disturbance (db : DB) (now : Z) (chat : Chat)
    (message : Message) : DB * option Reply :=
  if is_sleeping chat then
    let '(db, disturb_result) :=
      disturb_at_night db now chat (from_user_id message) in
    match disturb_result with
    | Disturbed new_health =>
        let db := UserCRUD.increment_stat db now (from_user_id message)
                    (message_chat_id message) "night_disturb_count" 1 in
        (db, Some (WokenUp new_health))
    | NotDisturbed => (db, None)
    end
  else (db, None).

Definition cmd_feed (cfg : Config) (db : DB) (now : Z) (message : Message)
    : DB * Reply :=
  if chat_is_private message then (db, GroupsOnly)
  else
    match ChatCRUD.get db (message_chat_id message) with
    | None => (db, NoPetYet)
    | Some chat =>
        match check_night_disturbance db now chat message with
        | (db, Some reply) => (db, reply)
        | (db, None) =>
            let '(db, result) := feed cfg db now chat (from_user_id message) in
            let db :=
              if success result then
                let db := UserCRUD.increment_stat db now (from_user_id message)
                            (message_chat_id message) "feed_count" 1 in
                UserCRUD.increment_stat db now (from_user_id message)
                  (message_chat_id message) "karma_points" 5
              else db in
            (db, ActionReply result)
        end
    end.

Definition cmd_play (cfg : Config) (db : DB) (now : Z) (message : Message)
    : DB * Reply :=
  if chat_is_private message then (db, GroupsOnly)
  else
    match ChatCRUD.get db (message_chat_id message) with
    | None => (db, NoPetYet)
    | Some chat =>
        match check_night_disturbance db now chat message with
        | (db, Some reply) => (db, reply)
        | (db, None) =>
            let '(db, result) := play cfg db now chat (from_user_id message) in
            let db :=
              if success result then
                let db := UserCRUD.increment_stat db now (from_user_id message)
                            (message_chat_id message) "play_count" 1 in
                UserCRUD.increment_stat db now (from_user_id message)
                  (message_chat_id message) "karma_points" 3
              else db in
            (db, ActionReply result)
        end
    end.

Definition cmd_gamble (db : DB) (message : Message) : DB * Reply :=
  if chat_is_private message then (db, GroupsOnly)
  else
    match ChatCRUD.get db (message_chat_id message) with
    | None => (db, NoPetYet)
    | Some chat =>
        if negb (is_alive chat) then (db, PetDead)
        else if hunger chat <? 30 then (db, TooHungryToGamble)
        else (db, GambleOffer)
    end.

(** [callback_gamble_play]: [won] is [random.choice([True, False])]. *)
Definition callback_gamble_play (db : DB) (now : Z) (callback : Message)
    (won : bool) : DB * Reply :=
  match ChatCRUD.get db (message_chat_id callback) with
  | None => (db, PetDead)
  | Some chat =>
      if negb (is_alive chat) then (db, PetDead)
      else if won then
        let new_hunger := Z.min 100 (hunger chat + 50) in
        let db := ChatCRUD.update_stats db now (chat_id chat)
                    (Some new_hunger) None None None in
        let db := UserCRUD.increment_stat db now (from_user_id callback)
                    (message_chat_id callback) "gamble_wins" 1 in
        let db := UserCRUD.increment_stat db now (from_user_id callback)
                    (message_chat_id callback) "karma_points" 10 in
        let db := EventCRUD.create db now (chat_id chat) GAMBLE_WIN
                    (Some (from_user_id callback)) in
        (db, GambleWon new_hunger)
      else
        let new_hunger := Z.max 0 (hunger chat - 30) in
        let db := ChatCRUD.update_stats db now (chat_id chat)
                    (Some new_hunger) None None None in
        let db := UserCRUD.increment_stat db now (from_user_id callback)
                    (message_chat_id callback) "gamble_losses" 1 in
        let db := UserCRUD.increment_stat db now (from_user_id callback)
                    (message_chat_id callback) "karma_points" (-5) in
        let db := EventCRUD.create db now (chat_id chat) GAMBLE_LOSS
                    (Some (from_user_id callback)) in
        (db, GambleLost new_hunger)
  end.

(** *** bot/handlers/messages.py

    The text classifiers ([contains_bad_words], [is_mostly_caps],
    [contains_code]) are inputs of the handlers: [bad], [caps] and
    [code] are their answers on the text of the message. *)

Definition handle_group_message (cfg : Config) (db : DB) (now : Z)
    (message : Message) (is_command bad caps code : bool) : DB :=
  if chat_is_private message || is_command then db
  else
    match ChatCRUD.get db (message_chat_id message) with
    | None => db
    | Some chat =>
        if negb (is_alive chat) then db
        else
          let db := fst (UserCRUD.get_or_create db now (from_user_id message)
                           (message_chat_id message)
                           (from_username message) (from_first_name message)) in
          let db := UserCRUD.increment_stat db now (from_user_id message)
                      (message_chat_id message) "message_count" 1 in
          let db := fst (ChatCRUD.add_xp db (message_chat_id message)
                           (XP_PER_MESSAGE cfg)) in
          let new_hunger := Z.min 100 (hunger chat + 1) in
          let db := ChatCRUD.update_stats db now (chat_id chat)
                      (Some new_hunger) None None None in
          let db :=
            if bad then
              let db := ChatCRUD.increment_behavior_counter db
                          (message_chat_id message) "cursing_count" 1 in
              let new_mood := Z.max 0 (mood (loaded db chat) - 2) in
              ChatCRUD.update_stats db now (chat_id chat)
                None (Some new_mood) None None
            else db in
          let db :=
            if caps then
              let db := ChatCRUD.increment_behavior_counter db
                          (message_chat_id message) "caps_count" 1 in
              let new_mood := Z.max 0 (mood (loaded db chat) - 1) in
              ChatCRUD.update_stats db now (chat_id chat)
                None (Some new_mood) None None
            else db in
          if code then
            ChatCRUD.increment_behavior_counter db
              (message_chat_id message) "code_count" 1
          else db
    end.

Definition handle_sticker (db : DB) (now : Z) (message : Message) : DB :=
  if chat_is_private message then db
  else
    match ChatCRUD.get db (message_chat_id message) with
    | None => db
    | Some chat =>
        if negb (is_alive chat) then db
        else
          let db := ChatCRUD.increment_behavior_counter db
                      (message_chat_id message) "meme_count" 1 in
          let new_mood := Z.min 100 (mood chat + 2) in
          ChatCRUD.update_stats db now (chat_id chat)
            None (Some new_mood) None None
    end.

(** [caption] is [None] for a photo without caption, else the answers
    of [contains_bad_words], [contains_code] and [len(caption) < 50]. *)
Definition handle_photo (db : DB) (now : Z) (message : Message)
    (caption : option (bool * bool * bool)) : DB :=
  if chat_is_private message then db
  else
    match ChatCRUD.get db (message_chat_id message) with
    | None => db
    | Some chat =>
        if negb (is_alive chat) then db
        else
          let db :=
            match caption with
            | Some (bad, code, _) =>
                let db :=
                  if bad then
                    ChatCRUD.increment_behavior_counter db
                      (message_chat_id message) "cursing_count" 1
                  else db in
                if code then
                  ChatCRUD.increment_behavior_counter db
                    (message_chat_id message) "code_count" 1
                else db
            | None => db
            end in
          let short :=
            match caption with
            | Some (_, _, short) => short
            | None => true
            end in
          if short then
            let db := ChatCRUD.increment_behavior_counter db
                        (message_chat_id message) "meme_count" 1 in
            let new_mood := Z.min 100 (mood chat + 1) in
            ChatCRUD.update_stats db now (chat_id chat)
              None (Some new_mood) None None
          else db
    end.

End Handlers.

(** ** services/scheduler.py *)

Module Scheduler.

Import PetLogic.

(** The messages handed to [bot.send_message].  A failed send is caught
    and logged by the source and never touches the store. *)
Inductive Notification :=
| DeathNotice (cid : Z)
| CriticalAlert (cid : Z) (health : Z)
| EvolutionNotice (cid : Z) (new_stage : option PetStage) (new_type : option PetType)
| EventNotice (cid : Z) (ev : Events.RandomEvent).

(** What one iteration of the loop of [tick_all_pets] did:
    [evolution_check] is the value returned by [check_and_evolve], or
    [None] when the iteration did not call it. *)
Record TickOutcome := mkTickOutcome {
  still_alive : bool;
  critical : bool;
  evolution_check : option (bool * option PetStage * option PetType);
  notifications : list Notification
}.

(** The body of the [for chat in chats] loop of [tick_all_pets]. *)
Definition tick_pet (cfg : Config) (db : DB) (now : Z) (chat : Chat)
    : DB * TickOutcome :=
  let db := check_sleep_status cfg db now chat in
  let chat := loaded db chat in
  let '(db, (alive, is_critical)) := tick_stats cfg db now chat in
  let chat := loaded db chat in
  let notes :=
    if negb alive then [DeathNotice (chat_id chat)]
    else if is_critical then [CriticalAlert (chat_id chat) (health chat)]
    else [] in
  if alive then
    let '(db, (evolved, new_stage, new_type)) :=
      EvolutionSystem.check_and_evolve db now chat in
    let notes :=
      if evolved
      then notes ++ [EvolutionNotice (chat_id chat) new_stage new_type]
      else notes in
    (db, {| still_alive := alive; critical := is_critical;
            evolution_check := Some (evolved, new_stage, new_type);
            notifications := notes |})
  else
    (db, {| still_alive := alive; critical := is_critical;
            evolution_check := None; notifications := notes |}).

(** [select(Chat).where(Chat.is_alive == True)] *)
Definition alive_chats (db : DB) : list Chat :=
  List.filter is_alive (snd <$> map_to_list (chats db)).

(** [select(Chat).where(Chat.is_alive == True, Chat.is_sleeping == False)] *)
Definition alive_awake_chats (db : DB) : list Chat :=
  List.filter (fun c => is_alive c && negb (is_sleeping c))
    (snd <$> map_to_list (chats db)).

Definition tick_all_pets (cfg : Config) (db : DB) (now : Z)
    : DB * list Notification :=
  fold_left
    (fun acc chat =>
       let '(db, out) := tick_pet cfg (fst acc) now (loaded (fst acc) chat) in
       (db, snd acc ++ notifications out))
    (alive_chats db) (db, []).

(** [rolls] gives, for each chat, the random draws of its
    [trigger_random_event]. *)
Definition trigger_random_events (db : DB) (now : Z)
    (rolls : Z -> Q * Events.RandomEvent * Q) : DB * list Notification :=
  fold_left
    (fun acc chat =>
       let '(roll1, ev, roll2) := rolls (chat_id chat) in
       let '(db, fired) :=
         Events.trigger_random_event (fst acc) now (loaded (fst acc) chat)
           roll1 ev roll2 in
       (db, snd acc ++ match fired with
                       | Some ev => [EventNotice (chat_id chat) ev]
                       | None => []
                       end))
    (alive_awake_chats db) (db, []).

Definition check_sleep_all (cfg : Config) (db : DB) (now : Z) : DB :=
  fold_left
    (fun db chat => check_sleep_status cfg db now (loaded db chat))
    (alive_chats db) db.

End Scheduler.

(** ** The whole bot as a transition system *)

Module System.

(** One step of the bot: a command, a button, a message, or one run
    of a scheduler job. *)
Inductive step (cfg : Config) : DB -> DB -> Prop :=
| step_start db now message :
    step cfg db (fst (Handlers.cmd_start db now message))
| step_feed db now message :
    step cfg db (fst (Handlers.cmd_feed cfg db now message))
| step_play db now message :
    step cfg db (fst (Handlers.cmd_play cfg db now message))
| step_gamble db message :
    step cfg db (fst (Handlers.cmd_gamble db message))
| step_gamble_play db now callback won :
    step cfg db (fst (Handlers.callback_gamble_play db now callback won))
| step_group_message db now message is_command bad caps code :
    step cfg db
      (Handlers.handle_group_message cfg db now message is_command bad caps code)
| step_sticker db now message :
    step cfg db (Handlers.handle_sticker db now message)
| step_photo db now message caption :
    step cfg db (Handlers.handle_photo db now message caption)
| step_tick db now :
    step cfg db (fst (Scheduler.tick_all_pets cfg db now))
| step_random_events db now rolls :
    step cfg db (fst (Scheduler.trigger_random_events db now rolls))
| step_check_sleep db now :
    step cfg db (Scheduler.check_sleep_all cfg db now).

(** The store of a bot that has not seen any chat yet. *)
Definition empty_db : DB := {| chats := ∅; users := ∅; events := [] |}.

Definition reachable (cfg : Config) (db : DB) : Prop :=
  rtc (step cfg) empty_db db.

(** Every row sits under its own [chat_id] and has its four vitals in
    [0,100]. *)
Definition db_ok (db : DB) : Prop :=
  forall (cid : Z) (c : Chat),
    chats db !! cid = Some c -> chat_id c = cid /\ vitals_in_range c.

End System.

(** ** The specification's own wording, and sample pets *)

Module Spec.

(** §4.3 of the specification: the rules of [determineType] as an
    ordered table, evaluated top to bottom, first match wins. *)
Definition type_rules : list ((Chat -> bool) * PetType) :=
  [ (fun c => (cursing_count c =? 0) &&
              (cursing_count c + meme_count c + code_count c + caps_count c >=? 200),
     ANGEL);
    (fun c => code_count c >=? 50, CYBER_BOT);
    (fun c => meme_count c >=? 50, MEME_CAT);
    (fun c => (caps_count c >=? 100) && (cursing_count c >=? 30), TROLL);
    (fun c => cursing_count c >=? 50, GOBLIN) ].

Fixpoint first_match (rules : list ((Chat -> bool) * PetType)) (c : Chat)
    : PetType :=
  match rules with
  | [] => NORMAL
  | (applies, t) :: rules' => if applies c then t else first_match rules' c
  end.

(** §4.5 (b): a vital after the decay of one tick. *)
Definition decayed (cfg : Config) (v : Z) : Z :=
  Z.max 0 (v - STAT_DECAY_PER_TICK cfg).

(** §4.5 (c): the additive health penalty of one tick. *)
Definition health_penalty (cfg : Config) (c : Chat) : Z :=
  (if decayed cfg (hunger c) <? 20 then 10 else 0) +
  (if decayed cfg (mood c) <? 20 then 5 else 0) +
  (if decayed cfg (energy c) <? 20 then 5 else 0).

(** An argument of [update_stats] that asks for no change of the
    vital it addresses. *)
Definition keeps (arg : option Z) (current : Z) : Prop :=
  arg = None \/ arg = Some current.

(** A pet fresh from [new_chat] with the given behaviour counters. *)
Definition pet_with_counters (cursing meme code caps : Z) : Chat :=
  ChatCRUD.bump_counter "cursing_count" cursing
    (ChatCRUD.bump_counter "meme_count" meme
       (ChatCRUD.bump_counter "code_count" code
          (ChatCRUD.bump_counter "caps_count" caps (new_chat 1 0)))).

(** A living pet of chat 1 with the given vitals and sleep flag. *)
Definition pet_with_vitals (hunger' mood' energy' health' : Z)
    (sleeping : bool) : Chat :=
  PetLogic.set_sleeping sleeping
    {| chat_id := 1; pet_name := pet_name (new_chat 1 0);
       pet_stage := EGG; pet_type := NORMAL;
       hunger := hunger'; mood := mood'; energy := energy'; health := health';
       xp := 0; level := 1;
       is_alive := true; is_sleeping := false;
       cursing_count := 0; meme_count := 0; code_count := 0; caps_count := 0;
       created_at := 0; last_tick := 0;
       last_interaction := None; death_at := None |}.

(** The pet [c] moved to the given stage, type, xp and life flag. *)
Definition pet_at_stage (s : PetStage) (t : PetType) (xp' : Z) (alive : bool)
    (c : Chat) : Chat :=
  {| chat_id := chat_id c; pet_name := pet_name c;
     pet_stage := s; pet_type := t;
     hunger := hunger c; mood := mood c; energy := energy c; health := health c;
     xp := xp'; level := xp' / 100 + 1;
     is_alive := alive; is_sleeping := is_sleeping c;
     cursing_count := cursing_count c; meme_count := meme_count c;
     code_count := code_count c; caps_count := caps_count c;
     created_at := created_at c; last_tick := last_tick c;
     last_interaction := last_interaction c;
     death_at := if alive then None else Some 0 |}.

(** A message of user 42 in the group chat 1. *)
Definition group_message : Handlers.Message :=
  {| Handlers.message_chat_id := 1; Handlers.chat_is_private := false;
     Handlers.from_user_id := 42; Handlers.from_username := None;
     Handlers.from_first_name := None |}.

(** A store whose only row is the given pet. *)
Definition store_of (c : Chat) : DB :=
  {| chats := {[ chat_id c := c ]}; users := ∅; events := [] |}.

(** Stores the bot reaches: after /start in chat 1; after the sleep
    check of 03:00 UTC has put the new pet to sleep; and after [n]
    further /feed commands sent during that night. *)
Definition born_db : DB :=
  fst (Handlers.cmd_start System.empty_db 0 group_message).

Definition night : Z := 3 * 3600.

Definition asleep_db : DB :=
  Scheduler.check_sleep_all default_config born_db night.

Definition disturbed_db (n : nat) : DB :=
  Nat.iter n
    (fun db => fst (Handlers.cmd_feed default_config db night group_message))
    asleep_db.

(** A pet that is left alone for twenty night ticks, gets five
    stickers, and dies in the twenty-first tick while flagged asleep. *)
Definition neglected_db (n : nat) : DB :=
  Nat.iter n
    (fun db => fst (Scheduler.tick_all_pets default_config db night))
    born_db.

Definition cheered_db (n : nat) : DB :=
  Nat.iter n
    (fun db => Handlers.handle_sticker db night group_message)
    (neglected_db 20).

Definition dead_asleep_db : DB :=
  fst (Scheduler.tick_all_pets default_config (cheered_db 5) night).

(** A configuration with the given night window. *)
Definition config_with_night (night_start night_end : Z) : Config :=
  {| TICK_INTERVAL_MINUTES := TICK_INTERVAL_MINUTES default_config;
     CRITICAL_HEALTH_THRESHOLD := CRITICAL_HEALTH_THRESHOLD default_config;
     NIGHT_START_HOUR := night_start;
     NIGHT_END_HOUR := night_end;
     XP_PER_MESSAGE := XP_PER_MESSAGE default_config;
     XP_PER_FEED := XP_PER_FEED default_config;
     XP_PER_GAME := XP_PER_GAME default_config;
     MAX_STAT_VALUE := MAX_STAT_VALUE default_config;
     STAT_DECAY_PER_TICK := STAT_DECAY_PER_TICK default_config |}.

End Spec.

(** ** Notions used to state what the code keeps *)

Module Notions.

(** The user object [increment_stat] works on: the row of the user,
    touched by [get_or_create], or a new row. *)
Definition seen_user (db : DB) (now uid cid : Z) : User :=
  snd (UserCRUD.get_or_create db now uid cid None None).

(** A property of every chat row, and of every user row, of a store. *)
Definition all_chats (P : Chat -> Prop) (db : DB) : Prop :=
  forall (cid : Z) (c : Chat), chats db !! cid = Some c -> P c.

Definition all_users (P : User -> Prop) (db : DB) : Prop :=
  forall (key : Z * Z) (u : User), users db !! key = Some u -> P u.

(** [getattr(user, stat_name)] for the names of [valid_stats]. *)
Definition user_stat (stat_name : string) (u : User) : Z :=
  if String.eqb stat_name "karma_points" then karma_points u
  else if String.eqb stat_name "feed_count" then feed_count u
  else if String.eqb stat_name "play_count" then play_count u
  else if String.eqb stat_name "message_count" then message_count u
  else if String.eqb stat_name "night_disturb_count" then night_disturb_count u
  else if String.eqb stat_name "gamble_wins" then gamble_wins u
  else if String.eqb stat_name "gamble_losses" then gamble_losses u
  else 0.

(** [getattr(chat, counter_type)] for the names of [valid_counters]. *)
Definition chat_counter (counter_type : string) (c : Chat) : Z :=
  if String.eqb counter_type "cursing_count" then cursing_count c
  else if String.eqb counter_type "meme_count" then meme_count c
  else if String.eqb counter_type "code_count" then code_count c
  else if String.eqb counter_type "caps_count" then caps_count c
  else 0.

(** The amounts [add_xp] is called with. *)
Definition xp_amounts (cfg : Config) : list Z :=
  [XP_PER_MESSAGE cfg; XP_PER_FEED cfg; XP_PER_GAME cfg; 50].

(** The statistics the handlers increment, with their amounts. *)
Definition stat_increments : list (string * Z) :=
  [("night_disturb_count", 1); ("feed_count", 1); ("play_count", 1);
   ("message_count", 1); ("gamble_wins", 1); ("gamble_losses", 1);
   ("karma_points", 5); ("karma_points", 3); ("karma_points", 10);
   ("karma_points", -5)].

(** The event types the scheduler jobs log, and the ones the handlers
    log for a user. *)
Definition job_event_types : list EventType :=
  [DEATH; CRITICAL_HEALTH; EVOLUTION; RANDOM_EVENT].

Definition user_event_types : list EventType :=
  [FEED; PLAY; NIGHT_DISTURB; GAMBLE_WIN; GAMBLE_LOSS].

(** The writes of the scheduler jobs to the chat [cid]: the calls of
    crud.py made by [tick_stats], [check_sleep_status],
    [check_and_evolve] and the random events, with the arguments they
    are given, and the flush of a changed sleep flag. *)
Inductive job_write (cid : Z) : DB -> DB -> Prop :=
| job_update_stats db now h m e hl :
    job_write cid db (ChatCRUD.update_stats db now cid h m e hl)
| job_add_xp db :
    job_write cid db (fst (ChatCRUD.add_xp db cid 50))
| job_kill_pet db now :
    job_write cid db (ChatCRUD.kill_pet db now cid)
| job_evolve db new_stage new_type :
    job_write cid db (ChatCRUD.evolve db cid new_stage new_type)
| job_update_last_tick db now :
    job_write cid db (ChatCRUD.update_last_tick db now cid)
| job_sleep_flag db b :
    job_write cid db (with_chats (alter (PetLogic.set_sleeping b) cid) db)
| job_event db now etype :
    In etype job_event_types ->
    job_write cid db (EventCRUD.create db now cid etype None).

(** The writes of the handlers other than /start, made for the chat
    [cid] on behalf of the user [uid]: the calls of crud.py with the
    arguments the handlers, [feed], [play] and [disturb_at_night] give
    them. *)
Inductive handler_write (cfg : Config) (cid uid : Z) : DB -> DB -> Prop :=
| handler_update_stats db now h m e hl :
    handler_write cfg cid uid db (ChatCRUD.update_stats db now cid h m e hl)
| handler_add_xp db amount :
    In amount [XP_PER_MESSAGE cfg; XP_PER_FEED cfg; XP_PER_GAME cfg] ->
    handler_write cfg cid uid db (fst (ChatCRUD.add_xp db cid amount))
| handler_counter db name :
    handler_write cfg cid uid db
      (ChatCRUD.increment_behavior_counter db cid name 1)
| handler_event db now etype :
    In etype user_event_types ->
    handler_write cfg cid uid db (EventCRUD.create db now cid etype (Some uid))
| handler_user db now uname fname :
    handler_write cfg cid uid db
      (fst (UserCRUD.get_or_create db now uid cid uname fname))
| handler_stat db now name amount :
    In (name, amount) stat_increments ->
    handler_write cfg cid uid db
      (UserCRUD.increment_stat db now uid cid name amount).

(** A write of a job or of a handler. *)
Inductive write (cfg : Config) (cid uid : Z) : DB -> DB -> Prop :=
| write_job db db' :
    job_write cid db db' -> write cfg cid uid db db'
| write_handler db db' :
    handler_write cfg cid uid db db' -> write cfg cid uid db db'.

(** Every row sits under its own [chat_id]. *)
Definition keys_ok (db : DB) : Prop :=
  forall (cid : Z) (c : Chat), chats db !! cid = Some c -> chat_id c = cid.

(** One run of a scheduler job. *)
Inductive job_step (cfg : Config) : DB -> DB -> Prop :=
| job_tick db now :
    job_step cfg db (fst (Scheduler.tick_all_pets cfg db now))
| job_random_events db now rolls :
    job_step cfg db (fst (Scheduler.trigger_random_events db now rolls))
| job_check_sleep db now :
    job_step cfg db (Scheduler.check_sleep_all cfg db now).

(** The steps of the bot other than /start. *)
Inductive quiet_step (cfg : Config) : DB -> DB -> Prop :=
| quiet_feed db now message :
    quiet_step cfg db (fst (Handlers.cmd_feed cfg db now message))
| quiet_play db now message :
    quiet_step cfg db (fst (Handlers.cmd_play cfg db now message))
| quiet_gamble db message :
    quiet_step cfg db (fst (Handlers.cmd_gamble db message))
| quiet_gamble_play db now callback won :
    quiet_step cfg db (fst (Handlers.callback_gamble_play db now callback won))
| quiet_group_message db now message is_command bad caps code :
    quiet_step cfg db
      (Handlers.handle_group_message cfg db now message is_command bad caps code)
| quiet_sticker db now message :
    quiet_step cfg db (Handlers.handle_sticker db now message)
| quiet_photo db now message caption :
    quiet_step cfg db (Handlers.handle_photo db now message caption)
| quiet_tick db now :
    quiet_step cfg db (fst (Scheduler.tick_all_pets cfg db now))
| quiet_random_events db now rolls :
    quiet_step cfg db (fst (Scheduler.trigger_random_events db now rolls))
| quiet_check_sleep db now :
    quiet_step cfg db (Scheduler.check_sleep_all cfg db now).

(** What a write does to the row of a chat: nothing, or one of the
    seven row updates of crud.py. *)
Inductive row_update (cfg : Config) : (Chat -> Chat) -> Prop :=
| update_set_stats h m e hl now :
    row_update cfg (ChatCRUD.set_stats h m e hl now)
| update_set_xp amount :
    In amount (xp_amounts cfg) -> row_update cfg (ChatCRUD.set_xp amount)
| update_set_dead now : row_update cfg (ChatCRUD.set_dead now)
| update_set_stage_type s t : row_update cfg (ChatCRUD.set_stage_type s t)
| update_set_last_tick now : row_update cfg (ChatCRUD.set_last_tick now)
| update_set_sleeping b : row_update cfg (PetLogic.set_sleeping b)
| update_bump_counter name : row_update cfg (ChatCRUD.bump_counter name 1).

(** A property of pets that every write to a chat row keeps. *)
Record row_closed (cfg : Config) (Q : Chat -> Prop) : Prop := {
  closed_set_stats : forall h m e hl now c,
    Q c -> Q (ChatCRUD.set_stats h m e hl now c);
  closed_set_xp : forall amount c,
    In amount (xp_amounts cfg) -> Q c -> Q (ChatCRUD.set_xp amount c);
  closed_set_dead : forall now c, Q c -> Q (ChatCRUD.set_dead now c);
  closed_set_stage_type : forall s t c, Q c -> Q (ChatCRUD.set_stage_type s t c);
  closed_set_last_tick : forall now c, Q c -> Q (ChatCRUD.set_last_tick now c);
  closed_set_sleeping : forall b c, Q c -> Q (PetLogic.set_sleeping b c);
  closed_bump_counter : forall name c, Q c -> Q (ChatCRUD.bump_counter name 1 c)
}.

(** A relation between the earlier and the later state of a pet that
    every write to a chat row respects. *)
Record row_monotone (cfg : Config) (R : Chat -> Chat -> Prop) : Prop := {
  monotone_refl : forall c, R c c;
  monotone_trans : forall c1 c2 c3, R c1 c2 -> R c2 c3 -> R c1 c3;
  monotone_set_stats : forall h m e hl now c,
    R c (ChatCRUD.set_stats h m e hl now c);
  monotone_set_xp : forall amount c,
    In amount (xp_amounts cfg) -> R c (ChatCRUD.set_xp amount c);
  monotone_set_dead : forall now c, R c (ChatCRUD.set_dead now c);
  monotone_set_stage_type : forall s t c, R c (ChatCRUD.set_stage_type s t c);
  monotone_set_last_tick : forall now c, R c (ChatCRUD.set_last_tick now c);
  monotone_set_sleeping : forall b c, R c (PetLogic.set_sleeping b c);
  monotone_bump_counter : forall name c, R c (ChatCRUD.bump_counter name 1 c)
}.

(** The life flag agrees with the death time. *)
Definition lifecycle_ok (c : Chat) : Prop :=
  is_alive c = true <-> death_at c = None.

(** The behaviour counters are not negative. *)
Definition counters_ok (c : Chat) : Prop :=
  0 <= cursing_count c /\ 0 <= meme_count c /\
  0 <= code_count c /\ 0 <= caps_count c.

(** The level is the one the xp gives. *)
Definition level_ok (c : Chat) : Prop :=
  0 <= xp c /\ level c = xp c / 100 + 1.

(** No configured amount of xp is negative. *)
Definition xp_config_ok (cfg : Config) : Prop :=
  0 <= XP_PER_MESSAGE cfg /\ 0 <= XP_PER_FEED cfg /\ 0 <= XP_PER_GAME cfg.

(** What a pet never loses while it is not reset: its identity, its
    xp, level and behaviour counters, and, once dead, its death. *)
Definition never_loses (before after : Chat) : Prop :=
  chat_id after = chat_id before /\
  created_at after = created_at before /\
  xp before <= xp after /\ level before <= level after /\
  cursing_count before <= cursing_count after /\
  meme_count before <= meme_count after /\
  code_count before <= code_count after /\
  caps_count before <= caps_count after /\
  (is_alive before = false ->
   is_alive after = false /\ death_at after = death_at before /\
   pet_stage after = pet_stage before /\ pet_type after = pet_type before).

(** The stores [db] and [db'] have rows for the same chats, and each
    row of [db'] is related by [R] to the row of [db]. *)
Definition rows_related (R : Chat -> Chat -> Prop) (db db' : DB) : Prop :=
  forall cid, option_Forall2 R (chats db !! cid) (chats db' !! cid).

(** What a user row never loses: its identity and the counts of what
    the user did. *)
Definition user_never_loses (before after : User) : Prop :=
  user_id after = user_id before /\
  user_chat_id after = user_chat_id before /\
  first_interaction after = first_interaction before /\
  feed_count before <= feed_count after /\
  play_count before <= play_count after /\
  message_count before <= message_count after /\
  night_disturb_count before <= night_disturb_count after /\
  gamble_wins before <= gamble_wins after /\
  gamble_losses before <= gamble_losses after.

(** Noon, and the store after a /feed sent at noon to the new pet. *)
Definition noon : Z := 12 * 3600.

Definition fed_db : DB :=
  fst (Handlers.cmd_feed default_config Spec.born_db noon Spec.group_message).

Definition fed_pet : Chat :=
  ChatCRUD.set_xp 5
    (ChatCRUD.set_stats None None None None noon (new_chat 1 0)).

Definition fed_user : User :=
  UserCRUD.bump_stat "karma_points" 5
    (UserCRUD.bump_stat "feed_count" 1 (new_user 42 1 None None noon)).

(** A /start from user 43 in chat 2 after that: a store with two
    pets, the fed one of chat 1 and a newborn in chat 2. *)
Definition other_message : Handlers.Message :=
  {| Handlers.message_chat_id := 2; Handlers.chat_is_private := false;
     Handlers.from_user_id := 43; Handlers.from_username := None;
     Handlers.from_first_name := None |}.

Definition two_pets_db : DB :=
  fst (Handlers.cmd_start fed_db noon other_message).

Definition second_pet : Chat := new_chat 2 noon.

(** 03:00 of the next day. *)
Definition next_night : Z := 86400 + Spec.night.

(** Draws with which the random event fires for every pet: rain for
    chat 1, a mouldy box for every other chat. *)
Definition two_rolls (cid : Z) : Q * Events.RandomEvent * Q :=
  (0%Q,
   if cid =? 1 then Events.WeatherEvent Events.Rain
   else Events.FindBoxEvent Events.BoxMold,
   0%Q).

(** A dead teenage goblin in chat 1. *)
Definition dead_pet : Chat :=
  Spec.pet_at_stage TEEN GOBLIN 700 false (new_chat 1 0).

(** A handler called for the message (or button press) [message]. *)
Inductive handler_step (cfg : Config) (message : Handlers.Message)
    : DB -> DB -> Prop :=
| handles_feed db now :
    handler_step cfg message db (fst (Handlers.cmd_feed cfg db now message))
| handles_play db now :
    handler_step cfg message db (fst (Handlers.cmd_play cfg db now message))
| handles_gamble db :
    handler_step cfg message db (fst (Handlers.cmd_gamble db message))
| handles_gamble_play db now won :
    handler_step cfg message db
      (fst (Handlers.callback_gamble_play db now message won))
| handles_group_message db now is_command bad caps code :
    handler_step cfg message db
      (Handlers.handle_group_message cfg db now message is_command bad caps code)
| handles_sticker db now :
    handler_step cfg message db (Handlers.handle_sticker db now message)
| handles_photo db now caption :
    handler_step cfg message db (Handlers.handle_photo db now message caption).

(** [getattr(user, stat_name)] of the row of a user in a chat, 0 when
    there is no row. *)
Definition stat_of (db : DB) (key : Z * Z) (stat_name : string) : Z :=
  from_option (user_stat stat_name) 0 (users db !! key).

(** The number of entries of the type [etype] that the log holds for
    the user and chat of [key]. *)
Definition logged (db : DB) (etype : EventType) (key : Z * Z) : Z :=
  Z.of_nat
    (length
       (List.filter
          (fun e => bool_decide (event_type e = etype /\
                                 event_chat_id e = snd key /\
                                 event_user_id e = Some (fst key)))
          (events db))).

(** The statistics of every user agree with the log, and the karma is
    what the rewards of the counted actions add up to. *)
Definition ledger_ok (db : DB) : Prop :=
  forall key,
    stat_of db key "feed_count" = logged db FEED key /\
    stat_of db key "play_count" = logged db PLAY key /\
    stat_of db key "night_disturb_count" = logged db NIGHT_DISTURB key /\
    stat_of db key "gamble_wins" = logged db GAMBLE_WIN key /\
    stat_of db key "gamble_losses" = logged db GAMBLE_LOSS key /\
    stat_of db key "karma_points"
    = 5 * stat_of db key "feed_count" + 3 * stat_of db key "play_count"
      + 10 * stat_of db key "gamble_wins"
      - 5 * stat_of db key "gamble_losses".


(** The deaths and births that the log of a chat counts agree with
    the row of the chat: a pet has died once more than it has been
    reborn exactly when it is dead, and a chat without a row has
    neither deaths nor births. *)
Definition graves_ok (db : DB) : Prop :=
  forall cid,
    match chats db !! cid with
    | Some c =>
        EventCRUD.count_by_type db cid DEATH
        = EventCRUD.count_by_type db cid BIRTH
          + (if is_alive c then 0 else 1)
    | None =>
        EventCRUD.count_by_type db cid DEATH = 0 /\
        EventCRUD.count_by_type db cid BIRTH = 0
    end.

(** The store [db'] has the same pets alive and dead as [db], and
    counts the same deaths and births. *)
Definition same_graves (db db' : DB) : Prop :=
  (forall cid, is_alive <$> chats db' !! cid = is_alive <$> chats db !! cid) /\
  (forall cid,
     EventCRUD.count_by_type db' cid DEATH = EventCRUD.count_by_type db cid DEATH /\
     EventCRUD.count_by_type db' cid BIRTH = EventCRUD.count_by_type db cid BIRTH).

(** The store after /start on the pet that died asleep: the pet lives
    again. *)
Definition revived_db : DB :=
  fst (Handlers.cmd_start Spec.dead_asleep_db noon Spec.group_message).

End Notions.

(** * Properties *)

Import PetLogic System.

(** ** The night window *)

Lemma hour_of_range (now : Z) : 0 <= hour_of now <= 23.
Proof.
  unfold hour_of.
  pose proof (Z.mod_pos_bound (now / 3600) 24 ltac:(lia)). lia.
Qed.

Lemma is_night_hour_plain (s e h : Z) :
  s < e -> (is_night_hour s e h = true <-> s <= h < e).
Proof.
  intros Hlt. unfold is_night_hour.
  destruct (Z.ltb_spec s e) as [_ | Hge]; [| lia].
  rewrite andb_true_iff, Z.leb_le, Z.ltb_lt. reflexivity.
Qed.

Lemma is_night_hour_wrap (s e h : Z) :
  e <= s -> (is_night_hour s e h = true <-> (s <= h \/ h < e)).
Proof.
  intros Hle. unfold is_night_hour.
  destruct (Z.ltb_spec s e) as [Hlt | _]; [lia |].
  rewrite orb_true_iff, Z.geb_le, Z.ltb_lt. reflexivity.
Qed.

(** C8: the night-time check is the window [[nightStart, nightEnd)]
    over the hours 0..23: when [nightStart < nightEnd] an hour is night
    iff [nightStart <= h < nightEnd]; when [nightStart > nightEnd] the
    window wraps past midnight, [[nightStart, 24)] together with
    [[0, nightEnd)]; with the window 22..6 the hours 23 and 2 are night
    and the hour 12 is not. *)
Theorem is_night_time_window (cfg : Config) (now : Z) :
  let s := NIGHT_START_HOUR cfg in
  let e := NIGHT_END_HOUR cfg in
  let h := hour_of now in
  0 <= h <= 23 /\
  (s < e -> (is_night_time cfg now = true <-> s <= h < e)) /\
  (s > e -> (is_night_time cfg now = true <-> (s <= h <= 23 \/ 0 <= h < e))) /\
  is_night_hour 22 6 23 = true /\
  is_night_hour 22 6 2 = true /\
  is_night_hour 22 6 12 = false.
Proof.
  intros s e h. pose proof (hour_of_range now) as Hh.
  split; [exact Hh |]. split; [| split].
  - intros Hlt. apply is_night_hour_plain. exact Hlt.
  - intros Hgt. unfold is_night_time.
    rewrite is_night_hour_wrap by (fold s e; lia).
    fold s e h. fold h in Hh. lia.
  - repeat split; reflexivity.
Qed.

Lemma is_night_time_window_witness :
  is_night_time (Spec.config_with_night 22 6) (23 * 3600) = true /\
  is_night_time (Spec.config_with_night 0 7) (3 * 3600) = true.
Proof.
  split.
  - destruct (is_night_time_window (Spec.config_with_night 22 6) (23 * 3600))
      as (_ & _ & Hwrap & _).
    apply Hwrap; [simpl; lia | vm_compute; left; split; discriminate].
  - destruct (is_night_time_window (Spec.config_with_night 0 7) (3 * 3600))
      as (_ & Hplain & _).
    apply Hplain; [simpl; lia | vm_compute; split; [discriminate | reflexivity]].
Defined.

(** C10: when the configured night start hour equals the night end
    hour, the night-time check answers true at every hour: the pet
    sleeps around the clock, the window is not empty. *)
Theorem is_night_time_start_eq_end (cfg : Config) :
  NIGHT_START_HOUR cfg = NIGHT_END_HOUR cfg ->
  (forall h : Z,
     is_night_hour (NIGHT_START_HOUR cfg) (NIGHT_END_HOUR cfg) h = true) /\
  (forall now : Z, is_night_time cfg now = true).
Proof.
  intros Heq. split.
  - intros h. apply is_night_hour_wrap; lia.
  - intros now. unfold is_night_time. apply is_night_hour_wrap; lia.
Qed.

Lemma is_night_time_start_eq_end_witness :
  is_night_time (Spec.config_with_night 5 5) (12 * 3600) = true.
Proof.
  apply (is_night_time_start_eq_end (Spec.config_with_night 5 5)).
  reflexivity.
Defined.

(** ** The type of a pet *)

Import EvolutionSystem.

Lemma determine_pet_type_first_match (c : Chat) :
  determine_pet_type c = Spec.first_match Spec.type_rules c.
Proof.
  unfold determine_pet_type. simpl.
  repeat match goal with |- context [if ?b then _ else _] => destruct b end;
    reflexivity.
Qed.

Lemma determine_pet_type_angel (c : Chat) :
  cursing_count c = 0 ->
  cursing_count c + meme_count c + code_count c + caps_count c >= 200 ->
  determine_pet_type c = ANGEL.
Proof.
  intros Hcurse Htotal. unfold determine_pet_type.
  rewrite Hcurse in *. simpl.
  destruct (Z.geb_spec (0 + meme_count c + code_count c + caps_count c) 200);
    [reflexivity | lia].
Qed.

(** C5 (as stated, at the instance it names): the pet with cursing=0,
    meme=60, code=60, caps=0 has the total 120, below 200, and its
    type is CYBER_BOT, not ANGEL. *)
Lemma determine_pet_type_spec_instance :
  let c := Spec.pet_with_counters 0 60 60 0 in
  cursing_count c = 0 /\ meme_count c = 60 /\ code_count c = 60 /\
  caps_count c = 0 /\
  determine_pet_type c = CYBER_BOT /\ determine_pet_type c <> ANGEL.
Proof. vm_compute. repeat split; discriminate. Qed.

(** C5 (amended): [determine_pet_type] evaluates its rules in the order
    ANGEL, CYBER_BOT, MEME_CAT, TROLL, GOBLIN, NORMAL, first match
    wins; every pet with [cursing_count = 0] and a total of the four
    counters of at least 200 is an ANGEL, whatever its code and meme
    counts; so cursing=0, meme=60, code=60, caps=80 (total 200) is an
    ANGEL, while cursing=0, meme=60, code=60, caps=0 (total 120) is a
    CYBER_BOT. *)
Theorem determine_pet_type_priority :
  (forall c : Chat, determine_pet_type c = Spec.first_match Spec.type_rules c) /\
  (forall c : Chat,
     cursing_count c = 0 ->
     cursing_count c + meme_count c + code_count c + caps_count c >= 200 ->
     determine_pet_type c = ANGEL) /\
  determine_pet_type (Spec.pet_with_counters 0 60 60 80) = ANGEL /\
  determine_pet_type (Spec.pet_with_counters 0 60 60 0) = CYBER_BOT.
Proof.
  split; [exact determine_pet_type_first_match |].
  split; [exact determine_pet_type_angel |].
  split; reflexivity.
Qed.

Lemma determine_pet_type_priority_witness :
  determine_pet_type (Spec.pet_with_counters 0 100 100 0) = ANGEL.
Proof.
  apply (proj1 (proj2 determine_pet_type_priority)); vm_compute;
    [reflexivity | discriminate].
Defined.

(** ** The store: what each write does to the row it addresses *)

Section Store.

Variables (db : DB) (now cid : Z).

Lemma update_stats_lookup (h m e hl : option Z) :
  chats (ChatCRUD.update_stats db now cid h m e hl) !! cid
  = ChatCRUD.set_stats h m e hl now <$> chats db !! cid.
Proof. apply lookup_alter_eq. Qed.

Lemma update_stats_lookup_ne (h m e hl : option Z) (other : Z) :
  cid <> other ->
  chats (ChatCRUD.update_stats db now cid h m e hl) !! other = chats db !! other.
Proof. intros Hne. simpl. apply lookup_alter_ne. exact Hne. Qed.

Lemma update_stats_users (h m e hl : option Z) :
  users (ChatCRUD.update_stats db now cid h m e hl) = users db.
Proof. reflexivity. Qed.

Lemma update_stats_events (h m e hl : option Z) :
  events (ChatCRUD.update_stats db now cid h m e hl) = events db.
Proof. reflexivity. Qed.

Lemma kill_pet_lookup :
  chats (ChatCRUD.kill_pet db now cid) !! cid
  = ChatCRUD.set_dead now <$> chats db !! cid.
Proof. apply lookup_alter_eq. Qed.

Lemma revive_pet_lookup :
  chats (ChatCRUD.revive_pet db now cid) !! cid
  = ChatCRUD.set_revived now <$> chats db !! cid.
Proof. apply lookup_alter_eq. Qed.

Lemma evolve_lookup (s : PetStage) (t : PetType) :
  chats (ChatCRUD.evolve db cid s t) !! cid
  = ChatCRUD.set_stage_type s t <$> chats db !! cid.
Proof. apply lookup_alter_eq. Qed.

Lemma update_last_tick_lookup :
  chats (ChatCRUD.update_last_tick db now cid) !! cid
  = ChatCRUD.set_last_tick now <$> chats db !! cid.
Proof. apply lookup_alter_eq. Qed.

Lemma add_xp_lookup (amount : Z) :
  chats (fst (ChatCRUD.add_xp db cid amount)) !! cid
  = ChatCRUD.set_xp amount <$> chats db !! cid.
Proof.
  unfold ChatCRUD.add_xp, ChatCRUD.get.
  destruct (chats db !! cid) as [chat |] eqn:Hrow; simpl.
  - apply lookup_insert_eq.
  - exact Hrow.
Qed.

Lemma create_event_chats (etype : EventType) (uid : option Z) :
  chats (EventCRUD.create db now cid etype uid) = chats db.
Proof. reflexivity. Qed.

Lemma increment_stat_chats (uid : Z) (stat_name : string) (amount : Z) :
  chats (UserCRUD.increment_stat db now uid cid stat_name amount) = chats db.
Proof.
  unfold UserCRUD.increment_stat, UserCRUD.get_or_create.
  destruct (negb _); [reflexivity |].
  destruct (users db !! (uid, cid)); reflexivity.
Qed.

Lemma increment_stat_events (uid : Z) (stat_name : string) (amount : Z) :
  events (UserCRUD.increment_stat db now uid cid stat_name amount) = events db.
Proof.
  unfold UserCRUD.increment_stat, UserCRUD.get_or_create.
  destruct (negb _); [reflexivity |].
  destruct (users db !! (uid, cid)); reflexivity.
Qed.

End Store.

(** ** Clamping *)

Lemma clamp_in_range (v : Z) : in_range (ChatCRUD.clamp v).
Proof. unfold in_range, ChatCRUD.clamp. lia. Qed.

Lemma clamp_id (v : Z) : in_range v -> ChatCRUD.clamp v = v.
Proof. unfold in_range, ChatCRUD.clamp. lia. Qed.

Lemma set_stats_in_range (h m e hl : option Z) (now : Z) (c : Chat) :
  vitals_in_range c -> vitals_in_range (ChatCRUD.set_stats h m e hl now c).
Proof.
  intros (Hh & Hm & He & Hl). unfold vitals_in_range. simpl.
  destruct h, m, e, hl; auto using clamp_in_range.
Qed.

Lemma set_stats_keeps (h m e hl : option Z) (now : Z) (c : Chat) :
  vitals_in_range c ->
  Spec.keeps h (hunger c) -> Spec.keeps m (mood c) ->
  Spec.keeps e (energy c) -> Spec.keeps hl (health c) ->
  vitals (ChatCRUD.set_stats h m e hl now c) = vitals c.
Proof.
  intros (Hh & Hm & He & Hl) [-> | ->] [-> | ->] [-> | ->] [-> | ->];
    unfold vitals; simpl; rewrite ?clamp_id by assumption; reflexivity.
Qed.

(** Every outcome of every random event goes through [update_stats]
    (or touches no vital), so it keeps the vitals in [0,100]. *)
Lemma execute_keeps_vitals_in_range (db : DB) (now : Z) (chat : Chat)
    (ev : Events.RandomEvent) :
  chats db !! chat_id chat = Some chat ->
  vitals_in_range chat ->
  exists chat',
    chats (Events.execute db now chat ev) !! chat_id chat = Some chat' /\
    vitals_in_range chat'.
Proof.
  intros Hrow Hrange.
  destruct ev as [[] | [] | []];
    unfold Events.execute, Events.execute_box, Events.execute_visitor,
      Events.execute_weather;
    cbv zeta; rewrite create_event_chats;
    rewrite ?update_stats_lookup, ?add_xp_lookup, Hrow;
    (eexists; split; [reflexivity |]);
    try (apply set_stats_in_range; assumption).
  exact Hrange.
Qed.

(** ** The decay tick *)

Import Scheduler.

(** The penalty accumulated by [tick_stats] is the additive penalty of
    the specification. *)
Lemma tick_stats_unfold (cfg : Config) (db : DB) (now : Z) (chat : Chat) :
  is_alive chat = true ->
  let new_health := Z.max 0 (health chat - Spec.health_penalty cfg chat) in
  let db1 := ChatCRUD.update_stats db now (chat_id chat)
               (Some (Spec.decayed cfg (hunger chat)))
               (Some (Spec.decayed cfg (mood chat)))
               (Some (Spec.decayed cfg (energy chat)))
               (Some new_health) in
  tick_stats cfg db now chat =
  if new_health <=? 0 then
    (EventCRUD.create (ChatCRUD.kill_pet db1 now (chat_id chat)) now
       (chat_id chat) DEATH None, (false, true))
  else
    (ChatCRUD.update_last_tick
       (if new_health <? CRITICAL_HEALTH_THRESHOLD cfg
        then EventCRUD.create db1 now (chat_id chat) CRITICAL_HEALTH None
        else db1) now (chat_id chat),
     (true, new_health <? CRITICAL_HEALTH_THRESHOLD cfg)).
Proof.
  intros Halive. unfold tick_stats, Spec.health_penalty, Spec.decayed.
  rewrite Halive. cbv zeta. simpl negb. cbv iota.
  destruct (Z.max 0 (hunger chat - STAT_DECAY_PER_TICK cfg) <? 20),
    (Z.max 0 (mood chat - STAT_DECAY_PER_TICK cfg) <? 20),
    (Z.max 0 (energy chat - STAT_DECAY_PER_TICK cfg) <? 20);
    reflexivity.
Qed.

(** The sleep check touches the sleep flag and, on waking, the energy
    of the row; nothing else. *)
Lemma check_sleep_status_row (cfg : Config) (db : DB) (now : Z) (chat : Chat) :
  chats db !! chat_id chat = Some chat ->
  exists chat1,
    chats (check_sleep_status cfg db now chat) !! chat_id chat = Some chat1 /\
    loaded (check_sleep_status cfg db now chat) chat = chat1 /\
    chat_id chat1 = chat_id chat /\
    is_alive chat1 = is_alive chat /\
    death_at chat1 = death_at chat /\
    pet_stage chat1 = pet_stage chat /\
    pet_type chat1 = pet_type chat /\
    xp chat1 = xp chat /\
    hunger chat1 = hunger chat /\
    mood chat1 = mood chat /\
    health chat1 = health chat /\
    (is_sleeping chat = false -> energy chat1 = energy chat).
Proof.
  intros Hrow. unfold loaded, check_sleep_status.
  destruct (is_night_time cfg now), (is_sleeping chat) eqn:Hsleep; simpl;
    rewrite ?update_stats_lookup; simpl;
    rewrite ?lookup_alter_eq, Hrow; simpl;
    (eexists; split; [reflexivity |]); split_and!;
    try reflexivity; try discriminate.
Qed.

Lemma tick_pet_death (cfg : Config) (db : DB) (now : Z) (chat : Chat) :
  chats db !! chat_id chat = Some chat ->
  is_alive chat = true ->
  let chat1 := loaded (check_sleep_status cfg db now chat) chat in
  health chat1 - Spec.health_penalty cfg chat1 <= 0 ->
  still_alive (snd (tick_pet cfg db now chat)) = false /\
  evolution_check (snd (tick_pet cfg db now chat)) = None /\
  exists chat',
    chats (fst (tick_pet cfg db now chat)) !! chat_id chat = Some chat' /\
    is_alive chat' = false /\ death_at chat' = Some now /\
    health chat' = 0 /\
    pet_stage chat' = pet_stage chat /\ pet_type chat' = pet_type chat.
Proof.
  intros Hrow Halive chat1 Hdead.
  destruct (check_sleep_status_row cfg db now chat Hrow)
    as (c1 & Hrow1 & Hloaded & Hid & Halive1 & _ & Hstage & Htype & _).
  unfold tick_pet. fold chat1. subst chat1. rewrite Hloaded in *.
  rewrite tick_stats_unfold by congruence. cbv zeta.
  destruct (Z.leb_spec (Z.max 0 (health c1 - Spec.health_penalty cfg c1)) 0)
    as [_ | Hpos]; [| lia].
  simpl. split; [reflexivity |]. split; [reflexivity |].
  rewrite Hid, !lookup_alter_eq, Hrow1. simpl.
  eexists. split; [reflexivity |]. simpl. auto.
Qed.

Lemma tick_stats_alive_pet (cfg : Config) (db : DB) (now : Z) (chat : Chat) :
  chats db !! chat_id chat = Some chat ->
  is_alive chat = true ->
  vitals_in_range chat ->
  0 <= STAT_DECAY_PER_TICK cfg ->
  exists chat',
    chats (fst (tick_stats cfg db now chat)) !! chat_id chat = Some chat' /\
    hunger chat' = Z.max 0 (hunger chat - STAT_DECAY_PER_TICK cfg) /\
    mood chat' = Z.max 0 (mood chat - STAT_DECAY_PER_TICK cfg) /\
    energy chat' = Z.max 0 (energy chat - STAT_DECAY_PER_TICK cfg) /\
    health chat' = Z.max 0 (health chat - Spec.health_penalty cfg chat) /\
    (health chat - Spec.health_penalty cfg chat <= 0 ->
     is_alive chat' = false /\ death_at chat' = Some now /\
     snd (tick_stats cfg db now chat) = (false, true)) /\
    (0 < health chat - Spec.health_penalty cfg chat ->
     is_alive chat' = true /\ death_at chat' = death_at chat /\
     snd (tick_stats cfg db now chat)
     = (true, health chat - Spec.health_penalty cfg chat
              <? CRITICAL_HEALTH_THRESHOLD cfg)).
Proof.
  intros Hrow Halive (Hh & Hm & He & Hl) Hdecay.
  assert (0 <= Spec.health_penalty cfg chat) as Hpen.
  { unfold Spec.health_penalty.
    repeat match goal with |- context [if ?b then _ else _] => destruct b end;
      lia. }
  rewrite tick_stats_unfold by assumption. cbv zeta.
  unfold in_range in *.
  destruct (Z.leb_spec (Z.max 0 (health chat - Spec.health_penalty cfg chat)) 0)
    as [Hdead | Hlive].
  - cbn [fst snd]. rewrite create_event_chats, kill_pet_lookup,
      update_stats_lookup, Hrow.
    eexists. split; [reflexivity |]. cbn.
    unfold ChatCRUD.clamp, Spec.decayed. split_and!; try lia.
    intros _. auto.
  - cbn [fst snd]. rewrite update_last_tick_lookup.
    assert (chats (if Z.max 0 (health chat - Spec.health_penalty cfg chat)
                      <? CRITICAL_HEALTH_THRESHOLD cfg
                   then EventCRUD.create
                          (ChatCRUD.update_stats db now (chat_id chat)
                             (Some (Spec.decayed cfg (hunger chat)))
                             (Some (Spec.decayed cfg (mood chat)))
                             (Some (Spec.decayed cfg (energy chat)))
                             (Some (Z.max 0 (health chat
                                             - Spec.health_penalty cfg chat))))
                          now (chat_id chat) CRITICAL_HEALTH None
                   else ChatCRUD.update_stats db now (chat_id chat)
                          (Some (Spec.decayed cfg (hunger chat)))
                          (Some (Spec.decayed cfg (mood chat)))
                          (Some (Spec.decayed cfg (energy chat)))
                          (Some (Z.max 0 (health chat
                                          - Spec.health_penalty cfg chat))))
            = chats (ChatCRUD.update_stats db now (chat_id chat)
                       (Some (Spec.decayed cfg (hunger chat)))
                       (Some (Spec.decayed cfg (mood chat)))
                       (Some (Spec.decayed cfg (energy chat)))
                       (Some (Z.max 0 (health chat
                                       - Spec.health_penalty cfg chat)))))
      as ->.
    { destruct (_ <? _); reflexivity. }
    rewrite update_stats_lookup, Hrow.
    eexists. split; [reflexivity |]. cbn.
    unfold ChatCRUD.clamp, Spec.decayed. split_and!; try lia.
    intros Hpos. split; [exact Halive |]. split; [reflexivity |].
    f_equal. f_equal. lia.
Qed.

(** The row and the answer of [tick_stats] for a living pet. *)
Lemma tick_stats_row (cfg : Config) (db : DB) (now : Z) (chat : Chat) :
  chats db !! chat_id chat = Some chat ->
  is_alive chat = true ->
  let new_health := Z.max 0 (health chat - Spec.health_penalty cfg chat) in
  let written :=
    ChatCRUD.set_stats
      (Some (Spec.decayed cfg (hunger chat)))
      (Some (Spec.decayed cfg (mood chat)))
      (Some (Spec.decayed cfg (energy chat)))
      (Some new_health) now chat in
  chats (fst (tick_stats cfg db now chat)) !! chat_id chat
  = Some (if new_health <=? 0 then ChatCRUD.set_dead now written
          else ChatCRUD.set_last_tick now written) /\
  snd (tick_stats cfg db now chat)
  = (if new_health <=? 0 then (false, true)
     else (true, new_health <? CRITICAL_HEALTH_THRESHOLD cfg)).
Proof.
  intros Hrow Halive new_health written.
  rewrite tick_stats_unfold by assumption. cbv zeta. fold new_health.
  destruct (new_health <=? 0).
  - cbn [fst snd]. rewrite create_event_chats, kill_pet_lookup,
      update_stats_lookup, Hrow. split; reflexivity.
  - cbn [fst snd]. rewrite update_last_tick_lookup.
    destruct (new_health <? CRITICAL_HEALTH_THRESHOLD cfg);
      rewrite ?create_event_chats, update_stats_lookup, Hrow;
      split; reflexivity.
Qed.

(** A fresh pet through one whole iteration of the tick job, at any
    hour of the day. *)
Lemma tick_pet_fresh (db : DB) (now cid born : Z) :
  chats db !! cid = Some (new_chat cid born) ->
  exists chat',
    chats (fst (tick_pet default_config db now (new_chat cid born))) !! cid
    = Some chat' /\
    vitals chat' = (95, 95, 95, 100) /\
    is_alive chat' = true /\
    still_alive (snd (tick_pet default_config db now (new_chat cid born))) = true /\
    critical (snd (tick_pet default_config db now (new_chat cid born))) = false.
Proof.
  intros Hrow.
  destruct (check_sleep_status_row default_config db now (new_chat cid born) Hrow)
    as (c1 & Hrow1 & Hloaded & Hid & Halive1 & _ & Hstage & _ & Hxp
        & Hhunger & Hmood & Hhealth & Henergy).
  specialize (Henergy eq_refl).
  change (chat_id c1 = cid) in Hid.
  change (chats (check_sleep_status default_config db now (new_chat cid born))
          !! cid = Some c1) in Hrow1.
  cbn [new_chat is_alive pet_stage xp hunger mood health energy]
    in Halive1, Hstage, Hxp, Hhunger, Hmood, Hhealth, Henergy.
  assert (chats (check_sleep_status default_config db now (new_chat cid born))
          !! chat_id c1 = Some c1) as Hrow1'
    by (rewrite Hid; exact Hrow1).
  destruct (tick_stats_row default_config _ now c1 Hrow1' Halive1)
    as [Hrow2 Hans].
  assert (Spec.health_penalty default_config c1 = 0) as Hpen.
  { unfold Spec.health_penalty. rewrite Hhunger, Hmood, Henergy. reflexivity. }
  rewrite Hpen, Hhealth in Hrow2, Hans.
  rewrite Hhunger, Hmood, Henergy in Hrow2.
  change (Z.max 0 (100 - 0)) with 100 in Hrow2, Hans.
  change (100 <=? 0) with false in Hrow2, Hans.
  change (100 <? CRITICAL_HEALTH_THRESHOLD default_config) with false in Hans.
  change (Spec.decayed default_config 100) with 95 in Hrow2.
  cbv iota in Hrow2, Hans.
  unfold tick_pet. rewrite Hloaded.
  destruct (tick_stats default_config (check_sleep_status default_config db now
                                         (new_chat cid born)) now c1)
    as [db2 [alive is_critical]].
  cbn [fst snd] in Hrow2, Hans. injection Hans as -> ->.
  unfold loaded. rewrite Hrow2. cbn [default from_option id].
  unfold check_and_evolve. cbn [is_alive ChatCRUD.set_last_tick
    ChatCRUD.set_stats pet_stage xp negb].
  rewrite Halive1, Hstage, Hxp.
  change (get_next_stage EGG) with (Some BABY).
  change (0 <? STAGE_THRESHOLDS BABY) with true. cbn.
  rewrite <- Hid, Hrow2. eexists. split; [reflexivity |].
  cbn. auto.
Qed.

Lemma tick_stats_fresh (db : DB) (now cid born : Z) :
  chats db !! cid = Some (new_chat cid born) ->
  exists chat',
    chats (fst (tick_stats default_config db now (new_chat cid born))) !! cid
    = Some chat' /\
    vitals chat' = (95, 95, 95, 100) /\
    is_alive chat' = true /\
    snd (tick_stats default_config db now (new_chat cid born)) = (true, false).
Proof.
  intros Hrow.
  destruct (tick_stats_row default_config db now (new_chat cid born) Hrow eq_refl)
    as [Hrow' Hans].
  rewrite Hans. eexists. split; [exact Hrow' |].
  split_and!; reflexivity.
Qed.

(** C4: one decay tick on a living pet subtracts the configured decay
    (5 by default) from hunger, mood and energy, each clamped at 0, and
    subtracts from health the additive penalty of 10 if the new hunger
    is below 20, 5 if the new mood is below 20 and 5 if the new energy
    is below 20; when the resulting health is at most 0 the pet is
    marked dead (health 0, death time stamped) and the scheduler runs no
    evolution check for it in that pass; a freshly created pet ends one
    tick (and one whole scheduler iteration) at 95/95/95/100, alive and
    not critical. *)
Theorem tick_stats_decay :
  STAT_DECAY_PER_TICK default_config = 5 /\
  (forall (cfg : Config) (db : DB) (now : Z) (chat : Chat),
     chats db !! chat_id chat = Some chat ->
     is_alive chat = true ->
     vitals_in_range chat ->
     0 <= STAT_DECAY_PER_TICK cfg ->
     exists chat',
       chats (fst (tick_stats cfg db now chat)) !! chat_id chat = Some chat' /\
       hunger chat' = Z.max 0 (hunger chat - STAT_DECAY_PER_TICK cfg) /\
       mood chat' = Z.max 0 (mood chat - STAT_DECAY_PER_TICK cfg) /\
       energy chat' = Z.max 0 (energy chat - STAT_DECAY_PER_TICK cfg) /\
       health chat' = Z.max 0 (health chat - Spec.health_penalty cfg chat) /\
       (health chat - Spec.health_penalty cfg chat <= 0 ->
        is_alive chat' = false /\ death_at chat' = Some now /\
        snd (tick_stats cfg db now chat) = (false, true)) /\
       (0 < health chat - Spec.health_penalty cfg chat ->
        is_alive chat' = true /\ death_at chat' = death_at chat /\
        snd (tick_stats cfg db now chat)
        = (true, health chat - Spec.health_penalty cfg chat
                 <? CRITICAL_HEALTH_THRESHOLD cfg))) /\
  (forall (cfg : Config) (db : DB) (now : Z) (chat : Chat),
     chats db !! chat_id chat = Some chat ->
     is_alive chat = true ->
     let chat1 := loaded (check_sleep_status cfg db now chat) chat in
     health chat1 - Spec.health_penalty cfg chat1 <= 0 ->
     still_alive (snd (tick_pet cfg db now chat)) = false /\
     evolution_check (snd (tick_pet cfg db now chat)) = None /\
     exists chat',
       chats (fst (tick_pet cfg db now chat)) !! chat_id chat = Some chat' /\
       is_alive chat' = false /\ death_at chat' = Some now /\
       health chat' = 0 /\
       pet_stage chat' = pet_stage chat /\ pet_type chat' = pet_type chat) /\
  (forall (db : DB) (now cid born : Z),
     chats db !! cid = Some (new_chat cid born) ->
     exists chat',
       chats (fst (tick_stats default_config db now (new_chat cid born))) !! cid
       = Some chat' /\
       vitals chat' = (95, 95, 95, 100) /\
       is_alive chat' = true /\
       snd (tick_stats default_config db now (new_chat cid born))
       = (true, false)) /\
  (forall (db : DB) (now cid born : Z),
     chats db !! cid = Some (new_chat cid born) ->
     exists chat',
       chats (fst (tick_pet default_config db now (new_chat cid born))) !! cid
       = Some chat' /\
       vitals chat' = (95, 95, 95, 100) /\
       is_alive chat' = true /\
       still_alive (snd (tick_pet default_config db now (new_chat cid born)))
       = true /\
       critical (snd (tick_pet default_config db now (new_chat cid born)))
       = false).
Proof.
  split; [reflexivity |].
  split; [exact tick_stats_alive_pet |].
  split; [exact tick_pet_death |].
  split; [exact tick_stats_fresh | exact tick_pet_fresh].
Qed.

Lemma tick_stats_decay_witness :
  (exists chat',
     chats (fst (tick_stats default_config
                   (Spec.store_of (Spec.pet_with_vitals 15 50 50 5 false)) 7
                   (Spec.pet_with_vitals 15 50 50 5 false))) !! 1 = Some chat' /\
     vitals chat' = (10, 45, 45, 0) /\ is_alive chat' = false) /\
  (exists chat',
     chats (fst (tick_pet default_config
                   (Spec.store_of (Spec.pet_with_vitals 15 50 50 5 false)) 7
                   (Spec.pet_with_vitals 15 50 50 5 false))) !! 1 = Some chat' /\
     is_alive chat' = false) /\
  (exists chat',
     chats (fst (tick_stats default_config (Spec.store_of (new_chat 1 0)) 7
                   (new_chat 1 0))) !! 1 = Some chat' /\
     vitals chat' = (95, 95, 95, 100)).
Proof.
  destruct tick_stats_decay as (_ & Htick & Hpass & Hfresh & _).
  split; [| split].
  - destruct (Htick default_config
                (Spec.store_of (Spec.pet_with_vitals 15 50 50 5 false)) 7
                (Spec.pet_with_vitals 15 50 50 5 false))
      as (chat' & Hrow & Hh & Hm & He & Hl & Hdead & _).
    + vm_compute. reflexivity.
    + reflexivity.
    + unfold vitals_in_range, in_range. simpl. lia.
    + simpl. lia.
    + exists chat'. split; [exact Hrow |]. split.
      * unfold vitals. rewrite Hh, Hm, He, Hl. vm_compute. reflexivity.
      * apply Hdead. vm_compute. discriminate.
  - destruct (Hpass default_config
                (Spec.store_of (Spec.pet_with_vitals 15 50 50 5 false)) 7
                (Spec.pet_with_vitals 15 50 50 5 false))
      as (_ & _ & chat' & Hrow & Hdead & _).
    + vm_compute. reflexivity.
    + reflexivity.
    + vm_compute. discriminate.
    + exists chat'. split; [exact Hrow | exact Hdead].
  - destruct (Hfresh (Spec.store_of (new_chat 1 0)) 7 1 0)
      as (chat' & Hrow & Hvitals & _).
    + vm_compute. reflexivity.
    + exists chat'. split; [exact Hrow | exact Hvitals].
Defined.

(** ** Evolution *)

Lemma get_next_stage_table :
  get_next_stage EGG = Some BABY /\
  get_next_stage BABY = Some TEEN /\
  get_next_stage TEEN = Some ADULT /\
  get_next_stage ADULT = Some ANCIENT /\
  get_next_stage ANCIENT = None.
Proof. repeat split; reflexivity. Qed.

Lemma check_and_evolve_dead (db : DB) (now : Z) (chat : Chat) :
  is_alive chat = false ->
  check_and_evolve db now chat = (db, (false, None, None)).
Proof. intros Hdead. unfold check_and_evolve. rewrite Hdead. reflexivity. Qed.

Lemma check_and_evolve_ancient (db : DB) (now : Z) (chat : Chat) :
  pet_stage chat = ANCIENT ->
  check_and_evolve db now chat = (db, (false, None, None)).
Proof.
  intros Hstage. unfold check_and_evolve. rewrite Hstage.
  change (get_next_stage ANCIENT) with (@None PetStage).
  destruct (negb (is_alive chat)); reflexivity.
Qed.

Lemma check_and_evolve_below (db : DB) (now : Z) (chat : Chat)
    (next_stage : PetStage) :
  get_next_stage (pet_stage chat) = Some next_stage ->
  xp chat < STAGE_THRESHOLDS next_stage ->
  check_and_evolve db now chat = (db, (false, None, None)).
Proof.
  intros Hnext Hxp. unfold check_and_evolve. rewrite Hnext.
  destruct (negb (is_alive chat)); [reflexivity |].
  destruct (Z.ltb_spec (xp chat) (STAGE_THRESHOLDS next_stage));
    [reflexivity | lia].
Qed.

Lemma check_and_evolve_fires (db : DB) (now : Z) (chat : Chat)
    (next_stage : PetStage) :
  chats db !! chat_id chat = Some chat ->
  is_alive chat = true ->
  get_next_stage (pet_stage chat) = Some next_stage ->
  STAGE_THRESHOLDS next_stage <= xp chat ->
  exists chat',
    chats (fst (check_and_evolve db now chat)) !! chat_id chat = Some chat' /\
    snd (check_and_evolve db now chat)
    = (true, Some next_stage, Some (pet_type chat')) /\
    pet_stage chat' = next_stage /\
    (next_stage = TEEN -> pet_type chat' = determine_pet_type chat) /\
    (next_stage <> TEEN -> pet_type chat' = pet_type chat) /\
    vitals chat' = vitals chat /\ xp chat' = xp chat /\
    is_alive chat' = true.
Proof.
  intros Hrow Halive Hnext Hxp. unfold check_and_evolve.
  rewrite Halive, Hnext. cbn [negb].
  destruct (Z.ltb_spec (xp chat) (STAGE_THRESHOLDS next_stage)); [lia |].
  cbn [fst snd]. rewrite create_event_chats, evolve_lookup, Hrow.
  eexists. split; [reflexivity |]. cbn.
  split_and!; try reflexivity; try assumption.
  - intros ->. reflexivity.
  - intros Hne. destruct (decide (next_stage = TEEN)); [contradiction | reflexivity].
Qed.

(** C6: [check_and_evolve] answers (false, none, none) and leaves the
    store as it was when the pet is dead, when its stage is ANCIENT,
    or when its xp is below the threshold of the next stage (BABY 100,
    TEEN 500, ADULT 1500, ANCIENT 5000), also when it is exactly one
    below; from xp equal to the threshold on it advances the living
    pet by exactly one stage, the type being computed by
    [determine_pet_type] when the new stage is TEEN and left unchanged
    at every other transition (ADULT and ANCIENT among them). *)
Theorem check_and_evolve_thresholds :
  (STAGE_THRESHOLDS BABY = 100 /\ STAGE_THRESHOLDS TEEN = 500 /\
   STAGE_THRESHOLDS ADULT = 1500 /\ STAGE_THRESHOLDS ANCIENT = 5000) /\
  (get_next_stage EGG = Some BABY /\ get_next_stage BABY = Some TEEN /\
   get_next_stage TEEN = Some ADULT /\ get_next_stage ADULT = Some ANCIENT /\
   get_next_stage ANCIENT = None) /\
  (forall (db : DB) (now : Z) (chat : Chat),
     is_alive chat = false ->
     check_and_evolve db now chat = (db, (false, None, None))) /\
  (forall (db : DB) (now : Z) (chat : Chat),
     pet_stage chat = ANCIENT ->
     check_and_evolve db now chat = (db, (false, None, None))) /\
  (forall (db : DB) (now : Z) (chat : Chat) (next_stage : PetStage),
     get_next_stage (pet_stage chat) = Some next_stage ->
     xp chat < STAGE_THRESHOLDS next_stage ->
     check_and_evolve db now chat = (db, (false, None, None))) /\
  (forall (db : DB) (now : Z) (chat : Chat) (next_stage : PetStage),
     get_next_stage (pet_stage chat) = Some next_stage ->
     xp chat = STAGE_THRESHOLDS next_stage - 1 ->
     check_and_evolve db now chat = (db, (false, None, None))) /\
  (forall (db : DB) (now : Z) (chat : Chat) (next_stage : PetStage),
     chats db !! chat_id chat = Some chat ->
     is_alive chat = true ->
     get_next_stage (pet_stage chat) = Some next_stage ->
     STAGE_THRESHOLDS next_stage <= xp chat ->
     exists chat',
       chats (fst (check_and_evolve db now chat)) !! chat_id chat = Some chat' /\
       snd (check_and_evolve db now chat)
       = (true, Some next_stage, Some (pet_type chat')) /\
       pet_stage chat' = next_stage /\
       (next_stage = TEEN -> pet_type chat' = determine_pet_type chat) /\
       (next_stage <> TEEN -> pet_type chat' = pet_type chat) /\
       vitals chat' = vitals chat /\ xp chat' = xp chat /\
       is_alive chat' = true).
Proof.
  split; [repeat split; reflexivity |].
  split; [exact get_next_stage_table |].
  split; [exact check_and_evolve_dead |].
  split; [exact check_and_evolve_ancient |].
  split; [exact check_and_evolve_below |].
  split; [| exact check_and_evolve_fires].
  intros db now chat next_stage Hnext Hxp.
  apply check_and_evolve_below with next_stage; [exact Hnext | lia].
Qed.

Lemma check_and_evolve_thresholds_witness :
  let baby := Spec.pet_at_stage BABY NORMAL 500 true
                (Spec.pet_with_counters 0 0 60 0) in
  let teen := Spec.pet_at_stage TEEN GOBLIN 1500 true
                (Spec.pet_with_counters 0 0 60 0) in
  let late := Spec.pet_at_stage BABY NORMAL 499 true (new_chat 1 0) in
  let dead := Spec.pet_at_stage BABY NORMAL 500 false (new_chat 1 0) in
  let old := Spec.pet_at_stage ANCIENT TROLL 9000 true (new_chat 1 0) in
  let egg := Spec.pet_at_stage EGG NORMAL 50 true (new_chat 1 0) in
  check_and_evolve (Spec.store_of egg) 7 egg
  = (Spec.store_of egg, (false, None, None)) /\
  check_and_evolve (Spec.store_of dead) 7 dead
  = (Spec.store_of dead, (false, None, None)) /\
  check_and_evolve (Spec.store_of old) 7 old
  = (Spec.store_of old, (false, None, None)) /\
  check_and_evolve (Spec.store_of late) 7 late
  = (Spec.store_of late, (false, None, None)) /\
  snd (check_and_evolve (Spec.store_of baby) 7 baby)
  = (true, Some TEEN, Some CYBER_BOT) /\
  snd (check_and_evolve (Spec.store_of teen) 7 teen)
  = (true, Some ADULT, Some GOBLIN).
Proof.
  intros baby teen late dead old egg.
  destruct check_and_evolve_thresholds
    as (_ & _ & Hdead & Hold & Hbelow & Hone & Hfire).
  split_and!.
  - apply (Hbelow _ _ egg BABY); reflexivity.
  - apply Hdead. reflexivity.
  - apply Hold. reflexivity.
  - apply (Hone _ _ late TEEN); reflexivity.
  - destruct (Hfire (Spec.store_of baby) 7 baby TEEN)
      as (chat' & _ & Hans & _ & Hteen & _).
    + vm_compute. reflexivity.
    + reflexivity.
    + reflexivity.
    + vm_compute. discriminate.
    + rewrite Hans, (Hteen eq_refl). reflexivity.
  - destruct (Hfire (Spec.store_of teen) 7 teen ADULT)
      as (chat' & _ & Hans & _ & _ & Hkeep & _).
    + vm_compute. reflexivity.
    + reflexivity.
    + reflexivity.
    + vm_compute. discriminate.
    + rewrite Hans, Hkeep by discriminate. reflexivity.
Defined.

(** ** Dead pets and revival *)

Import Handlers.

Lemma feed_dead (cfg : Config) (db : DB) (now : Z) (chat : Chat) (uid : Z) :
  is_alive chat = false ->
  feed cfg db now chat uid = (db, Failed PetIsDead).
Proof. intros Hdead. unfold feed. rewrite Hdead. reflexivity. Qed.

Lemma play_dead (cfg : Config) (db : DB) (now : Z) (chat : Chat) (uid : Z) :
  is_alive chat = false ->
  play cfg db now chat uid = (db, Failed PetIsDead).
Proof. intros Hdead. unfold play. rewrite Hdead. reflexivity. Qed.

Lemma cmd_gamble_dead (db : DB) (message : Message) (chat : Chat) :
  chat_is_private message = false ->
  chats db !! message_chat_id message = Some chat ->
  is_alive chat = false ->
  cmd_gamble db message = (db, PetDead).
Proof.
  intros Hgroup Hrow Hdead. unfold cmd_gamble, ChatCRUD.get.
  rewrite Hgroup, Hrow, Hdead. reflexivity.
Qed.

Lemma callback_gamble_play_dead (db : DB) (now : Z) (callback : Message)
    (won : bool) (chat : Chat) :
  chats db !! message_chat_id callback = Some chat ->
  is_alive chat = false ->
  callback_gamble_play db now callback won = (db, PetDead).
Proof.
  intros Hrow Hdead. unfold callback_gamble_play, ChatCRUD.get.
  rewrite Hrow, Hdead. reflexivity.
Qed.

(** The birth defaults of the specification. *)
Lemma set_revived_defaults (now : Z) (c : Chat) :
  let c' := ChatCRUD.set_revived now c in
  vitals c' = (100, 100, 100, 100) /\ xp c' = 0 /\ level c' = 1 /\
  pet_stage c' = EGG /\ pet_type c' = NORMAL /\
  cursing_count c' = 0 /\ meme_count c' = 0 /\
  code_count c' = 0 /\ caps_count c' = 0 /\
  is_alive c' = true /\ death_at c' = None.
Proof. repeat split; reflexivity. Qed.

Lemma cmd_start_revives (db : DB) (now : Z) (message : Message) (chat : Chat) :
  chat_is_private message = false ->
  chats db !! message_chat_id message = Some chat ->
  is_alive chat = false ->
  snd (cmd_start db now message) = PetBorn /\
  chats (fst (cmd_start db now message)) !! message_chat_id message
  = Some (ChatCRUD.set_revived now chat).
Proof.
  intros Hgroup Hrow Hdead. unfold cmd_start, ChatCRUD.get_or_create.
  rewrite Hgroup, Hrow, Hdead. cbn [negb fst snd].
  rewrite create_event_chats, revive_pet_lookup, Hrow. split; reflexivity.
Qed.

(** What holds for every dead pet: [feed] and [play] return the
    failure "pet is dead" and gamble answers "pet is dead" (both the
    command and the button), as values of the result type and without
    touching the store; /feed and /play relay that failure for a dead
    pet that is not flagged asleep; revival ([revive_pet], reached by
    /start on a dead pet) resets the pet to its birth defaults: vitals
    100, xp 0, level 1, stage EGG, type NORMAL, all behaviour counters
    0, alive, death time cleared.  The dead pet that is still flagged
    asleep is the subject of [dead_asleep_pet_feed_play] below. *)
Lemma dead_pet_fails_until_revival :
  (forall (cfg : Config) (db : DB) (now : Z) (chat : Chat) (uid : Z),
     is_alive chat = false ->
     feed cfg db now chat uid = (db, Failed PetIsDead) /\
     play cfg db now chat uid = (db, Failed PetIsDead)) /\
  (forall (cfg : Config) (db : DB) (now : Z) (message : Message) (chat : Chat),
     chat_is_private message = false ->
     chats db !! message_chat_id message = Some chat ->
     is_alive chat = false ->
     is_sleeping chat = false ->
     cmd_feed cfg db now message = (db, ActionReply (Failed PetIsDead)) /\
     cmd_play cfg db now message = (db, ActionReply (Failed PetIsDead))) /\
  (forall (db : DB) (now : Z) (message : Message) (won : bool) (chat : Chat),
     chat_is_private message = false ->
     chats db !! message_chat_id message = Some chat ->
     is_alive chat = false ->
     cmd_gamble db message = (db, PetDead) /\
     callback_gamble_play db now message won = (db, PetDead)) /\
  (forall (db : DB) (now cid : Z) (chat : Chat),
     chats db !! cid = Some chat ->
     exists chat',
       chats (ChatCRUD.revive_pet db now cid) !! cid = Some chat' /\
       vitals chat' = (100, 100, 100, 100) /\ xp chat' = 0 /\ level chat' = 1 /\
       pet_stage chat' = EGG /\ pet_type chat' = NORMAL /\
       cursing_count chat' = 0 /\ meme_count chat' = 0 /\
       code_count chat' = 0 /\ caps_count chat' = 0 /\
       is_alive chat' = true /\ death_at chat' = None) /\
  (forall (db : DB) (now : Z) (message : Message) (chat : Chat),
     chat_is_private message = false ->
     chats db !! message_chat_id message = Some chat ->
     is_alive chat = false ->
     snd (cmd_start db now message) = PetBorn /\
     chats (fst (cmd_start db now message)) !! message_chat_id message
     = Some (ChatCRUD.set_revived now chat)).
Proof.
  split_and!.
  - intros cfg db now chat uid Hdead.
    split; [apply feed_dead | apply play_dead]; exact Hdead.
  - intros cfg db now message chat Hgroup Hrow Hdead Hawake.
    unfold cmd_feed, cmd_play, ChatCRUD.get, check_night_disturbance.
    rewrite Hgroup, Hrow, Hawake, feed_dead, play_dead by exact Hdead.
    split; reflexivity.
  - intros db now message won chat Hgroup Hrow Hdead. split.
    + apply cmd_gamble_dead with chat; assumption.
    + apply callback_gamble_play_dead with chat; assumption.
  - intros db now cid chat Hrow.
    exists (ChatCRUD.set_revived now chat).
    split; [rewrite revive_pet_lookup, Hrow; reflexivity |].
    apply set_revived_defaults.
  - exact cmd_start_revives.
Qed.

Lemma dead_pet_fails_until_revival_witness :
  let dead := Spec.pet_at_stage TEEN GOBLIN 700 false
                (Spec.pet_with_vitals 40 30 20 0 true) in
  let message := Spec.group_message in
  let awake := set_sleeping false dead in
  feed default_config (Spec.store_of dead) 7 dead 42
  = (Spec.store_of dead, Failed PetIsDead) /\
  play default_config (Spec.store_of dead) 7 dead 42
  = (Spec.store_of dead, Failed PetIsDead) /\
  cmd_feed default_config (Spec.store_of awake) 7 Spec.group_message
  = (Spec.store_of awake, ActionReply (Failed PetIsDead)) /\
  cmd_play default_config (Spec.store_of awake) 7 Spec.group_message
  = (Spec.store_of awake, ActionReply (Failed PetIsDead)) /\
  cmd_gamble (Spec.store_of dead) message = (Spec.store_of dead, PetDead) /\
  callback_gamble_play (Spec.store_of dead) 7 message true
  = (Spec.store_of dead, PetDead) /\
  (exists chat',
     chats (ChatCRUD.revive_pet (Spec.store_of dead) 9 1) !! 1 = Some chat' /\
     vitals chat' = (100, 100, 100, 100) /\ pet_stage chat' = EGG) /\
  snd (cmd_start (Spec.store_of dead) 9 message) = PetBorn.
Proof.
  intros dead message awake.
  destruct dead_pet_fails_until_revival
    as (Hact & Hcmd & Hgamble & Hrevive & Hstart).
  destruct (Hact default_config (Spec.store_of dead) 7 dead 42 eq_refl)
    as [Hfeed Hplay].
  destruct (Hcmd default_config (Spec.store_of awake) 7 message awake)
    as [Hcmd_feed Hcmd_play];
    [reflexivity | vm_compute; reflexivity | reflexivity | reflexivity |].
  destruct (Hgamble (Spec.store_of dead) 7 message true dead)
    as [Hoffer Hbutton]; [reflexivity | vm_compute; reflexivity | reflexivity |].
  destruct (Hrevive (Spec.store_of dead) 9 1 dead)
    as (chat' & Hrow & Hvitals & _ & _ & Hstage & _);
    [vm_compute; reflexivity |].
  destruct (Hstart (Spec.store_of dead) 9 message dead)
    as [Hborn _]; [reflexivity | vm_compute; reflexivity | reflexivity |].
  split_and!; try assumption.
  exists chat'. auto.
Defined.

(** ** Night disturbance *)

(** The previous value of a user's disturb counter (0 for a user the
    chat has not seen yet). *)
Lemma increment_stat_night_disturb (db : DB) (now uid cid : Z) :
  exists user',
    users (UserCRUD.increment_stat db now uid cid "night_disturb_count" 1)
    !! (uid, cid) = Some user' /\
    night_disturb_count user'
    = from_option night_disturb_count 0 (users db !! (uid, cid)) + 1.
Proof.
  unfold UserCRUD.increment_stat.
  change (negb (existsb (String.eqb "night_disturb_count") UserCRUD.valid_stats))
    with false. cbv iota.
  unfold UserCRUD.get_or_create.
  destruct (users db !! (uid, cid)) as [user |]; cbn;
    rewrite lookup_insert_eq; eexists; (split; [reflexivity |]); reflexivity.
Qed.

(** What [disturb_at_night] does to a sleeping pet: the row keeps its
    life flag and death time whatever the new health is. *)
Lemma disturb_at_night_sleeping (db : DB) (now : Z) (chat : Chat) (uid : Z) :
  chats db !! chat_id chat = Some chat ->
  is_sleeping chat = true ->
  let new_health := Z.max 0 (health chat - 15) in
  let new_mood := Z.max 0 (mood chat - 20) in
  let written :=
    ChatCRUD.set_stats None (Some new_mood) None (Some new_health) now chat in
  snd (disturb_at_night db now chat uid) = Disturbed new_health /\
  chats (fst (disturb_at_night db now chat uid)) !! chat_id chat = Some written /\
  users (fst (disturb_at_night db now chat uid)) = users db /\
  events (fst (disturb_at_night db now chat uid))
  = {| event_chat_id := chat_id chat; event_type := NIGHT_DISTURB;
       event_user_id := Some uid; event_created_at := now |} :: events db.
Proof.
  intros Hrow Hsleep. unfold disturb_at_night. rewrite Hsleep. cbn.
  rewrite lookup_alter_eq, Hrow. repeat split; reflexivity.
Qed.

(** The check shared by [cmd_feed] and [cmd_play] on a sleeping pet. *)
Lemma check_night_disturbance_sleeping (db : DB) (now : Z) (chat : Chat)
    (message : Message) :
  chats db !! chat_id chat = Some chat ->
  chat_id chat = message_chat_id message ->
  is_sleeping chat = true ->
  let new_health := Z.max 0 (health chat - 15) in
  let new_mood := Z.max 0 (mood chat - 20) in
  let r := check_night_disturbance db now chat message in
  snd r = Some (WokenUp new_health) /\
  chats (fst r) !! chat_id chat
  = Some (ChatCRUD.set_stats None (Some new_mood) None (Some new_health)
            now chat) /\
  events (fst r)
  = {| event_chat_id := chat_id chat; event_type := NIGHT_DISTURB;
       event_user_id := Some (from_user_id message);
       event_created_at := now |} :: events db /\
  exists user',
    users (fst r) !! (from_user_id message, message_chat_id message)
    = Some user' /\
    night_disturb_count user'
    = from_option night_disturb_count 0
        (users db !! (from_user_id message, message_chat_id message)) + 1.
Proof.
  intros Hrow Hid Hsleep new_health new_mood r. subst r.
  destruct (disturb_at_night_sleeping db now chat (from_user_id message)
              Hrow Hsleep) as (Hans & Hrow' & Husers & Hevents).
  unfold check_night_disturbance. rewrite Hsleep.
  destruct (disturb_at_night db now chat (from_user_id message))
    as [db1 result]. cbn [fst snd] in *. subst result. cbn [fst snd].
  rewrite increment_stat_chats, increment_stat_events.
  split; [reflexivity |]. split; [exact Hrow' |]. split; [exact Hevents |].
  rewrite <- Husers. apply increment_stat_night_disturb.
Qed.

(** On a sleeping pet, /feed and /play are the disturbance and
    nothing else: the reply is the wake-up notice, health drops by 15
    and mood by 20 (clamped at 0), hunger, energy and xp stay, one
    NIGHT_DISTURB event is logged and the actor's disturb counter grows
    by one. *)
Lemma cmd_feed_play_sleeping (cfg : Config) (db : DB) (now : Z)
    (message : Message) (chat : Chat) :
  chat_is_private message = false ->
  chats db !! message_chat_id message = Some chat ->
  chat_id chat = message_chat_id message ->
  is_sleeping chat = true ->
  vitals_in_range chat ->
  cmd_play cfg db now message = cmd_feed cfg db now message /\
  snd (cmd_feed cfg db now message) = WokenUp (Z.max 0 (health chat - 15)) /\
  (exists chat',
     chats (fst (cmd_feed cfg db now message)) !! message_chat_id message
     = Some chat' /\
     health chat' = Z.max 0 (health chat - 15) /\
     mood chat' = Z.max 0 (mood chat - 20) /\
     hunger chat' = hunger chat /\ energy chat' = energy chat /\
     xp chat' = xp chat /\
     is_alive chat' = is_alive chat /\ death_at chat' = death_at chat) /\
  events (fst (cmd_feed cfg db now message))
  = {| event_chat_id := message_chat_id message; event_type := NIGHT_DISTURB;
       event_user_id := Some (from_user_id message);
       event_created_at := now |} :: events db /\
  exists user',
    users (fst (cmd_feed cfg db now message))
    !! (from_user_id message, message_chat_id message) = Some user' /\
    night_disturb_count user'
    = from_option night_disturb_count 0
        (users db !! (from_user_id message, message_chat_id message)) + 1.
Proof.
  intros Hgroup Hrow Hid Hsleep (Hh & Hm & He & Hl).
  rewrite <- Hid in Hrow.
  destruct (check_night_disturbance_sleeping db now chat message
              Hrow Hid Hsleep) as (Hans & Hrow' & Hevents & Huser).
  rewrite Hid in Hrow, Hrow', Hevents.
  unfold cmd_play, cmd_feed, ChatCRUD.get. rewrite Hgroup, Hrow.
  destruct (check_night_disturbance db now chat message) as [db1 reply].
  cbn [fst snd] in *. subst reply. cbn [fst snd].
  split; [reflexivity |]. split; [reflexivity |].
  split; [| split; [exact Hevents | exact Huser]].
  eexists. split; [exact Hrow' |]. cbn.
  unfold in_range, ChatCRUD.clamp in *. split_and!; try reflexivity; lia.
Qed.

Lemma born_db_reachable : reachable default_config Spec.born_db.
Proof. eapply rtc_l; [apply step_start | apply rtc_refl]. Qed.

Lemma asleep_db_reachable : reachable default_config Spec.asleep_db.
Proof.
  eapply rtc_r; [exact born_db_reachable | apply step_check_sleep].
Qed.

Lemma disturbed_db_reachable (n : nat) :
  reachable default_config (Spec.disturbed_db n).
Proof.
  induction n as [| n IH]; [exact asleep_db_reachable |].
  eapply rtc_r; [exact IH |]. apply step_feed.
Qed.

(** C1 (the code where health reaches 0 by disturbance): the pet of
    a new chat is put to sleep and woken six times by /feed; it is then
    alive and asleep at health 10, and the seventh /feed leaves it at
    health [max(0, 10 - 15) = 0] with the row still alive and no death
    time.  The same happens at the health 8 of the claim, through
    [disturb_at_night] itself and through the whole handler.  The decay
    tick, by contrast, does mark the pet dead when health reaches 0. *)
Theorem disturb_at_night_health_0 :
  let before := chats (Spec.disturbed_db 6) !! 1 in
  let after := chats (Spec.disturbed_db 7) !! 1 in
  let pet := Spec.pet_with_vitals 100 100 100 8 true in
  let disturbed_db := fst (disturb_at_night (Spec.store_of pet) 7 pet 42) in
  let fed_db :=
    fst (cmd_feed default_config (Spec.store_of pet) 7 Spec.group_message) in
  let starving := Spec.pet_with_vitals 15 50 50 5 false in
  let ticked_db :=
    fst (tick_stats default_config (Spec.store_of starving) 7 starving) in
  (health <$> before = Some 10 /\ is_alive <$> before = Some true /\
   is_sleeping <$> before = Some true) /\
  (health <$> after = Some 0 /\ is_alive <$> after = Some true /\
   death_at <$> after = Some None) /\
  (is_alive pet = true /\ is_sleeping pet = true /\ health pet = 8) /\
  (health <$> chats disturbed_db !! 1 = Some 0 /\
   is_alive <$> chats disturbed_db !! 1 = Some true /\
   death_at <$> chats disturbed_db !! 1 = Some None) /\
  (health <$> chats fed_db !! 1 = Some 0 /\
   is_alive <$> chats fed_db !! 1 = Some true /\
   death_at <$> chats fed_db !! 1 = Some None) /\
  (health <$> chats ticked_db !! 1 = Some 0 /\
   is_alive <$> chats ticked_db !! 1 = Some false /\
   death_at <$> chats ticked_db !! 1 = Some (Some 7)).
Proof. vm_compute. repeat split; reflexivity. Qed.

(** For every sleeping pet the disturbance sets health to
    [max(0, health - 15)] and leaves the life flag and the death time
    of the row as they were. *)
Lemma disturb_at_night_keeps_alive (db : DB) (now : Z) (chat : Chat) (uid : Z) :
  chats db !! chat_id chat = Some chat ->
  is_sleeping chat = true ->
  in_range (health chat) ->
  exists chat',
    chats (fst (disturb_at_night db now chat uid)) !! chat_id chat = Some chat' /\
    health chat' = Z.max 0 (health chat - 15) /\
    is_alive chat' = is_alive chat /\
    death_at chat' = death_at chat.
Proof.
  intros Hrow Hsleep Hl.
  destruct (disturb_at_night_sleeping db now chat uid Hrow Hsleep)
    as (_ & Hrow' & _).
  eexists. split; [exact Hrow' |]. cbn.
  unfold in_range, ChatCRUD.clamp in *. split_and!; try reflexivity; lia.
Qed.

(** C2 (the code on gamble): the pet of a new chat is asleep and
    alive; /gamble offers the game and changes nothing, and the button
    then applies the normal effect of a lost game (hunger 100 -> 70):
    health and mood are not reduced, the only event logged is
    GAMBLE_LOSS, and the actor's disturb counter stays 0 while the loss
    counter grows. *)
Theorem gamble_on_sleeping_pet :
  let pet := chats Spec.asleep_db !! 1 in
  let offered := cmd_gamble Spec.asleep_db Spec.group_message in
  let played :=
    callback_gamble_play (fst offered) Spec.night Spec.group_message false in
  (is_alive <$> pet = Some true /\ is_sleeping <$> pet = Some true /\
   vitals <$> pet = Some (100, 100, 100, 100)) /\
  offered = (Spec.asleep_db, GambleOffer) /\
  snd played = GambleLost 70 /\
  vitals <$> chats (fst played) !! 1 = Some (70, 100, 100, 100) /\
  event_type <$> events (fst played) = [GAMBLE_LOSS] /\
  night_disturb_count <$> users (fst played) !! (42, 1) = Some 0 /\
  gamble_losses <$> users (fst played) !! (42, 1) = Some 1.
Proof. vm_compute. repeat split; reflexivity. Qed.

Lemma neglected_db_reachable (n : nat) :
  reachable default_config (Spec.neglected_db n).
Proof.
  induction n as [| n IH]; [exact born_db_reachable |].
  eapply rtc_r; [exact IH |]. apply step_tick.
Qed.

Lemma cheered_db_reachable (n : nat) :
  reachable default_config (Spec.cheered_db n).
Proof.
  induction n as [| n IH]; [exact (neglected_db_reachable 20) |].
  eapply rtc_r; [exact IH |]. apply step_sticker.
Qed.

Lemma dead_asleep_db_reachable : reachable default_config Spec.dead_asleep_db.
Proof.
  eapply rtc_r; [exact (cheered_db_reachable 5) |]. apply step_tick.
Qed.

(** The disturbance check of /feed comes before any look at the life
    flag, and [disturb_at_night] has none: a pet that died in a night
    tick keeps its sleep flag, and /feed then "wakes" the dead pet: the
    reply is the wake-up notice, its mood drops, and NIGHT_DISTURB is
    logged.  [feed] itself is not reached. *)
Lemma cmd_feed_dead_sleeping_pet :
  let pet := chats Spec.dead_asleep_db !! 1 in
  let r := cmd_feed default_config Spec.dead_asleep_db Spec.night
             Spec.group_message in
  (is_alive <$> pet = Some false /\ is_sleeping <$> pet = Some true /\
   vitals <$> pet = Some (0, 5, 0, 0)) /\
  snd r = WokenUp 0 /\
  vitals <$> chats (fst r) !! 1 = Some (0, 0, 0, 0) /\
  is_alive <$> chats (fst r) !! 1 = Some false /\
  event_type <$> events (fst r) = [NIGHT_DISTURB; DEATH].
Proof. vm_compute. repeat split; reflexivity. Qed.

(** C9 (the code on a dead pet that is still flagged asleep): the
    pet of chat 1 is left alone for twenty night ticks, gets five
    stickers and dies in the twenty-first tick; the row is then dead
    and still flagged asleep, with mood 5.  /feed and /play on it do
    not fail with "pet is dead": both run the night disturbance, which
    never looks at the life flag, reply with the wake-up notice, lower
    the mood of the dead pet from 5 to 0, log NIGHT_DISTURB and count
    a disturbance for the sender.  [feed] and [play] themselves, which
    the handlers do not reach here, and both gamble handlers do answer
    "pet is dead" on the same store and leave it as it is. *)
Theorem dead_asleep_pet_feed_play :
  let db := Spec.dead_asleep_db in
  let pet := chats db !! 1 in
  let fed := cmd_feed default_config db Spec.night Spec.group_message in
  let played := cmd_play default_config db Spec.night Spec.group_message in
  (is_alive <$> pet = Some false /\ is_sleeping <$> pet = Some true /\
   vitals <$> pet = Some (0, 5, 0, 0)) /\
  (snd fed = WokenUp 0 /\
   vitals <$> chats (fst fed) !! 1 = Some (0, 0, 0, 0) /\
   is_alive <$> chats (fst fed) !! 1 = Some false /\
   event_type <$> events (fst fed) = [NIGHT_DISTURB; DEATH] /\
   night_disturb_count <$> users (fst fed) !! (42, 1) = Some 1) /\
  (snd played = WokenUp 0 /\
   vitals <$> chats (fst played) !! 1 = Some (0, 0, 0, 0) /\
   is_alive <$> chats (fst played) !! 1 = Some false /\
   event_type <$> events (fst played) = [NIGHT_DISTURB; DEATH] /\
   night_disturb_count <$> users (fst played) !! (42, 1) = Some 1) /\
  ((fun chat => feed default_config db Spec.night chat 42) <$> pet
   = Some (db, Failed PetIsDead) /\
   (fun chat => play default_config db Spec.night chat 42) <$> pet
   = Some (db, Failed PetIsDead)) /\
  cmd_gamble db Spec.group_message = (db, PetDead) /\
  callback_gamble_play db Spec.night Spec.group_message true = (db, PetDead).
Proof. vm_compute. repeat split; reflexivity. Qed.

(** ** Random events *)

Import Events.

Lemma float_gt_false (a b : Q) : float_gt a b = false <-> (a <= b)%Q.
Proof.
  unfold float_gt. rewrite negb_false_iff. apply Qle_bool_iff.
Qed.

(** No event for a dead or a sleeping pet, whatever the draws. *)
Lemma trigger_random_event_dead_or_sleeping (db : DB) (now : Z) (chat : Chat)
    (roll1 : Q) (ev : RandomEvent) (roll2 : Q) :
  is_alive chat = false \/ is_sleeping chat = true ->
  trigger_random_event db now chat roll1 ev roll2 = (db, None).
Proof.
  intros [Hdead | Hsleep]; unfold trigger_random_event.
  - rewrite Hdead. reflexivity.
  - rewrite Hsleep, orb_true_r. reflexivity.
Qed.

(** The two gates of the source: an event fires exactly when the pet
    is alive and awake and neither draw is greater than its bound;
    otherwise the store is returned as it was. *)
Lemma trigger_random_event_gates (db : DB) (now : Z) (chat : Chat)
    (roll1 : Q) (ev : RandomEvent) (roll2 : Q) :
  (is_alive chat = true /\ is_sleeping chat = false /\
   (roll1 <= float_0_3)%Q /\ (roll2 <= probability ev)%Q /\
   trigger_random_event db now chat roll1 ev roll2
   = (execute db now chat ev, Some ev)) \/
  ((is_alive chat = false \/ is_sleeping chat = true \/
    ~ (roll1 <= float_0_3)%Q \/ ~ (roll2 <= probability ev)%Q) /\
   trigger_random_event db now chat roll1 ev roll2 = (db, None)).
Proof.
  unfold trigger_random_event.
  destruct (is_alive chat); [| right; split; [left |]; reflexivity].
  destruct (is_sleeping chat); [right; split; [right; left |]; reflexivity |].
  cbn [negb orb].
  destruct (float_gt roll1 float_0_3) eqn:Hgate1.
  { right. split; [| reflexivity]. right. right. left.
    intros Hle. apply float_gt_false in Hle. congruence. }
  destruct (float_gt roll2 (probability ev)) eqn:Hgate2.
  { right. split; [| reflexivity]. right. right. right.
    intros Hle. apply float_gt_false in Hle. congruence. }
  left. rewrite float_gt_false in Hgate1, Hgate2. auto.
Qed.

(** On the values [random.random()] can return, "not greater than the
    double 0.3" is "below 0.30", and likewise for 0.2 and 0.15: these
    doubles are not multiples of [2^-53].  The double 0.25 is one, so
    there "not greater than" also admits the draw 0.25 itself. *)
Lemma random_value_gates (k : Z) :
  ((random_value k <= float_0_3)%Q <-> (random_value k < 3 # 10)%Q) /\
  ((random_value k <= float_0_2)%Q <-> (random_value k < 2 # 10)%Q) /\
  ((random_value k <= float_0_15)%Q <-> (random_value k < 15 # 100)%Q) /\
  ((random_value k <= float_0_25)%Q <->
   (random_value k < 25 # 100)%Q \/ k = 2251799813685248).
Proof.
  unfold Qle, Qlt, random_value, float_0_3, float_0_2, float_0_15, float_0_25.
  cbn [Qnum Qden]. lia.
Qed.

(** C7 (the code at the boundary of the second gate): for the living,
    awake pet of a new chat, with the first draw 0 and the weather
    event (rain) chosen, the second draw [2^51 / 2^53 = 0.25] is not
    below the event's probability 0.25, yet the event fires: the mood
    drops from 100 to 90 and a RANDOM_EVENT entry is logged. *)
Theorem trigger_random_event_weather_boundary :
  let pet := new_chat 1 0 in
  let roll1 := random_value 0 in
  let roll2 := random_value 2251799813685248 in
  let r := trigger_random_event Spec.born_db 7 pet
             roll1 (WeatherEvent Rain) roll2 in
  (chats Spec.born_db !! 1 = Some pet /\
   is_alive pet = true /\ is_sleeping pet = false) /\
  (roll1 < float_0_3)%Q /\
  (roll2 == 25 # 100)%Q /\
  ~ (roll2 < probability (WeatherEvent Rain))%Q /\
  snd r = Some (WeatherEvent Rain) /\
  vitals <$> chats (fst r) !! 1 = Some (100, 90, 100, 100) /\
  event_type <$> events (fst r) = [RANDOM_EVENT].
Proof.
  cbv zeta. split_and!; try (vm_compute; reflexivity).
  vm_compute. discriminate.
Qed.

(** ** The vitals invariant over every reachable store *)

Create HintDb db_ok.

Lemma db_ok_same_chats (db db' : DB) :
  chats db' = chats db -> db_ok db -> db_ok db'.
Proof. intros Heq Hok cid c. rewrite Heq. apply Hok. Qed.

Lemma db_ok_alter (f : Chat -> Chat) (cid : Z) (db : DB) :
  (forall c, chat_id (f c) = chat_id c) ->
  (forall c, vitals_in_range c -> vitals_in_range (f c)) ->
  db_ok db -> db_ok (with_chats (alter f cid) db).
Proof.
  intros Hid Hrange Hok key c. cbn.
  destruct (decide (cid = key)) as [-> | Hne].
  - rewrite lookup_alter_eq.
    destruct (chats db !! key) as [c0 |] eqn:Hrow; [| discriminate].
    intros [= <-]. destruct (Hok key c0 Hrow) as [Hkey Hvit].
    split; [rewrite Hid; exact Hkey | apply Hrange; exact Hvit].
  - rewrite lookup_alter_ne by exact Hne. apply Hok.
Qed.

Lemma db_ok_insert (c : Chat) (cid : Z) (db : DB) :
  chat_id c = cid -> vitals_in_range c ->
  db_ok db -> db_ok (with_chats (insert cid c) db).
Proof.
  intros Hid Hrange Hok key c'. cbn.
  destruct (decide (cid = key)) as [-> | Hne].
  - rewrite lookup_insert_eq. intros [= <-]. auto.
  - rewrite lookup_insert_ne by exact Hne. apply Hok.
Qed.

Lemma db_ok_empty : db_ok empty_db.
Proof. intros cid c. cbn. rewrite lookup_empty. discriminate. Qed.

Lemma db_ok_update_stats (db : DB) (now cid : Z) (h m e hl : option Z) :
  db_ok db -> db_ok (ChatCRUD.update_stats db now cid h m e hl).
Proof.
  apply db_ok_alter; [reflexivity |]. intros c. apply set_stats_in_range.
Qed.

Lemma db_ok_add_xp (db : DB) (cid amount : Z) :
  db_ok db -> db_ok (fst (ChatCRUD.add_xp db cid amount)).
Proof.
  intros Hok. unfold ChatCRUD.add_xp, ChatCRUD.get.
  destruct (chats db !! cid) as [c |] eqn:Hrow; cbn [fst]; [| exact Hok].
  destruct (Hok cid c Hrow) as [Hid Hrange].
  apply db_ok_insert; assumption.
Qed.

Lemma db_ok_kill_pet (db : DB) (now cid : Z) :
  db_ok db -> db_ok (ChatCRUD.kill_pet db now cid).
Proof.
  apply db_ok_alter; [reflexivity |].
  intros c (Hh & Hm & He & _). unfold vitals_in_range, in_range in *.
  cbn. lia.
Qed.

Lemma db_ok_revive_pet (db : DB) (now cid : Z) :
  db_ok db -> db_ok (ChatCRUD.revive_pet db now cid).
Proof.
  apply db_ok_alter; [reflexivity |].
  intros c _. unfold vitals_in_range, in_range. cbn. lia.
Qed.

Lemma db_ok_evolve (db : DB) (cid : Z) (s : PetStage) (t : PetType) :
  db_ok db -> db_ok (ChatCRUD.evolve db cid s t).
Proof. apply db_ok_alter; [reflexivity | intros c Hc; exact Hc]. Qed.

Lemma db_ok_update_last_tick (db : DB) (now cid : Z) :
  db_ok db -> db_ok (ChatCRUD.update_last_tick db now cid).
Proof. apply db_ok_alter; [reflexivity | intros c Hc; exact Hc]. Qed.

Lemma db_ok_set_sleeping (db : DB) (cid : Z) (b : bool) :
  db_ok db -> db_ok (with_chats (alter (set_sleeping b) cid) db).
Proof. apply db_ok_alter; [reflexivity | intros c Hc; exact Hc]. Qed.

Lemma db_ok_increment_behavior_counter (db : DB) (cid : Z) (name : string)
    (amount : Z) :
  db_ok db -> db_ok (ChatCRUD.increment_behavior_counter db cid name amount).
Proof.
  intros Hok. unfold ChatCRUD.increment_behavior_counter, ChatCRUD.get.
  destruct (negb _); [exact Hok |].
  destruct (chats db !! cid) as [c |] eqn:Hrow; [| exact Hok].
  destruct (Hok cid c Hrow) as [Hid Hrange].
  apply db_ok_insert; assumption.
Qed.

Lemma db_ok_chat_get_or_create (db : DB) (now cid : Z) :
  db_ok db -> db_ok (fst (ChatCRUD.get_or_create db now cid)).
Proof.
  intros Hok. unfold ChatCRUD.get_or_create.
  destruct (chats db !! cid); cbn [fst]; [exact Hok |].
  apply db_ok_insert; [reflexivity | | exact Hok].
  unfold vitals_in_range, in_range. cbn. lia.
Qed.

Lemma db_ok_create_event (db : DB) (now cid : Z) (etype : EventType)
    (uid : option Z) :
  db_ok db -> db_ok (EventCRUD.create db now cid etype uid).
Proof. apply db_ok_same_chats. reflexivity. Qed.

Lemma db_ok_user_get_or_create (db : DB) (now uid cid : Z)
    (uname fname : option string) :
  db_ok db -> db_ok (fst (UserCRUD.get_or_create db now uid cid uname fname)).
Proof.
  apply db_ok_same_chats. unfold UserCRUD.get_or_create.
  destruct (users db !! (uid, cid)); reflexivity.
Qed.

Lemma db_ok_increment_stat (db : DB) (now uid cid : Z) (name : string)
    (amount : Z) :
  db_ok db -> db_ok (UserCRUD.increment_stat db now uid cid name amount).
Proof. apply db_ok_same_chats. apply increment_stat_chats. Qed.

#[local] Hint Resolve db_ok_update_stats db_ok_add_xp db_ok_kill_pet
  db_ok_revive_pet db_ok_evolve db_ok_update_last_tick db_ok_set_sleeping
  db_ok_increment_behavior_counter db_ok_chat_get_or_create
  db_ok_create_event db_ok_user_get_or_create db_ok_increment_stat : db_ok.

(** One step towards [db_ok] of the result of a straight-line
    operation: a case analysis on a test, or the lemma of the write
    that was made last. *)
Ltac db_ok_step :=
  match goal with
  | |- db_ok (fst (if ?b then _ else _)) => destruct b
  | |- db_ok (if ?b then _ else _) => destruct b
  | |- db_ok (fst (match ?o with Some _ => _ | None => _ end)) => destruct o
  | |- db_ok (match ?o with Some _ => _ | None => _ end) => destruct o
  | |- db_ok (fst (_, _)) => cbn [fst]
  | |- db_ok _ => assumption
  | |- db_ok _ =>
      first [ apply db_ok_update_stats | apply db_ok_add_xp
            | apply db_ok_kill_pet | apply db_ok_revive_pet
            | apply db_ok_evolve | apply db_ok_update_last_tick
            | apply db_ok_set_sleeping
            | apply db_ok_increment_behavior_counter
            | apply db_ok_chat_get_or_create | apply db_ok_create_event
            | apply db_ok_user_get_or_create | apply db_ok_increment_stat ]
  end.

Ltac db_ok_branches := repeat db_ok_step.

(** Name the store [d] and the answer [r] of the first call whose
    result is taken apart, with the invariant [H] on [d]. *)
Tactic Notation "db_ok_call" ident(d) ident(r) ident(H) :=
  match goal with
  | |- context [match ?call with pair _ _ => _ end] =>
      assert (db_ok (fst call)) as H by eauto 12 with db_ok;
      destruct call as [d r]; cbn [fst snd] in H |- *
  end.

Lemma db_ok_tick_stats (cfg : Config) (db : DB) (now : Z) (chat : Chat) :
  db_ok db -> db_ok (fst (tick_stats cfg db now chat)).
Proof. intros Hok. unfold tick_stats. cbv zeta. db_ok_branches. Qed.

Lemma db_ok_feed (cfg : Config) (db : DB) (now : Z) (chat : Chat) (uid : Z) :
  db_ok db -> db_ok (fst (feed cfg db now chat uid)).
Proof. intros Hok. unfold feed. cbv zeta. db_ok_branches. Qed.

Lemma db_ok_play (cfg : Config) (db : DB) (now : Z) (chat : Chat) (uid : Z) :
  db_ok db -> db_ok (fst (play cfg db now chat uid)).
Proof. intros Hok. unfold play. cbv zeta. db_ok_branches. Qed.

Lemma db_ok_check_sleep_status (cfg : Config) (db : DB) (now : Z) (chat : Chat) :
  db_ok db -> db_ok (check_sleep_status cfg db now chat).
Proof. intros Hok. unfold check_sleep_status. cbv zeta. db_ok_branches. Qed.

Lemma db_ok_disturb_at_night (db : DB) (now : Z) (chat : Chat) (uid : Z) :
  db_ok db -> db_ok (fst (disturb_at_night db now chat uid)).
Proof. intros Hok. unfold disturb_at_night. cbv zeta. db_ok_branches. Qed.

Lemma db_ok_check_and_evolve (db : DB) (now : Z) (chat : Chat) :
  db_ok db -> db_ok (fst (check_and_evolve db now chat)).
Proof. intros Hok. unfold check_and_evolve. cbv zeta. db_ok_branches. Qed.

Lemma db_ok_execute (db : DB) (now : Z) (chat : Chat) (ev : RandomEvent) :
  db_ok db -> db_ok (execute db now chat ev).
Proof.
  intros Hok.
  destruct ev as [[] | [] | []];
    unfold execute, execute_box, execute_visitor, execute_weather;
    cbv zeta; db_ok_branches.
Qed.

#[local] Hint Resolve db_ok_tick_stats db_ok_feed db_ok_play
  db_ok_check_sleep_status db_ok_disturb_at_night db_ok_check_and_evolve
  db_ok_execute : db_ok.

Lemma db_ok_trigger_random_event (db : DB) (now : Z) (chat : Chat)
    (roll1 : Q) (ev : RandomEvent) (roll2 : Q) :
  db_ok db -> db_ok (fst (trigger_random_event db now chat roll1 ev roll2)).
Proof.
  intros Hok. unfold trigger_random_event. db_ok_branches.
  apply db_ok_execute. exact Hok.
Qed.

Lemma db_ok_tick_pet (cfg : Config) (db : DB) (now : Z) (chat : Chat) :
  db_ok db -> db_ok (fst (tick_pet cfg db now chat)).
Proof.
  intros Hok. unfold tick_pet. cbv zeta.
  db_ok_call db1 answer Hok1. destruct answer as [alive is_critical].
  destruct alive; [| exact Hok1].
  db_ok_call db2 evolution Hok2.
  destruct evolution as [[evolved new_stage] new_type]. exact Hok2.
Qed.

Lemma db_ok_check_night_disturbance (db : DB) (now : Z) (chat : Chat)
    (message : Message) :
  db_ok db -> db_ok (fst (check_night_disturbance db now chat message)).
Proof.
  intros Hok. unfold check_night_disturbance.
  destruct (is_sleeping chat); [| exact Hok].
  db_ok_call db1 result Hok1. destruct result; db_ok_branches.
Qed.

#[local] Hint Resolve db_ok_trigger_random_event db_ok_tick_pet
  db_ok_check_night_disturbance : db_ok.

Lemma db_ok_cmd_start (db : DB) (now : Z) (message : Message) :
  db_ok db -> db_ok (fst (cmd_start db now message)).
Proof.
  intros Hok. unfold cmd_start.
  destruct (chat_is_private message); [exact Hok |].
  db_ok_call db1 chat Hok1. db_ok_branches.
Qed.

Lemma db_ok_cmd_feed (cfg : Config) (db : DB) (now : Z) (message : Message) :
  db_ok db -> db_ok (fst (cmd_feed cfg db now message)).
Proof.
  intros Hok. unfold cmd_feed.
  destruct (chat_is_private message); [exact Hok |].
  destruct (ChatCRUD.get db (message_chat_id message)); [| exact Hok].
  db_ok_call db1 reply Hok1. destruct reply; [exact Hok1 |].
  db_ok_call db2 result Hok2. db_ok_branches.
Qed.

Lemma db_ok_cmd_play (cfg : Config) (db : DB) (now : Z) (message : Message) :
  db_ok db -> db_ok (fst (cmd_play cfg db now message)).
Proof.
  intros Hok. unfold cmd_play.
  destruct (chat_is_private message); [exact Hok |].
  destruct (ChatCRUD.get db (message_chat_id message)); [| exact Hok].
  db_ok_call db1 reply Hok1. destruct reply; [exact Hok1 |].
  db_ok_call db2 result Hok2. db_ok_branches.
Qed.

Lemma db_ok_cmd_gamble (db : DB) (message : Message) :
  db_ok db -> db_ok (fst (cmd_gamble db message)).
Proof. intros Hok. unfold cmd_gamble. db_ok_branches. Qed.

Lemma db_ok_callback_gamble_play (db : DB) (now : Z) (callback : Message)
    (won : bool) :
  db_ok db -> db_ok (fst (callback_gamble_play db now callback won)).
Proof. intros Hok. unfold callback_gamble_play. cbv zeta. db_ok_branches. Qed.

Lemma db_ok_handle_group_message (cfg : Config) (db : DB) (now : Z)
    (message : Message) (is_command bad caps code : bool) :
  db_ok db ->
  db_ok (handle_group_message cfg db now message is_command bad caps code).
Proof.
  intros Hok. unfold handle_group_message. cbv zeta.
  destruct bad, caps, code; db_ok_branches.
Qed.

Lemma db_ok_handle_sticker (db : DB) (now : Z) (message : Message) :
  db_ok db -> db_ok (handle_sticker db now message).
Proof. intros Hok. unfold handle_sticker. cbv zeta. db_ok_branches. Qed.

Lemma db_ok_handle_photo (db : DB) (now : Z) (message : Message)
    (caption : option (bool * bool * bool)) :
  db_ok db -> db_ok (handle_photo db now message caption).
Proof.
  intros Hok. unfold handle_photo. cbv zeta.
  destruct caption as [[[bad code] short] |]; db_ok_branches.
Qed.

(** A scheduler job is a fold of a per-chat body over the selected
    chats; the invariant goes through the fold when it goes through the
    body. *)
Lemma db_ok_fold_left {A B : Type} (f : A -> B -> A) (store : A -> DB)
    (l : list B) (acc : A) :
  (forall a b, db_ok (store a) -> db_ok (store (f a b))) ->
  db_ok (store acc) -> db_ok (store (fold_left f l acc)).
Proof.
  intros Hbody. revert acc.
  induction l as [| b l IH]; intros acc Hok; cbn; [exact Hok |].
  apply IH. apply Hbody. exact Hok.
Qed.

Lemma db_ok_tick_all_pets (cfg : Config) (db : DB) (now : Z) :
  db_ok db -> db_ok (fst (tick_all_pets cfg db now)).
Proof.
  intros Hok. unfold tick_all_pets.
  apply (db_ok_fold_left _ fst); [| exact Hok].
  intros [db1 notes] chat Hok1. cbn [fst snd] in *.
  db_ok_call db2 out Hok2. exact Hok2.
Qed.

Lemma db_ok_trigger_random_events (db : DB) (now : Z)
    (rolls : Z -> Q * RandomEvent * Q) :
  db_ok db -> db_ok (fst (trigger_random_events db now rolls)).
Proof.
  intros Hok. unfold trigger_random_events.
  apply (db_ok_fold_left _ fst); [| exact Hok].
  intros [db1 notes] chat Hok1. cbn [fst snd] in *.
  destruct (rolls (chat_id chat)) as [[roll1 ev] roll2].
  db_ok_call db2 fired Hok2. exact Hok2.
Qed.

Lemma db_ok_check_sleep_all (cfg : Config) (db : DB) (now : Z) :
  db_ok db -> db_ok (check_sleep_all cfg db now).
Proof.
  intros Hok. unfold check_sleep_all.
  apply (db_ok_fold_left _ id); [| exact Hok].
  intros db1 chat Hok1. apply db_ok_check_sleep_status. exact Hok1.
Qed.

Lemma db_ok_preserved (cfg : Config) (db db' : DB) :
  step cfg db db' -> db_ok db -> db_ok db'.
Proof.
  intros Hstep Hok.
  destruct Hstep;
    eauto using db_ok_cmd_start, db_ok_cmd_feed, db_ok_cmd_play,
      db_ok_cmd_gamble, db_ok_callback_gamble_play,
      db_ok_handle_group_message, db_ok_handle_sticker, db_ok_handle_photo,
      db_ok_tick_all_pets, db_ok_trigger_random_events, db_ok_check_sleep_all.
Qed.

Lemma db_ok_run (cfg : Config) (db0 db : DB) :
  rtc (step cfg) db0 db -> db_ok db0 -> db_ok db.
Proof.
  induction 1 as [db0 | db0 db1 db2 Hstep _ IH]; intros Hok.
  - exact Hok.
  - apply IH. exact (db_ok_preserved cfg db0 db1 Hstep Hok).
Qed.

(** Whatever the users, the clock and the random draws do, every pet
    of a store the bot can reach has its four vitals in [0,100] (and
    sits under its own chat id). *)
Theorem reachable_vitals_in_range (cfg : Config) (db : DB) (cid : Z) (c : Chat) :
  reachable cfg db ->
  chats db !! cid = Some c ->
  chat_id c = cid /\ vitals_in_range c.
Proof.
  unfold reachable. intros Hreach. revert cid c.
  exact (db_ok_run cfg empty_db db Hreach db_ok_empty).
Qed.

(** ** The clamped update *)

(** C3: every write through [update_stats], whatever integers the
    caller passes (an action, a decay tick, a random-event outcome),
    leaves each vital it writes in [0,100], and with it all four
    vitals of a pet whose vitals were in [0,100], which is every pet of
    every store the bot can reach; a write that asks for no change of
    any vital (no argument, or the current value) leaves the four
    vitals as they were. *)
Theorem update_stats_clamps (db : DB) (now cid : Z) (chat : Chat)
    (h m e hl : option Z) :
  chats db !! cid = Some chat ->
  exists chat',
    chats (ChatCRUD.update_stats db now cid h m e hl) !! cid = Some chat' /\
    (is_Some h -> in_range (hunger chat')) /\
    (is_Some m -> in_range (mood chat')) /\
    (is_Some e -> in_range (energy chat')) /\
    (is_Some hl -> in_range (health chat')) /\
    (vitals_in_range chat -> vitals_in_range chat') /\
    (forall cfg : Config, reachable cfg db -> vitals_in_range chat') /\
    (h = None -> m = None -> e = None -> hl = None ->
     vitals chat' = vitals chat) /\
    (vitals_in_range chat ->
     Spec.keeps h (hunger chat) -> Spec.keeps m (mood chat) ->
     Spec.keeps e (energy chat) -> Spec.keeps hl (health chat) ->
     vitals chat' = vitals chat).
Proof.
  intros Hrow. exists (ChatCRUD.set_stats h m e hl now chat).
  split; [rewrite update_stats_lookup, Hrow; reflexivity |].
  split_and!.
  - intros [v ->]. apply clamp_in_range.
  - intros [v ->]. apply clamp_in_range.
  - intros [v ->]. apply clamp_in_range.
  - intros [v ->]. apply clamp_in_range.
  - apply set_stats_in_range.
  - intros cfg Hreach. apply set_stats_in_range.
    apply (reachable_vitals_in_range cfg db cid chat Hreach Hrow).
  - intros -> -> -> ->. reflexivity.
  - apply set_stats_keeps.
Qed.

Lemma update_stats_clamps_witness :
  exists chat',
    chats (ChatCRUD.update_stats Spec.born_db 5 1
             (Some 250) (Some (-40)) None (Some 100)) !! 1 = Some chat' /\
    vitals_in_range chat' /\ in_range (hunger chat').
Proof.
  destruct (update_stats_clamps Spec.born_db 5 1
              (new_chat 1 0) (Some 250) (Some (-40)) None (Some 100))
    as (chat' & Hrow & Hhunger & _ & _ & _ & _ & Hreach & _).
  - vm_compute. reflexivity.
  - exists chat'. split; [exact Hrow |]. split.
    + apply (Hreach default_config). exact born_db_reachable.
    + apply Hhunger. eexists. reflexivity.
Defined.

(** * Further properties of the code *)

Import Notions.

(** ** User statistics *)

Lemma seen_user_stats (db : DB) (now uid cid : Z) (stat_name : string) :
  user_stat stat_name (seen_user db now uid cid)
  = from_option (user_stat stat_name) 0 (users db !! (uid, cid)).
Proof.
  unfold seen_user, UserCRUD.get_or_create.
  destruct (users db !! (uid, cid)) as [u |]; cbn [snd from_option].
  - reflexivity.
  - unfold user_stat. cbn.
    repeat match goal with |- context [if ?b then _ else _] => destruct b end;
      reflexivity.
Qed.

Lemma increment_stat_unknown (db : DB) (now uid cid : Z) (stat_name : string)
    (amount : Z) :
  ~ In stat_name UserCRUD.valid_stats ->
  UserCRUD.increment_stat db now uid cid stat_name amount = db.
Proof.
  intros Hnot. unfold UserCRUD.increment_stat.
  destruct (existsb (String.eqb stat_name) UserCRUD.valid_stats) eqn:Hex;
    [| reflexivity].
  apply existsb_exists in Hex as (name & Hin & Heq).
  apply String.eqb_eq in Heq. subst name. contradiction.
Qed.

Lemma increment_stat_users (db : DB) (now uid cid : Z) (stat_name : string)
    (amount : Z) :
  In stat_name UserCRUD.valid_stats ->
  users (UserCRUD.increment_stat db now uid cid stat_name amount)
  = <[(uid, cid) := UserCRUD.bump_stat stat_name amount
                      (seen_user db now uid cid)]> (users db).
Proof.
  intros Hin. unfold UserCRUD.increment_stat, seen_user.
  assert (existsb (String.eqb stat_name) UserCRUD.valid_stats = true) as ->.
  { apply existsb_exists. exists stat_name.
    split; [exact Hin | apply String.eqb_refl]. }
  cbn [negb]. unfold UserCRUD.get_or_create.
  destruct (users db !! (uid, cid)); cbn; apply insert_insert_eq.
Qed.

Lemma bump_stat_user_stat (stat_name other : string) (amount : Z) (u : User) :
  In stat_name UserCRUD.valid_stats ->
  In other UserCRUD.valid_stats ->
  user_stat other (UserCRUD.bump_stat stat_name amount u)
  = user_stat other u + (if String.eqb stat_name other then amount else 0).
Proof.
  intros Hname Hother. unfold UserCRUD.valid_stats in *. cbn in Hname, Hother.
  repeat destruct Hname as [<- | Hname]; try contradiction;
    repeat destruct Hother as [<- | Hother]; try contradiction;
    cbn; lia.
Qed.

Lemma increment_stat_row (db : DB) (now uid cid : Z) (stat_name : string)
    (amount : Z) :
  In stat_name UserCRUD.valid_stats ->
  exists u',
    users (UserCRUD.increment_stat db now uid cid stat_name amount) !! (uid, cid)
    = Some u' /\
    forall other, In other UserCRUD.valid_stats ->
      user_stat other u'
      = from_option (user_stat other) 0 (users db !! (uid, cid))
        + (if String.eqb stat_name other then amount else 0).
Proof.
  intros Hin. rewrite increment_stat_users by exact Hin.
  eexists. split; [apply lookup_insert_eq |].
  intros other Hother.
  rewrite bump_stat_user_stat, seen_user_stats by assumption. reflexivity.
Qed.

Lemma get_or_create_user_chats (db : DB) (now uid cid : Z)
    (uname fname : option string) :
  chats (fst (UserCRUD.get_or_create db now uid cid uname fname)) = chats db.
Proof. unfold UserCRUD.get_or_create. destruct (users db !! _); reflexivity. Qed.

Lemma get_or_create_user_events (db : DB) (now uid cid : Z)
    (uname fname : option string) :
  events (fst (UserCRUD.get_or_create db now uid cid uname fname)) = events db.
Proof. unfold UserCRUD.get_or_create. destruct (users db !! _); reflexivity. Qed.

Lemma get_or_create_user_stat (db : DB) (now uid cid : Z)
    (uname fname : option string) (key : Z * Z) (stat_name : string) :
  from_option (user_stat stat_name) 0
    (users (fst (UserCRUD.get_or_create db now uid cid uname fname)) !! key)
  = from_option (user_stat stat_name) 0 (users db !! key).
Proof.
  unfold UserCRUD.get_or_create.
  destruct (decide ((uid, cid) = key)) as [<- | Hne].
  - destruct (users db !! (uid, cid)) as [u |]; cbn;
      rewrite lookup_insert_eq; cbn; [reflexivity |].
    unfold user_stat. cbn.
    repeat match goal with |- context [if ?b then _ else _] => destruct b end;
      reflexivity.
  - destruct (users db !! (uid, cid)) as [u |]; cbn;
      rewrite lookup_insert_ne by exact Hne; reflexivity.
Qed.

(** X1: [increment_stat] ignores a statistic name outside its allow
    list: the store is returned as it is and no user row is created.
    For a name of the list it creates the user's row on first use
    (all counters 0) and adds the amount to that statistic only; the
    other statistics of the user, the rows of all other users, the
    chats and the event log stay as they were. *)
Theorem increment_stat_effect (db : DB) (now uid cid : Z) (stat_name : string)
    (amount : Z) :
  (~ In stat_name UserCRUD.valid_stats ->
   UserCRUD.increment_stat db now uid cid stat_name amount = db) /\
  (In stat_name UserCRUD.valid_stats ->
   let db' := UserCRUD.increment_stat db now uid cid stat_name amount in
   (exists u',
      users db' !! (uid, cid) = Some u' /\
      forall other, In other UserCRUD.valid_stats ->
        user_stat other u'
        = from_option (user_stat other) 0 (users db !! (uid, cid))
          + (if String.eqb stat_name other then amount else 0)) /\
   (forall key, key <> (uid, cid) -> users db' !! key = users db !! key) /\
   chats db' = chats db /\ events db' = events db).
Proof.
  split; [apply increment_stat_unknown |].
  intros Hin db'. subst db'.
  rewrite increment_stat_users, increment_stat_chats, increment_stat_events
    by exact Hin.
  split_and!; try reflexivity.
  - eexists. split; [apply lookup_insert_eq |].
    intros other Hother.
    rewrite bump_stat_user_stat, seen_user_stats by assumption. reflexivity.
  - intros key Hne. apply lookup_insert_ne. congruence.
Qed.

Lemma increment_stat_effect_witness :
  UserCRUD.increment_stat Spec.born_db 5 42 1 "karma" 7 = Spec.born_db /\
  (karma_points <$>
     users (UserCRUD.increment_stat Spec.born_db 5 42 1 "karma_points" 7)
     !! (42, 1)) = Some 7.
Proof.
  destruct (increment_stat_effect Spec.born_db 5 42 1 "karma" 7) as [Hbad _].
  destruct (increment_stat_effect Spec.born_db 5 42 1 "karma_points" 7)
    as [_ Hgood].
  split.
  - apply Hbad. vm_compute. intuition discriminate.
  - destruct Hgood as ((u' & Hrow & Hstat) & _).
    + vm_compute. auto.
    + rewrite Hrow. cbn. f_equal.
      apply (Hstat "karma_points"). vm_compute. auto.
Defined.

(** ** Behaviour counters and experience *)

Lemma bump_counter_chat_counter (name other : string) (amount : Z) (c : Chat) :
  In name ChatCRUD.valid_counters ->
  In other ChatCRUD.valid_counters ->
  chat_counter other (ChatCRUD.bump_counter name amount c)
  = chat_counter other c + (if String.eqb name other then amount else 0).
Proof.
  intros Hname Hother. unfold ChatCRUD.valid_counters in *.
  cbn in Hname, Hother.
  repeat destruct Hname as [<- | Hname]; try contradiction;
    repeat destruct Hother as [<- | Hother]; try contradiction;
    cbn; lia.
Qed.

Lemma valid_counter_existsb (name : string) :
  existsb (String.eqb name) ChatCRUD.valid_counters = true
  <-> In name ChatCRUD.valid_counters.
Proof.
  rewrite existsb_exists. split.
  - intros (x & Hin & Heq). apply String.eqb_eq in Heq. subst x. exact Hin.
  - intros Hin. exists name. split; [exact Hin | apply String.eqb_refl].
Qed.

(** X2: [increment_behavior_counter] does nothing for a counter name
    outside its allow list and nothing for a chat without a row; for
    a listed name it adds the amount to that counter of the row and
    leaves the other three counters, the vitals, xp, level, stage,
    type and life flags of the pet, all other rows, the users and the
    event log as they were. *)
Theorem increment_behavior_counter_effect (db : DB) (cid : Z) (name : string)
    (amount : Z) :
  let db' := ChatCRUD.increment_behavior_counter db cid name amount in
  (~ In name ChatCRUD.valid_counters -> db' = db) /\
  (chats db !! cid = None -> db' = db) /\
  (forall c, In name ChatCRUD.valid_counters -> chats db !! cid = Some c ->
     exists c',
       chats db' !! cid = Some c' /\
       (forall other, In other ChatCRUD.valid_counters ->
          chat_counter other c'
          = chat_counter other c
            + (if String.eqb name other then amount else 0)) /\
       vitals c' = vitals c /\ xp c' = xp c /\ level c' = level c /\
       pet_stage c' = pet_stage c /\ pet_type c' = pet_type c /\
       is_alive c' = is_alive c /\ is_sleeping c' = is_sleeping c /\
       death_at c' = death_at c) /\
  (forall other, other <> cid -> chats db' !! other = chats db !! other) /\
  users db' = users db /\ events db' = events db.
Proof.
  intros db'. subst db'. unfold ChatCRUD.increment_behavior_counter, ChatCRUD.get.
  destruct (existsb (String.eqb name) ChatCRUD.valid_counters) eqn:Hvalid;
    cbn [negb].
  - apply valid_counter_existsb in Hvalid.
    destruct (chats db !! cid) as [c |] eqn:Hrow.
    + split_and!; try reflexivity.
      * intros Hnot. contradiction.
      * intros [=].
      * intros c0 _ [= <-]. exists (ChatCRUD.bump_counter name amount c).
        split; [apply lookup_insert_eq |].
        split; [| repeat split].
        intros other Hother. apply bump_counter_chat_counter; assumption.
      * intros other Hne. apply lookup_insert_ne. congruence.
    + split_and!; try reflexivity. intros c _ [=].
  - split_and!; try reflexivity.
    intros c Hin. apply valid_counter_existsb in Hin. congruence.
Qed.

Lemma increment_behavior_counter_effect_witness :
  ChatCRUD.increment_behavior_counter Spec.born_db 1 "cursing" 1 = Spec.born_db /\
  ChatCRUD.increment_behavior_counter Spec.born_db 2 "meme_count" 1
  = Spec.born_db /\
  meme_count <$>
    chats (ChatCRUD.increment_behavior_counter Spec.born_db 1 "meme_count" 3)
    !! 1 = Some 3.
Proof.
  destruct (increment_behavior_counter_effect Spec.born_db 1 "cursing" 1)
    as (Hbad & _).
  destruct (increment_behavior_counter_effect Spec.born_db 2 "meme_count" 1)
    as (_ & Hnone & _).
  destruct (increment_behavior_counter_effect Spec.born_db 1 "meme_count" 3)
    as (_ & _ & Hgood & _).
  split_and!.
  - apply Hbad. vm_compute. intuition discriminate.
  - apply Hnone. vm_compute. reflexivity.
  - destruct (Hgood (new_chat 1 0)) as (c' & Hrow & Hcount & _).
    + vm_compute. auto.
    + vm_compute. reflexivity.
    + rewrite Hrow. cbn. f_equal. apply (Hcount "meme_count"). vm_compute. auto.
Defined.

(** X3: [add_xp] returns nothing and leaves the store as it is for a
    chat without a row; otherwise it adds the amount to xp and raises
    the level to [xp // 100 + 1] when that is higher, so the level
    never goes down, not even for a negative amount; vitals, stage,
    type, counters and life flags of the row and all other rows stay. *)
Theorem add_xp_effect (db : DB) (cid amount : Z) :
  (chats db !! cid = None -> ChatCRUD.add_xp db cid amount = (db, None)) /\
  (forall c, chats db !! cid = Some c ->
     exists c',
       snd (ChatCRUD.add_xp db cid amount) = Some c' /\
       chats (fst (ChatCRUD.add_xp db cid amount)) !! cid = Some c' /\
       xp c' = xp c + amount /\
       level c' = Z.max (level c) (xp c' / 100 + 1) /\
       level c <= level c' /\
       vitals c' = vitals c /\
       pet_stage c' = pet_stage c /\ pet_type c' = pet_type c /\
       is_alive c' = is_alive c /\ is_sleeping c' = is_sleeping c) /\
  (forall other, other <> cid ->
     chats (fst (ChatCRUD.add_xp db cid amount)) !! other = chats db !! other) /\
  users (fst (ChatCRUD.add_xp db cid amount)) = users db /\
  events (fst (ChatCRUD.add_xp db cid amount)) = events db.
Proof.
  unfold ChatCRUD.add_xp, ChatCRUD.get.
  destruct (chats db !! cid) as [c |] eqn:Hrow; cbn [fst snd].
  - split_and!; try reflexivity.
    + intros [=].
    + intros c0 [= <-]. exists (ChatCRUD.set_xp amount c).
      split; [reflexivity |]. split; [apply lookup_insert_eq |].
      cbn. split; [reflexivity |].
      destruct (Z.gtb_spec ((xp c + amount) / 100 + 1) (level c));
        split_and!; try reflexivity; lia.
    + intros other Hne. apply lookup_insert_ne. congruence.
  - split_and!; try reflexivity. intros c [=].
Qed.

Lemma add_xp_effect_witness :
  ChatCRUD.add_xp Spec.born_db 2 10 = (Spec.born_db, None) /\
  (level <$> snd (ChatCRUD.add_xp Spec.born_db 1 250)) = Some 3 /\
  (level <$> snd (ChatCRUD.add_xp Spec.born_db 1 (-250))) = Some 1.
Proof.
  split_and!.
  - apply (proj1 (add_xp_effect Spec.born_db 2 10)). vm_compute. reflexivity.
  - destruct (proj1 (proj2 (add_xp_effect Spec.born_db 1 250)) (new_chat 1 0))
      as (c' & Hans & _ & Hxp & Hlevel & _); [vm_compute; reflexivity |].
    rewrite Hans. cbn. rewrite Hlevel, Hxp. reflexivity.
  - destruct (proj1 (proj2 (add_xp_effect Spec.born_db 1 (-250))) (new_chat 1 0))
      as (c' & Hans & _ & Hxp & Hlevel & _); [vm_compute; reflexivity |].
    rewrite Hans. cbn. rewrite Hlevel, Hxp. reflexivity.
Defined.

(** ** Feeding, playing and gambling with a living, awake pet *)

Lemma increment_stat_twice (db : DB) (now uid cid : Z) (name1 name2 : string)
    (amount1 amount2 : Z) :
  In name1 UserCRUD.valid_stats ->
  In name2 UserCRUD.valid_stats ->
  let db' :=
    UserCRUD.increment_stat
      (UserCRUD.increment_stat db now uid cid name1 amount1)
      now uid cid name2 amount2 in
  (exists u',
     users db' !! (uid, cid) = Some u' /\
     forall other, In other UserCRUD.valid_stats ->
       user_stat other u'
       = from_option (user_stat other) 0 (users db !! (uid, cid))
         + (if String.eqb name1 other then amount1 else 0)
         + (if String.eqb name2 other then amount2 else 0)) /\
  chats db' = chats db /\ events db' = events db.
Proof.
  intros Hin1 Hin2 db'. subst db'.
  destruct (increment_stat_row db now uid cid name1 amount1 Hin1)
    as (u1 & Hrow1 & Hstat1).
  destruct (increment_stat_row
              (UserCRUD.increment_stat db now uid cid name1 amount1)
              now uid cid name2 amount2 Hin2)
    as (u2 & Hrow2 & Hstat2).
  split; [| rewrite !increment_stat_chats, !increment_stat_events; auto].
  exists u2. split; [exact Hrow2 |]. intros other Hother.
  rewrite (Hstat2 other Hother), Hrow1. cbn [from_option].
  rewrite (Hstat1 other Hother). reflexivity.
Qed.

Lemma add_xp_users (db : DB) (cid amount : Z) :
  users (fst (ChatCRUD.add_xp db cid amount)) = users db.
Proof. unfold ChatCRUD.add_xp. destruct (ChatCRUD.get db cid); reflexivity. Qed.

Lemma add_xp_events (db : DB) (cid amount : Z) :
  events (fst (ChatCRUD.add_xp db cid amount)) = events db.
Proof. unfold ChatCRUD.add_xp. destruct (ChatCRUD.get db cid); reflexivity. Qed.

Lemma feed_awake (cfg : Config) (db : DB) (now : Z) (chat : Chat) (uid : Z) :
  chats db !! chat_id chat = Some chat ->
  is_alive chat = true -> is_sleeping chat = false ->
  let new_hunger := Z.min 100 (hunger chat + 30) in
  let new_mood := Z.min 100 (mood chat + 5) in
  snd (feed cfg db now chat uid) = Fed new_hunger new_mood /\
  chats (fst (feed cfg db now chat uid)) !! chat_id chat
  = Some (ChatCRUD.set_xp (XP_PER_FEED cfg)
            (ChatCRUD.set_stats (Some new_hunger) (Some new_mood) None None
               now chat)) /\
  users (fst (feed cfg db now chat uid)) = users db /\
  events (fst (feed cfg db now chat uid))
  = {| event_chat_id := chat_id chat; event_type := FEED;
       event_user_id := Some uid; event_created_at := now |} :: events db.
Proof.
  intros Hrow Halive Hawake. unfold feed. rewrite Halive, Hawake.
  cbn [negb fst snd]. cbv zeta. cbn [fst snd].
  rewrite create_event_chats, add_xp_lookup, update_stats_lookup, Hrow.
  split_and!; try reflexivity.
  - cbn [EventCRUD.create users]. rewrite add_xp_users. reflexivity.
  - cbn [EventCRUD.create events]. rewrite add_xp_events. reflexivity.
Qed.

Lemma play_awake (cfg : Config) (db : DB) (now : Z) (chat : Chat) (uid : Z) :
  chats db !! chat_id chat = Some chat ->
  is_alive chat = true -> is_sleeping chat = false -> 20 <= energy chat ->
  let new_mood := Z.min 100 (mood chat + 20) in
  let new_energy := Z.max 0 (energy chat - 10) in
  let new_hunger := Z.max 0 (hunger chat - 5) in
  snd (play cfg db now chat uid) = Played new_mood new_energy /\
  chats (fst (play cfg db now chat uid)) !! chat_id chat
  = Some (ChatCRUD.set_xp (XP_PER_GAME cfg)
            (ChatCRUD.set_stats (Some new_hunger) (Some new_mood)
               (Some new_energy) None now chat)) /\
  users (fst (play cfg db now chat uid)) = users db /\
  events (fst (play cfg db now chat uid))
  = {| event_chat_id := chat_id chat; event_type := PLAY;
       event_user_id := Some uid; event_created_at := now |} :: events db.
Proof.
  intros Hrow Halive Hawake Henergy. unfold play. rewrite Halive, Hawake.
  destruct (Z.ltb_spec (energy chat) 20) as [Hlow | _]; [lia |].
  cbn [negb fst snd]. cbv zeta. cbn [fst snd].
  rewrite create_event_chats, add_xp_lookup, update_stats_lookup, Hrow.
  split_and!; try reflexivity.
  - cbn [EventCRUD.create users]. rewrite add_xp_users. reflexivity.
  - cbn [EventCRUD.create events]. rewrite add_xp_events. reflexivity.
Qed.

Lemma check_night_disturbance_awake (db : DB) (now : Z) (chat : Chat)
    (message : Message) :
  is_sleeping chat = false ->
  check_night_disturbance db now chat message = (db, None).
Proof. intros Hawake. unfold check_night_disturbance. rewrite Hawake. reflexivity. Qed.

(** X4: /feed on a living, awake pet feeds it: hunger rises by 30 and
    mood by 5, both capped at 100, energy and health stay, xp grows by
    the configured feed XP and the level never drops; one FEED event of
    the actor is logged, and the actor's feed counter grows by 1 and
    the karma by 5 (the user row is created on first use), with the
    disturb counter untouched. *)
Theorem cmd_feed_awake (cfg : Config) (db : DB) (now : Z) (message : Message)
    (chat : Chat) :
  chat_is_private message = false ->
  chats db !! message_chat_id message = Some chat ->
  chat_id chat = message_chat_id message ->
  is_alive chat = true -> is_sleeping chat = false ->
  vitals_in_range chat ->
  let new_hunger := Z.min 100 (hunger chat + 30) in
  let new_mood := Z.min 100 (mood chat + 5) in
  let r := cmd_feed cfg db now message in
  let key := (from_user_id message, message_chat_id message) in
  snd r = ActionReply (Fed new_hunger new_mood) /\
  (exists chat',
     chats (fst r) !! message_chat_id message = Some chat' /\
     vitals chat' = (new_hunger, new_mood, energy chat, health chat) /\
     xp chat' = xp chat + XP_PER_FEED cfg /\ level chat <= level chat' /\
     is_alive chat' = true /\ is_sleeping chat' = false /\
     pet_stage chat' = pet_stage chat /\ pet_type chat' = pet_type chat) /\
  events (fst r)
  = {| event_chat_id := message_chat_id message; event_type := FEED;
       event_user_id := Some (from_user_id message);
       event_created_at := now |} :: events db /\
  (exists u',
     users (fst r) !! key = Some u' /\
     feed_count u' = from_option feed_count 0 (users db !! key) + 1 /\
     karma_points u' = from_option karma_points 0 (users db !! key) + 5 /\
     play_count u' = from_option play_count 0 (users db !! key) /\
     night_disturb_count u'
     = from_option night_disturb_count 0 (users db !! key)).
Proof.
  intros Hgroup Hrow Hid Halive Hawake (Hh & Hm & He & Hl)
    new_hunger new_mood r key.
  rewrite <- Hid in Hrow.
  destruct (feed_awake cfg db now chat (from_user_id message)
              Hrow Halive Hawake) as (Hans & Hrow' & Husers & Hevents).
  subst r. unfold cmd_feed, ChatCRUD.get.
  rewrite Hgroup, <- Hid, Hrow, check_night_disturbance_awake by exact Hawake.
  destruct (feed cfg db now chat (from_user_id message)) as [db1 result].
  cbn [fst snd] in *. subst result. cbn [success fst snd].
  destruct (increment_stat_twice db1 now (from_user_id message) (chat_id chat)
              "feed_count" "karma_points" 1 5)
    as ((u' & Huser & Hstat) & Hchats & Hev);
    [vm_compute; auto | vm_compute; auto |].
  cbv zeta in Huser, Hchats, Hev. rewrite Hchats, Hev, Hrow', Hevents.
  split; [reflexivity |]. split; [| split; [reflexivity |]].
  - eexists. split; [reflexivity |]. cbn.
    unfold vitals, in_range, ChatCRUD.clamp in *. cbn.
    split_and!; try reflexivity; try assumption.
    + subst new_hunger new_mood.
      rewrite !clamp_id by (unfold in_range; lia). reflexivity.
    + destruct (_ >? _) eqn:Hgt; [apply Z.gtb_lt in Hgt |]; lia.
  - subst key. rewrite <- Hid. exists u'. split; [exact Huser |].
    rewrite <- Husers.
    pose proof (Hstat "feed_count" ltac:(vm_compute; auto 10)) as Hfeed.
    pose proof (Hstat "karma_points" ltac:(vm_compute; auto 10)) as Hkarma.
    pose proof (Hstat "play_count" ltac:(vm_compute; auto 10)) as Hplay.
    pose proof (Hstat "night_disturb_count" ltac:(vm_compute; auto 10))
      as Hnight.
    destruct (users db1 !! (from_user_id message, chat_id chat));
      cbn in Hfeed, Hkarma, Hplay, Hnight |- *; lia.
Qed.

Lemma cmd_feed_awake_witness :
  vitals <$>
    chats (fst (cmd_feed default_config
                  (Spec.store_of (Spec.pet_with_vitals 90 50 50 50 false)) 7
                  Spec.group_message)) !! 1
  = Some (100, 55, 50, 50).
Proof.
  destruct (cmd_feed_awake default_config
              (Spec.store_of (Spec.pet_with_vitals 90 50 50 50 false)) 7
              Spec.group_message (Spec.pet_with_vitals 90 50 50 50 false))
    as (_ & (chat' & Hrow & Hvitals & _) & _).
  - reflexivity.
  - vm_compute. reflexivity.
  - reflexivity.
  - reflexivity.
  - reflexivity.
  - unfold vitals_in_range, in_range. simpl. lia.
  - change (message_chat_id Spec.group_message) with 1 in Hrow.
    rewrite Hrow. cbn. rewrite Hvitals. reflexivity.
Defined.

(** The statistics of the actor before and after two increments, read
    off the statement of [increment_stat_twice]. *)
Ltac actor_stats Hstat :=
  let H1 := fresh in let H2 := fresh in let H3 := fresh in
  let H4 := fresh in let H5 := fresh in let H6 := fresh in
  let H7 := fresh in
  pose proof (Hstat "karma_points" ltac:(vm_compute; auto 10)) as H1;
  pose proof (Hstat "feed_count" ltac:(vm_compute; auto 10)) as H2;
  pose proof (Hstat "play_count" ltac:(vm_compute; auto 10)) as H3;
  pose proof (Hstat "message_count" ltac:(vm_compute; auto 10)) as H4;
  pose proof (Hstat "night_disturb_count" ltac:(vm_compute; auto 10)) as H5;
  pose proof (Hstat "gamble_wins" ltac:(vm_compute; auto 10)) as H6;
  pose proof (Hstat "gamble_losses" ltac:(vm_compute; auto 10)) as H7;
  match type of H1 with
  | context [from_option _ 0 ?row] =>
      destruct row; cbn in H1, H2, H3, H4, H5, H6, H7 |- *
  end;
  split_and!; lia.

(** X5: /play on a living, awake pet with energy below 20 is refused
    as "too tired" and changes nothing; with energy of at least 20 it
    raises mood by 20 (capped at 100), lowers energy by 10 and hunger
    by 5 (not below 0), leaves health, adds the configured game XP,
    logs one PLAY event of the actor and adds 1 to the actor's play
    counter and 3 to the karma. *)
Theorem cmd_play_awake (cfg : Config) (db : DB) (now : Z) (message : Message)
    (chat : Chat) :
  chat_is_private message = false ->
  chats db !! message_chat_id message = Some chat ->
  chat_id chat = message_chat_id message ->
  is_alive chat = true -> is_sleeping chat = false ->
  vitals_in_range chat ->
  let new_mood := Z.min 100 (mood chat + 20) in
  let new_energy := Z.max 0 (energy chat - 10) in
  let new_hunger := Z.max 0 (hunger chat - 5) in
  let r := cmd_play cfg db now message in
  let key := (from_user_id message, message_chat_id message) in
  (energy chat < 20 -> r = (db, ActionReply (Failed TooTired))) /\
  (20 <= energy chat ->
   snd r = ActionReply (Played new_mood new_energy) /\
   (exists chat',
      chats (fst r) !! message_chat_id message = Some chat' /\
      vitals chat' = (new_hunger, new_mood, new_energy, health chat) /\
      xp chat' = xp chat + XP_PER_GAME cfg /\ level chat <= level chat' /\
      is_alive chat' = true /\ is_sleeping chat' = false /\
      pet_stage chat' = pet_stage chat /\ pet_type chat' = pet_type chat) /\
   events (fst r)
   = {| event_chat_id := message_chat_id message; event_type := PLAY;
        event_user_id := Some (from_user_id message);
        event_created_at := now |} :: events db /\
   (exists u',
      users (fst r) !! key = Some u' /\
      play_count u' = from_option play_count 0 (users db !! key) + 1 /\
      karma_points u' = from_option karma_points 0 (users db !! key) + 3 /\
      feed_count u' = from_option feed_count 0 (users db !! key) /\
      night_disturb_count u'
      = from_option night_disturb_count 0 (users db !! key))).
Proof.
  intros Hgroup Hrow Hid Halive Hawake (Hh & Hm & He & Hl)
    new_mood new_energy new_hunger r key.
  rewrite <- Hid in Hrow. subst r. unfold cmd_play, ChatCRUD.get.
  rewrite Hgroup, <- Hid, Hrow, check_night_disturbance_awake by exact Hawake.
  split.
  - intros Htired. unfold play. rewrite Halive, Hawake. cbn [negb].
    destruct (Z.ltb_spec (energy chat) 20); [reflexivity | lia].
  - intros Henergy.
    destruct (play_awake cfg db now chat (from_user_id message)
                Hrow Halive Hawake Henergy) as (Hans & Hrow' & Husers & Hevents).
    destruct (play cfg db now chat (from_user_id message)) as [db1 result].
    cbn [fst snd] in *. subst result. cbn [success fst snd].
    destruct (increment_stat_twice db1 now (from_user_id message) (chat_id chat)
                "play_count" "karma_points" 1 3)
      as ((u' & Huser & Hstat) & Hchats & Hev);
      [vm_compute; auto 10 | vm_compute; auto 10 |].
    cbv zeta in Huser, Hchats, Hev. rewrite Hchats, Hev, Hrow', Hevents.
    split; [reflexivity |]. split; [| split; [reflexivity |]].
    + eexists. split; [reflexivity |]. cbn.
      unfold vitals. cbn. split_and!; try reflexivity; try assumption.
      * subst new_mood new_energy new_hunger.
        rewrite !clamp_id by (unfold in_range in *; lia). reflexivity.
      * destruct (_ >? _) eqn:Hgt; [apply Z.gtb_lt in Hgt |]; lia.
    + subst key. rewrite <- Hid. exists u'. split; [exact Huser |].
      rewrite <- Husers. actor_stats Hstat.
Qed.

Lemma cmd_play_awake_witness :
  cmd_play default_config
    (Spec.store_of (Spec.pet_with_vitals 50 50 15 50 false)) 7 Spec.group_message
  = (Spec.store_of (Spec.pet_with_vitals 50 50 15 50 false),
     ActionReply (Failed TooTired)) /\
  vitals <$>
    chats (fst (cmd_play default_config
                  (Spec.store_of (Spec.pet_with_vitals 3 90 25 50 false)) 7
                  Spec.group_message)) !! 1
  = Some (0, 100, 15, 50).
Proof.
  split.
  - destruct (cmd_play_awake default_config
                (Spec.store_of (Spec.pet_with_vitals 50 50 15 50 false)) 7
                Spec.group_message (Spec.pet_with_vitals 50 50 15 50 false))
      as (Htired & _);
      [ reflexivity | vm_compute; reflexivity | reflexivity | reflexivity
      | reflexivity | unfold vitals_in_range, in_range; simpl; lia | ].
    apply Htired. simpl. lia.
  - destruct (cmd_play_awake default_config
                (Spec.store_of (Spec.pet_with_vitals 3 90 25 50 false)) 7
                Spec.group_message (Spec.pet_with_vitals 3 90 25 50 false))
      as (_ & Hplay);
      [ reflexivity | vm_compute; reflexivity | reflexivity | reflexivity
      | reflexivity | unfold vitals_in_range, in_range; simpl; lia | ].
    + destruct Hplay as (_ & (chat' & Hrow & Hvitals & _) & _);
        [simpl; lia |].
      change (message_chat_id Spec.group_message) with 1 in Hrow.
      rewrite Hrow. cbn. rewrite Hvitals. reflexivity.
Defined.

(** X6: for a living pet /gamble never changes the store: below
    hunger 30 it refuses, otherwise it offers the game; the play button
    then moves hunger by +50 (capped at 100) on a win and by -30 (not
    below 0) on a loss, whatever the hunger is by then, and leaves the
    other vitals and xp; it logs GAMBLE_WIN or GAMBLE_LOSS for the
    actor and adds 1 to the actor's win or loss counter and +10 or -5
    to the karma. *)
Theorem gamble_effect (db : DB) (now : Z) (message : Message) (chat : Chat)
    (won : bool) :
  chat_is_private message = false ->
  chats db !! message_chat_id message = Some chat ->
  chat_id chat = message_chat_id message ->
  is_alive chat = true ->
  in_range (hunger chat) ->
  let new_hunger :=
    if won then Z.min 100 (hunger chat + 50) else Z.max 0 (hunger chat - 30) in
  let r := callback_gamble_play db now message won in
  let key := (from_user_id message, message_chat_id message) in
  cmd_gamble db message
  = (db, if hunger chat <? 30 then TooHungryToGamble else GambleOffer) /\
  snd r = (if won then GambleWon new_hunger else GambleLost new_hunger) /\
  (exists chat',
     chats (fst r) !! message_chat_id message = Some chat' /\
     vitals chat' = (new_hunger, mood chat, energy chat, health chat) /\
     xp chat' = xp chat /\ level chat' = level chat /\
     is_alive chat' = true /\ is_sleeping chat' = is_sleeping chat) /\
  events (fst r)
  = {| event_chat_id := message_chat_id message;
       event_type := if won then GAMBLE_WIN else GAMBLE_LOSS;
       event_user_id := Some (from_user_id message);
       event_created_at := now |} :: events db /\
  (exists u',
     users (fst r) !! key = Some u' /\
     gamble_wins u'
     = from_option gamble_wins 0 (users db !! key) + (if won then 1 else 0) /\
     gamble_losses u'
     = from_option gamble_losses 0 (users db !! key) + (if won then 0 else 1) /\
     karma_points u'
     = from_option karma_points 0 (users db !! key)
       + (if won then 10 else -5) /\
     feed_count u' = from_option feed_count 0 (users db !! key) /\
     play_count u' = from_option play_count 0 (users db !! key)).
Proof.
  intros Hgroup Hrow Hid Halive Hh new_hunger r key. subst r key.
  split.
  { unfold cmd_gamble, ChatCRUD.get. rewrite Hgroup, Hrow, Halive. cbn [negb].
    destruct (hunger chat <? 30); reflexivity. }
  unfold callback_gamble_play, ChatCRUD.get. rewrite Hrow, Halive. cbn [negb].
  rewrite <- Hid. rewrite <- Hid in Hrow.
  destruct won; cbv zeta; cbn [fst snd].
  - destruct (increment_stat_twice
                (ChatCRUD.update_stats db now (chat_id chat)
                   (Some (Z.min 100 (hunger chat + 50))) None None None)
                now (from_user_id message) (chat_id chat)
                "gamble_wins" "karma_points" 1 10)
      as ((u' & Huser & Hstat) & Hchats & Hev);
      [vm_compute; auto 10 | vm_compute; auto 10 |].
    cbv zeta in Huser, Hchats, Hev.
    rewrite create_event_chats, Hchats, update_stats_lookup, Hrow.
    split; [reflexivity |]. split; [| split].
    + eexists. split; [reflexivity |]. unfold vitals. cbn.
      subst new_hunger. rewrite clamp_id by (unfold in_range in *; lia).
      split_and!; try reflexivity; assumption.
    + cbn [EventCRUD.create events]. rewrite Hev. reflexivity.
    + exists u'. split; [exact Huser |]. cbn [ChatCRUD.update_stats
        with_chats users] in Hstat. actor_stats Hstat.
  - destruct (increment_stat_twice
                (ChatCRUD.update_stats db now (chat_id chat)
                   (Some (Z.max 0 (hunger chat - 30))) None None None)
                now (from_user_id message) (chat_id chat)
                "gamble_losses" "karma_points" 1 (-5))
      as ((u' & Huser & Hstat) & Hchats & Hev);
      [vm_compute; auto 10 | vm_compute; auto 10 |].
    cbv zeta in Huser, Hchats, Hev.
    rewrite create_event_chats, Hchats, update_stats_lookup, Hrow.
    split; [reflexivity |]. split; [| split].
    + eexists. split; [reflexivity |]. unfold vitals. cbn.
      subst new_hunger. rewrite clamp_id by (unfold in_range in *; lia).
      split_and!; try reflexivity; assumption.
    + cbn [EventCRUD.create events]. rewrite Hev. reflexivity.
    + exists u'. split; [exact Huser |]. cbn [ChatCRUD.update_stats
        with_chats users] in Hstat. actor_stats Hstat.
Qed.

Lemma gamble_effect_witness :
  cmd_gamble (Spec.store_of (Spec.pet_with_vitals 20 50 50 50 false))
    Spec.group_message
  = (Spec.store_of (Spec.pet_with_vitals 20 50 50 50 false), TooHungryToGamble)
  /\
  vitals <$>
    chats (fst (callback_gamble_play
                  (Spec.store_of (Spec.pet_with_vitals 20 50 50 50 false)) 7
                  Spec.group_message false)) !! 1
  = Some (0, 50, 50, 50).
Proof.
  destruct (gamble_effect (Spec.store_of (Spec.pet_with_vitals 20 50 50 50 false))
              7 Spec.group_message (Spec.pet_with_vitals 20 50 50 50 false) false)
    as (Hcmd & _ & (chat' & Hrow & Hvitals & _) & _);
    [ reflexivity | vm_compute; reflexivity | reflexivity | reflexivity
    | unfold in_range; simpl; lia | ].
  split; [exact Hcmd |].
  change (message_chat_id Spec.group_message) with 1 in Hrow.
  rewrite Hrow. cbn. rewrite Hvitals. reflexivity.
Defined.

(** ** The sleep check *)

(** X7: after [check_sleep_status] the sleep flag of the row is the
    answer of the night-time check at that moment; a pet that wakes up
    gets 50 energy back (capped at 100), in every other case the energy
    stays; hunger, mood, health, xp, stage, type and the life flag are
    never touched, nor are users or events; and a second check at the
    same moment changes nothing. *)
Theorem check_sleep_status_effect (cfg : Config) (db : DB) (now : Z)
    (chat : Chat) :
  chats db !! chat_id chat = Some chat ->
  in_range (energy chat) ->
  let db' := check_sleep_status cfg db now chat in
  exists chat',
    chats db' !! chat_id chat = Some chat' /\
    is_sleeping chat' = is_night_time cfg now /\
    energy chat'
    = (if is_sleeping chat && negb (is_night_time cfg now)
       then Z.min 100 (energy chat + 50) else energy chat) /\
    hunger chat' = hunger chat /\ mood chat' = mood chat /\
    health chat' = health chat /\ xp chat' = xp chat /\
    pet_stage chat' = pet_stage chat /\ pet_type chat' = pet_type chat /\
    is_alive chat' = is_alive chat /\
    users db' = users db /\ events db' = events db /\
    check_sleep_status cfg db' now chat' = db'.
Proof.
  intros Hrow He db'. subst db'. unfold check_sleep_status. cbv zeta.
  destruct (is_night_time cfg now), (is_sleeping chat) eqn:Hsleep;
    cbn [andb negb orb].
  - exists chat. rewrite Hsleep. split_and!; auto.
  - eexists. cbn. rewrite lookup_alter_eq, Hrow. cbn.
    split_and!; reflexivity.
  - eexists. cbn. rewrite !lookup_alter_eq, Hrow. cbn.
    split_and!; try reflexivity.
    cbn. apply clamp_id. unfold in_range in *. lia.
  - exists chat. rewrite Hsleep. split_and!; auto.
Qed.

Lemma check_sleep_status_effect_witness :
  (fun c => (is_sleeping c, energy c)) <$>
    chats (check_sleep_status default_config
             (Spec.store_of (Spec.pet_with_vitals 50 50 70 50 true)) (12 * 3600)
             (Spec.pet_with_vitals 50 50 70 50 true)) !! 1
  = Some (false, 100).
Proof.
  destruct (check_sleep_status_effect default_config
              (Spec.store_of (Spec.pet_with_vitals 50 50 70 50 true)) (12 * 3600)
              (Spec.pet_with_vitals 50 50 70 50 true))
    as (chat' & Hrow & Hflag & Henergy & _).
  - vm_compute. reflexivity.
  - unfold in_range. simpl. lia.
  - change (chat_id (Spec.pet_with_vitals 50 50 70 50 true)) with 1 in Hrow.
    rewrite Hrow. cbn. rewrite Hflag, Henergy. reflexivity.
Defined.

(** ** What a random event can do *)

(** X8: whatever event fires and whatever entry of its table is
    drawn, the pet's life flag, death time, sleep flag, stage, type and
    behaviour counters stay as they were; xp changes only by the
    textbook box (+50); the good fairy sets all four vitals to 100;
    health can only be lowered by the mouldy box, hunger only by the
    evil troll, energy only by the thunderstorm and mood only by rain
    or thunderstorm; exactly one RANDOM_EVENT entry is logged and no
    user row is touched. *)
Theorem execute_effect (db : DB) (now : Z) (chat : Chat) (ev : RandomEvent) :
  chats db !! chat_id chat = Some chat ->
  vitals_in_range chat ->
  let db' := execute db now chat ev in
  exists chat',
    chats db' !! chat_id chat = Some chat' /\
    (is_alive chat' = is_alive chat /\ death_at chat' = death_at chat /\
     is_sleeping chat' = is_sleeping chat /\
     pet_stage chat' = pet_stage chat /\ pet_type chat' = pet_type chat /\
     cursing_count chat' = cursing_count chat /\
     meme_count chat' = meme_count chat /\
     code_count chat' = code_count chat /\
     caps_count chat' = caps_count chat) /\
    xp chat'
    = xp chat + match ev with FindBoxEvent BoxTextbook => 50 | _ => 0 end /\
    (ev = VisitorEvent GoodFairy -> vitals chat' = (100, 100, 100, 100)) /\
    (health chat' < health chat ->
     ev = FindBoxEvent BoxMold /\ health chat' = Z.max 0 (health chat - 20)) /\
    (hunger chat' < hunger chat ->
     ev = VisitorEvent EvilTroll /\ hunger chat' = Z.max 0 (hunger chat - 30)) /\
    (energy chat' < energy chat ->
     ev = WeatherEvent Thunderstorm /\
     energy chat' = Z.max 0 (energy chat - 15)) /\
    (mood chat' < mood chat ->
     ev = WeatherEvent Rain \/ ev = WeatherEvent Thunderstorm) /\
    events db'
    = {| event_chat_id := chat_id chat; event_type := RANDOM_EVENT;
         event_user_id := None; event_created_at := now |} :: events db /\
    users db' = users db.
Proof.
  intros Hrow (Hh & Hm & He & Hl) db'. subst db'. unfold in_range in *.
  destruct ev as [[] | [] | []];
    unfold execute, execute_box, execute_visitor, execute_weather; cbv zeta;
    rewrite create_event_chats, ?update_stats_lookup, ?add_xp_lookup, Hrow;
    (eexists; split; [reflexivity |]);
    cbn [EventCRUD.create events users ChatCRUD.update_stats with_chats];
    rewrite ?add_xp_users, ?add_xp_events;
    cbn; unfold ChatCRUD.clamp;
    (split_and!; try reflexivity; try discriminate; try lia;
     try (intros; split; [reflexivity | lia]); auto).
Qed.

Lemma execute_effect_witness :
  vitals <$>
    chats (execute (Spec.store_of (Spec.pet_with_vitals 10 20 30 40 false)) 7
             (Spec.pet_with_vitals 10 20 30 40 false)
             (VisitorEvent GoodFairy)) !! 1
  = Some (100, 100, 100, 100).
Proof.
  destruct (execute_effect (Spec.store_of (Spec.pet_with_vitals 10 20 30 40 false))
              7 (Spec.pet_with_vitals 10 20 30 40 false) (VisitorEvent GoodFairy))
    as (chat' & Hrow & _ & _ & Hfairy & _).
  - vm_compute. reflexivity.
  - unfold vitals_in_range, in_range. simpl. lia.
  - change (chat_id (Spec.pet_with_vitals 10 20 30 40 false)) with 1 in Hrow.
    rewrite Hrow. cbn. rewrite Hfairy; reflexivity.
Defined.

(** ** Creating chats and users *)

(** X9: [ChatCRUD.get_or_create] returns the row of the chat when
    there is one and leaves the store as it is; otherwise it inserts a
    pet with the birth defaults (vitals 100, xp 0, level 1, EGG,
    NORMAL, alive, awake, counters 0) and returns it; in both cases the
    returned pet is the row [get] finds afterwards, a second call
    changes nothing, and the rows of other chats, the users and the
    events are untouched. *)
Theorem chat_get_or_create_effect (db : DB) (now cid : Z) :
  let r := ChatCRUD.get_or_create db now cid in
  (forall c, chats db !! cid = Some c -> r = (db, c)) /\
  (chats db !! cid = None -> snd r = new_chat cid now) /\
  ChatCRUD.get (fst r) cid = Some (snd r) /\
  ChatCRUD.get_or_create (fst r) now cid = r /\
  (forall other, other <> cid -> chats (fst r) !! other = chats db !! other) /\
  users (fst r) = users db /\ events (fst r) = events db.
Proof.
  intros r. subst r. unfold ChatCRUD.get_or_create, ChatCRUD.get.
  destruct (chats db !! cid) as [c |] eqn:Hrow; cbn [fst snd].
  - rewrite Hrow. split_and!; try reflexivity; try discriminate.
    intros c0 [= <-]. reflexivity.
  - cbn. rewrite lookup_insert_eq. split_and!; try reflexivity; try discriminate.
    intros other Hne. apply lookup_insert_ne. congruence.
Qed.

Lemma chat_get_or_create_effect_witness :
  ChatCRUD.get_or_create Spec.born_db 9 1 = (Spec.born_db, new_chat 1 0) /\
  snd (ChatCRUD.get_or_create Spec.born_db 9 2) = new_chat 2 9.
Proof.
  destruct (chat_get_or_create_effect Spec.born_db 9 1) as (Hsome & _).
  destruct (chat_get_or_create_effect Spec.born_db 9 2) as (_ & Hnone & _).
  split.
  - apply Hsome. vm_compute. reflexivity.
  - apply Hnone. vm_compute. reflexivity.
Defined.

(** X10: [UserCRUD.get_or_create] never changes a statistic: a user
    seen for the first time gets a row with all seven counters 0, a
    known user keeps every counter; the stored name of a known user is
    replaced only by a non-empty name that differs from it, so a call
    without names (as [increment_stat] makes it) keeps both names;
    other users, chats and events are untouched. *)
Theorem user_get_or_create_effect (db : DB) (now uid cid : Z)
    (uname fname : option string) :
  let r := UserCRUD.get_or_create db now uid cid uname fname in
  users (fst r) !! (uid, cid) = Some (snd r) /\
  (forall stat_name,
     user_stat stat_name (snd r)
     = from_option (user_stat stat_name) 0 (users db !! (uid, cid))) /\
  (users db !! (uid, cid) = None ->
   snd r = new_user uid cid uname fname now) /\
  (forall u, users db !! (uid, cid) = Some u ->
     user_id (snd r) = user_id u /\ user_chat_id (snd r) = user_chat_id u /\
     first_interaction (snd r) = first_interaction u /\
     user_last_interaction (snd r) = now /\
     (uname = None \/ uname = Some "" \/ uname = username u ->
      username (snd r) = username u) /\
     (forall s, uname = Some s -> s <> "" -> username (snd r) = Some s) /\
     (fname = None \/ fname = Some "" \/ fname = first_name u ->
      first_name (snd r) = first_name u) /\
     (forall s, fname = Some s -> s <> "" -> first_name (snd r) = Some s)) /\
  (forall key, key <> (uid, cid) -> users (fst r) !! key = users db !! key) /\
  chats (fst r) = chats db /\ events (fst r) = events db.
Proof.
  assert (forall given current : option string,
            (given = None \/ given = Some "" \/ given = current ->
             UserCRUD.refresh_name given current = current) /\
            (forall s, given = Some s -> s <> "" ->
               UserCRUD.refresh_name given current = Some s)) as Hname.
  { intros given current. unfold UserCRUD.refresh_name. split.
    - intros [-> | [-> | ->]]; [reflexivity | reflexivity |].
      destruct current as [s |]; [| reflexivity].
      rewrite bool_decide_eq_true_2 by reflexivity.
      rewrite andb_false_r. reflexivity.
    - intros s -> Hne.
      destruct (String.eqb_spec s ""); [contradiction |]. cbn.
      destruct (bool_decide (current = Some s)) eqn:Hsame; [| reflexivity].
      apply bool_decide_eq_true_1 in Hsame. cbn. congruence. }
  intros r. subst r. unfold UserCRUD.get_or_create.
  destruct (users db !! (uid, cid)) as [u |] eqn:Hrow; cbn [fst snd].
  - cbn. rewrite lookup_insert_eq. split_and!; try reflexivity; try discriminate.
    intros u0 [= <-]. cbn.
    split_and!; try reflexivity; apply Hname.
    + intros key Hne. apply lookup_insert_ne. congruence.
  - cbn. rewrite lookup_insert_eq. split_and!; try reflexivity; try discriminate.
    + intros stat_name. unfold user_stat. cbn.
      repeat match goal with |- context [if ?b then _ else _] => destruct b end;
        reflexivity.
    + intros key Hne. apply lookup_insert_ne. congruence.
Qed.

Lemma user_get_or_create_effect_witness :
  snd (UserCRUD.get_or_create Spec.born_db 9 42 1 (Some "ann") None)
  = new_user 42 1 (Some "ann") None 9 /\
  username
    (snd (UserCRUD.get_or_create
            (fst (UserCRUD.get_or_create Spec.born_db 9 42 1 (Some "ann") None))
            10 42 1 (Some "") None))
  = Some "ann".
Proof.
  split.
  - apply (user_get_or_create_effect Spec.born_db 9 42 1 (Some "ann") None).
    vm_compute. reflexivity.
  - destruct (user_get_or_create_effect
                (fst (UserCRUD.get_or_create Spec.born_db 9 42 1
                        (Some "ann") None))
                10 42 1 (Some "") None) as (_ & _ & _ & Hknown & _).
    destruct (Hknown (new_user 42 1 (Some "ann") None 9))
      as (_ & _ & _ & _ & Hkeep & _); [vm_compute; reflexivity |].
    rewrite Hkeep; [reflexivity | right; left; reflexivity].
Defined.

(** ** /start *)

(** X11: /start in a private chat, and /start for a living pet, change
    nothing.  The first /start of a group chat creates the pet with its
    birth defaults and answers that the pet already lives: no BIRTH
    event is logged then, the event log and the users stay as they
    were.  Only the /start that revives a dead pet logs BIRTH, exactly
    once, and it answers "born". *)
Theorem cmd_start_effect (db : DB) (now : Z) (message : Message) :
  let r := cmd_start db now message in
  let cid := message_chat_id message in
  (chat_is_private message = true -> r = (db, Greeting)) /\
  (chat_is_private message = false ->
   (forall c, chats db !! cid = Some c -> is_alive c = true ->
      r = (db, PetAlreadyLives)) /\
   (chats db !! cid = None ->
    snd r = PetAlreadyLives /\
    chats (fst r) = <[cid := new_chat cid now]> (chats db) /\
    users (fst r) = users db /\ events (fst r) = events db) /\
   (forall c, chats db !! cid = Some c -> is_alive c = false ->
      snd r = PetBorn /\
      chats (fst r) = <[cid := ChatCRUD.set_revived now c]> (chats db) /\
      users (fst r) = users db /\
      events (fst r)
      = {| event_chat_id := cid; event_type := BIRTH; event_user_id := None;
           event_created_at := now |} :: events db)).
Proof.
  intros r cid. subst r cid. unfold cmd_start, ChatCRUD.get_or_create.
  split; [intros ->; reflexivity |]. intros ->.
  split_and!.
  - intros c Hrow Halive. rewrite Hrow. cbn. rewrite Halive. reflexivity.
  - intros ->. cbn. split_and!; reflexivity.
  - intros c Hrow Hdead. rewrite Hrow. cbn. rewrite Hdead. cbn.
    split_and!; try reflexivity.
    apply map_eq. intros key.
    destruct (decide (message_chat_id message = key)) as [<- | Hne].
    + rewrite lookup_alter_eq, lookup_insert_eq, Hrow. reflexivity.
    + rewrite lookup_alter_ne, lookup_insert_ne by exact Hne. reflexivity.
Qed.

Lemma cmd_start_effect_witness :
  cmd_start Spec.born_db 9 Spec.group_message = (Spec.born_db, PetAlreadyLives) /\
  events Spec.born_db = [] /\
  (event_type <$>
     events (fst (cmd_start
                    (Spec.store_of
                       (Spec.pet_at_stage TEEN GOBLIN 700 false (new_chat 1 0)))
                    9 Spec.group_message)))
  = [BIRTH].
Proof.
  destruct (cmd_start_effect Spec.born_db 9 Spec.group_message)
    as (_ & Hgroup).
  destruct (Hgroup eq_refl) as (Halive & _).
  destruct (cmd_start_effect System.empty_db 0 Spec.group_message)
    as (_ & Hgroup0).
  destruct (Hgroup0 eq_refl) as (_ & Hnew & _).
  destruct (cmd_start_effect
              (Spec.store_of
                 (Spec.pet_at_stage TEEN GOBLIN 700 false (new_chat 1 0)))
              9 Spec.group_message)
    as (_ & Hgroup1).
  destruct (Hgroup1 eq_refl) as (_ & _ & Hdead).
  split_and!.
  - apply (Halive (new_chat 1 0)); vm_compute; reflexivity.
  - destruct Hnew as (_ & _ & _ & Hevents); [vm_compute; reflexivity |].
    unfold Spec.born_db. rewrite Hevents. reflexivity.
  - destruct (Hdead (Spec.pet_at_stage TEEN GOBLIN 700 false (new_chat 1 0)))
      as (_ & _ & _ & Hevents).
    + vm_compute. reflexivity.
    + reflexivity.
    + rewrite Hevents. reflexivity.
Defined.

(** ** Messages, stickers and photos *)

Lemma increment_behavior_counter_lookup (db : DB) (cid : Z) (name : string)
    (amount : Z) :
  In name ChatCRUD.valid_counters ->
  chats (ChatCRUD.increment_behavior_counter db cid name amount) !! cid
  = ChatCRUD.bump_counter name amount <$> chats db !! cid.
Proof.
  intros Hin. unfold ChatCRUD.increment_behavior_counter, ChatCRUD.get.
  apply valid_counter_existsb in Hin. rewrite Hin. cbn [negb].
  destruct (chats db !! cid) as [c |] eqn:Hrow; cbn.
  - apply lookup_insert_eq.
  - exact Hrow.
Qed.

Lemma increment_behavior_counter_users (db : DB) (cid : Z) (name : string)
    (amount : Z) :
  users (ChatCRUD.increment_behavior_counter db cid name amount) = users db.
Proof.
  unfold ChatCRUD.increment_behavior_counter.
  destruct (negb _); [reflexivity |].
  destruct (ChatCRUD.get db cid); reflexivity.
Qed.

Lemma increment_behavior_counter_events (db : DB) (cid : Z) (name : string)
    (amount : Z) :
  events (ChatCRUD.increment_behavior_counter db cid name amount) = events db.
Proof.
  unfold ChatCRUD.increment_behavior_counter.
  destruct (negb _); [reflexivity |].
  destruct (ChatCRUD.get db cid); reflexivity.
Qed.

(** X12: a group message that is a command, that arrives in a private
    chat, for a chat without pet or for a dead pet changes nothing: a
    dead pet earns no xp and no counters.  For a living pet every
    message adds the configured message XP and 1 hunger (capped at
    100), and 1 to the cursing, caps and code counter for each
    classifier that answered yes; energy, health, stage, type and the
    meme counter stay; mood drops by 2 for bad words and by 1 for caps,
    by 3 for a message that is both (not below 0); no audit event is
    logged; and the sender's message counter grows by 1. *)
Theorem handle_group_message_effect (cfg : Config) (db : DB) (now : Z)
    (message : Message) (is_command bad caps code : bool) :
  let db' :=
    handle_group_message cfg db now message is_command bad caps code in
  let cid := message_chat_id message in
  let key := (from_user_id message, cid) in
  (chat_is_private message = true \/ is_command = true \/
   chats db !! cid = None \/
   (exists c, chats db !! cid = Some c /\ is_alive c = false) ->
   db' = db) /\
  (forall chat,
     chat_is_private message = false -> is_command = false ->
     chats db !! cid = Some chat -> chat_id chat = cid ->
     is_alive chat = true -> vitals_in_range chat ->
     (exists chat',
        chats db' !! cid = Some chat' /\
        xp chat' = xp chat + XP_PER_MESSAGE cfg /\
        hunger chat' = Z.min 100 (hunger chat + 1) /\
        energy chat' = energy chat /\ health chat' = health chat /\
        mood chat'
        = Z.max 0 (mood chat - (if bad then 2 else 0) - (if caps then 1 else 0))
        /\
        cursing_count chat' = cursing_count chat + (if bad then 1 else 0) /\
        caps_count chat' = caps_count chat + (if caps then 1 else 0) /\
        code_count chat' = code_count chat + (if code then 1 else 0) /\
        meme_count chat' = meme_count chat /\
        pet_stage chat' = pet_stage chat /\ pet_type chat' = pet_type chat /\
        is_alive chat' = true) /\
     events db' = events db /\
     (exists u',
        users db' !! key = Some u' /\
        message_count u' = from_option message_count 0 (users db !! key) + 1 /\
        karma_points u' = from_option karma_points 0 (users db !! key) /\
        feed_count u' = from_option feed_count 0 (users db !! key))).
Proof.
  intros db' cid key. subst db' cid key. unfold handle_group_message.
  split.
  - intros [-> | [-> | [Hnone | (c & Hrow & Hdead)]]].
    + reflexivity.
    + rewrite orb_true_r. reflexivity.
    + unfold ChatCRUD.get. rewrite Hnone.
      destruct (_ || _); reflexivity.
    + unfold ChatCRUD.get. rewrite Hrow, Hdead.
      destruct (_ || _); reflexivity.
  - intros chat -> -> Hrow Hid Halive (Hh & Hm & He & Hl).
    unfold ChatCRUD.get. rewrite Hrow, Halive. cbn [orb negb]. cbv zeta.
    unfold loaded. rewrite Hid.
    set (db0 := fst (UserCRUD.get_or_create db now (from_user_id message)
                       (message_chat_id message) (from_username message)
                       (from_first_name message))).
    set (db1 := UserCRUD.increment_stat db0 now (from_user_id message)
                  (message_chat_id message) "message_count" 1).
    assert (chats db1 = chats db) as Hchats1.
    { subst db1 db0. rewrite increment_stat_chats.
      apply get_or_create_user_chats. }
    assert (events db1 = events db) as Hevents1.
    { subst db1 db0. rewrite increment_stat_events.
      apply get_or_create_user_events. }
    assert (exists u',
              users db1 !! (from_user_id message, message_chat_id message)
              = Some u' /\
              forall other, In other UserCRUD.valid_stats ->
                user_stat other u'
                = from_option (user_stat other) 0
                    (users db !! (from_user_id message, message_chat_id message))
                  + (if String.eqb "message_count" other then 1 else 0))
      as (u' & Huser & Hstat).
    { subst db1.
      destruct (increment_stat_row db0 now (from_user_id message)
                  (message_chat_id message) "message_count" 1)
        as (u' & Huser & Hstat); [vm_compute; auto 10 |].
      exists u'. split; [exact Huser |]. intros other Hother.
      rewrite (Hstat other Hother). f_equal. subst db0.
      apply get_or_create_user_stat. }
    clearbody db1. clear db0.
    unfold in_range in *.
    destruct bad, caps, code;
      repeat first
        [ rewrite update_stats_events | rewrite update_stats_users
        | rewrite increment_behavior_counter_events
        | rewrite increment_behavior_counter_users
        | rewrite add_xp_events | rewrite add_xp_users ];
      repeat (first
        [ rewrite update_stats_lookup
        | rewrite increment_behavior_counter_lookup by (vm_compute; auto 10)
        | rewrite add_xp_lookup ]; cbn [fmap option_fmap option_map]);
      rewrite ?Hchats1, ?Hrow; cbn [fmap option_fmap option_map default
        from_option id];
      (split; [eexists; split; [reflexivity |]; cbn; unfold ChatCRUD.clamp;
               split_and!; try reflexivity; try discriminate;
               try exact Halive; intros; lia
              | split; [exact Hevents1 |];
                exists u'; split; [exact Huser |]; actor_stats Hstat ]).
Qed.

Lemma handle_group_message_effect_witness :
  handle_group_message default_config
    (Spec.store_of (Spec.pet_at_stage EGG NORMAL 0 false (new_chat 1 0))) 9
    Spec.group_message false true true true
  = Spec.store_of (Spec.pet_at_stage EGG NORMAL 0 false (new_chat 1 0)) /\
  (fun c => (xp c, hunger c, mood c, cursing_count c, caps_count c)) <$>
    chats (handle_group_message default_config
             (Spec.store_of (Spec.pet_with_vitals 50 50 50 50 false)) 9
             Spec.group_message false true true false) !! 1
  = Some (1, 51, 47, 1, 1).
Proof.
  split.
  - destruct (handle_group_message_effect default_config
                (Spec.store_of (Spec.pet_at_stage EGG NORMAL 0 false
                                  (new_chat 1 0))) 9
                Spec.group_message false true true true) as (Hignored & _).
    apply Hignored. right. right. right.
    exists (Spec.pet_at_stage EGG NORMAL 0 false (new_chat 1 0)).
    split; [vm_compute; reflexivity | reflexivity].
  - destruct (handle_group_message_effect default_config
                (Spec.store_of (Spec.pet_with_vitals 50 50 50 50 false)) 9
                Spec.group_message false true true false)
      as (_ & Hlive).
    destruct (Hlive (Spec.pet_with_vitals 50 50 50 50 false))
      as ((chat' & Hrow & Hxp & Hhunger & _ & _ & Hmood & Hcursing & Hcaps & _)
          & _);
      [ reflexivity | reflexivity | vm_compute; reflexivity | reflexivity
      | reflexivity | unfold vitals_in_range, in_range; simpl; lia | ].
    change (message_chat_id Spec.group_message) with 1 in Hrow.
    rewrite Hrow. cbn. rewrite Hxp, Hhunger, Hmood, Hcursing, Hcaps.
    reflexivity.
Defined.

(** X13: a sticker or a photo for a chat without pet, for a dead pet
    or in a private chat changes nothing.  For a living pet a sticker
    adds 1 to the meme counter and 2 to the mood (capped at 100); a
    photo adds 1 to the cursing and code counters as its caption's
    classifiers say, and, when it has no caption or a caption shorter
    than 50 characters, 1 to the meme counter and 1 to the mood; in
    both cases xp, hunger, energy, health, stage and type stay, and
    neither users nor events are touched. *)
Theorem handle_sticker_photo_effect (db : DB) (now : Z) (message : Message)
    (caption : option (bool * bool * bool)) :
  let cid := message_chat_id message in
  let sticker := handle_sticker db now message in
  let photo := handle_photo db now message caption in
  let bad := match caption with Some (b, _, _) => b | None => false end in
  let code := match caption with Some (_, c, _) => c | None => false end in
  let short := match caption with Some (_, _, s) => s | None => true end in
  (chat_is_private message = true \/ chats db !! cid = None \/
   (exists c, chats db !! cid = Some c /\ is_alive c = false) ->
   sticker = db /\ photo = db) /\
  (forall chat,
     chat_is_private message = false ->
     chats db !! cid = Some chat -> chat_id chat = cid ->
     is_alive chat = true -> in_range (mood chat) ->
     (exists chat',
        chats sticker !! cid = Some chat' /\
        meme_count chat' = meme_count chat + 1 /\
        mood chat' = Z.min 100 (mood chat + 2) /\
        cursing_count chat' = cursing_count chat /\
        code_count chat' = code_count chat /\
        caps_count chat' = caps_count chat /\
        xp chat' = xp chat /\ hunger chat' = hunger chat /\
        energy chat' = energy chat /\ health chat' = health chat /\
        pet_stage chat' = pet_stage chat /\ pet_type chat' = pet_type chat) /\
     (exists chat',
        chats photo !! cid = Some chat' /\
        meme_count chat' = meme_count chat + (if short then 1 else 0) /\
        mood chat' = (if short then Z.min 100 (mood chat + 1) else mood chat) /\
        cursing_count chat' = cursing_count chat + (if bad then 1 else 0) /\
        code_count chat' = code_count chat + (if code then 1 else 0) /\
        caps_count chat' = caps_count chat /\
        xp chat' = xp chat /\ hunger chat' = hunger chat /\
        energy chat' = energy chat /\ health chat' = health chat /\
        pet_stage chat' = pet_stage chat /\ pet_type chat' = pet_type chat) /\
     users sticker = users db /\ events sticker = events db /\
     users photo = users db /\ events photo = events db).
Proof.
  intros cid sticker photo bad code short.
  subst cid sticker photo bad code short.
  unfold handle_sticker, handle_photo, ChatCRUD.get. split.
  - intros [-> | [-> | (c & -> & ->)]].
    + split; reflexivity.
    + destruct (chat_is_private message); split; reflexivity.
    + destruct (chat_is_private message); split; reflexivity.
  - intros chat -> Hrow Hid Halive Hm. rewrite Hrow, Halive. cbn [negb].
    cbv zeta. rewrite Hid. unfold in_range in Hm.
    destruct caption as [[[[] []] []] |];
      repeat first
        [ rewrite update_stats_events | rewrite update_stats_users
        | rewrite increment_behavior_counter_events
        | rewrite increment_behavior_counter_users ];
      repeat (first
        [ rewrite update_stats_lookup
        | rewrite increment_behavior_counter_lookup by (vm_compute; auto 10) ];
        cbn [fmap option_fmap option_map]);
      rewrite ?Hrow; cbn [fmap option_fmap option_map];
      (split_and!; try reflexivity;
       eexists; (split; [reflexivity |]); cbn; unfold ChatCRUD.clamp;
       split_and!; try reflexivity; lia).
Qed.

Lemma handle_sticker_photo_effect_witness :
  handle_sticker
    (Spec.store_of (Spec.pet_at_stage EGG NORMAL 0 false (new_chat 1 0))) 9
    Spec.group_message
  = Spec.store_of (Spec.pet_at_stage EGG NORMAL 0 false (new_chat 1 0)) /\
  (fun c => (meme_count c, mood c)) <$>
    chats (handle_sticker (Spec.store_of (Spec.pet_with_vitals 50 99 50 50 false))
             9 Spec.group_message) !! 1
  = Some (1, 100).
Proof.
  split.
  - destruct (handle_sticker_photo_effect
                (Spec.store_of (Spec.pet_at_stage EGG NORMAL 0 false
                                  (new_chat 1 0))) 9
                Spec.group_message None) as (Hignored & _).
    apply Hignored. right. right.
    exists (Spec.pet_at_stage EGG NORMAL 0 false (new_chat 1 0)).
    split; [vm_compute; reflexivity | reflexivity].
  - destruct (handle_sticker_photo_effect
                (Spec.store_of (Spec.pet_with_vitals 50 99 50 50 false))
                9 Spec.group_message None) as (_ & Hlive).
    destruct (Hlive (Spec.pet_with_vitals 50 99 50 50 false))
      as ((chat' & Hrow & Hmeme & Hmood & _) & _);
      [ reflexivity | vm_compute; reflexivity | reflexivity | reflexivity
      | unfold in_range; simpl; lia | ].
    change (message_chat_id Spec.group_message) with 1 in Hrow.
    rewrite Hrow. cbn. rewrite Hmeme, Hmood. reflexivity.
Defined.

(** ** Every step is a sequence of writes *)

(** The closure lemmas below are stated for a predicate [ok] on chat
    ids, and [oku] on user ids, that says where writes are allowed:
    a property [P] kept by every allowed write is kept by every
    operation whose chat and user are allowed. *)

Section JobClosed.

Variables (cfg : Config) (ok : Z -> Prop) (P : DB -> Prop).
Hypothesis P_job_write :
  forall cid db db', ok cid -> job_write cid db db' -> P db -> P db'.
Hypothesis P_row :
  forall db cid c, P db -> ok cid -> chats db !! cid = Some c -> ok (chat_id c).

Lemma ok_loaded db chat : P db -> ok (chat_id chat) -> ok (chat_id (loaded db chat)).
Proof.
  intros Hp Hok. unfold loaded.
  destruct (chats db !! chat_id chat) as [c |] eqn:Hrow; cbn; [| exact Hok].
  exact (P_row db (chat_id chat) c Hp Hok Hrow).
Qed.

(** One step towards [P] of the result of a straight-line operation. *)
Ltac job_closed_step :=
  match goal with
  | |- P (fst (if ?b then _ else _)) => destruct b
  | |- P (if ?b then _ else _) => destruct b
  | |- P (fst (match ?o with Some _ => _ | None => _ end)) => destruct o
  | |- P (match ?o with Some _ => _ | None => _ end) => destruct o
  | |- P (fst (_, _)) => cbn [fst]
  | |- P _ => assumption
  | |- P _ =>
      eapply P_job_write;
      [ eassumption
      | first [ apply job_update_stats | apply job_add_xp
              | apply job_kill_pet | apply job_evolve
              | apply job_update_last_tick | apply job_sleep_flag
              | apply job_event; cbn; auto 6 ] | ]
  end.

Tactic Notation "job_closed_call" ident(d) ident(r) ident(H) :=
  match goal with
  | |- context [match ?call with pair _ _ => _ end] =>
      assert (P (fst call)) as H by eauto 12 using ok_loaded;
      destruct call as [d r]; cbn [fst snd] in H |- *
  end.

Lemma closed_tick_stats db now chat :
  ok (chat_id chat) -> P db -> P (fst (tick_stats cfg db now chat)).
Proof. intros Hok Hp. unfold tick_stats. cbv zeta. repeat job_closed_step. Qed.

Lemma closed_check_sleep_status db now chat :
  ok (chat_id chat) -> P db -> P (check_sleep_status cfg db now chat).
Proof.
  intros Hok Hp. unfold check_sleep_status. cbv zeta. repeat job_closed_step.
Qed.

Lemma closed_check_and_evolve db now chat :
  ok (chat_id chat) -> P db -> P (fst (check_and_evolve db now chat)).
Proof.
  intros Hok Hp. unfold check_and_evolve. cbv zeta. repeat job_closed_step.
Qed.

Lemma closed_execute db now chat ev :
  ok (chat_id chat) -> P db -> P (execute db now chat ev).
Proof.
  intros Hok Hp.
  destruct ev as [[] | [] | []];
    unfold execute, execute_box, execute_visitor, execute_weather;
    cbv zeta; repeat job_closed_step.
Qed.

Lemma closed_trigger_random_event db now chat roll1 ev roll2 :
  ok (chat_id chat) -> P db ->
  P (fst (trigger_random_event db now chat roll1 ev roll2)).
Proof.
  intros Hok Hp. unfold trigger_random_event. repeat job_closed_step.
  apply closed_execute; assumption.
Qed.

Local Hint Resolve closed_tick_stats closed_check_sleep_status
  closed_check_and_evolve closed_execute closed_trigger_random_event : core.

Lemma closed_tick_pet db now chat :
  ok (chat_id chat) -> P db -> P (fst (tick_pet cfg db now chat)).
Proof.
  intros Hok Hp. unfold tick_pet. cbv zeta.
  assert (P (check_sleep_status cfg db now chat)) as Hp0 by auto.
  assert (ok (chat_id (loaded (check_sleep_status cfg db now chat) chat)))
    as Hok0 by auto using ok_loaded.
  job_closed_call db1 answer Hp1. destruct answer as [alive is_critical].
  destruct alive; [| exact Hp1].
  match goal with
  | |- context [check_and_evolve db1 now (loaded db1 ?c)] =>
      assert (ok (chat_id (loaded db1 c))) as Hok1 by auto using ok_loaded
  end.
  job_closed_call db2 evolution Hp2.
  destruct evolution as [[evolved new_stage] new_type]. exact Hp2.
Qed.

Lemma closed_fold_left {A B : Type} (f : A -> B -> A) (store : A -> DB)
    (Q : B -> Prop) (l : list B) (acc : A) :
  (forall a b, Q b -> P (store a) -> P (store (f a b))) ->
  Forall Q l ->
  P (store acc) -> P (store (fold_left f l acc)).
Proof.
  intros Hbody Hl. revert acc.
  induction Hl as [| b l Hb _ IH]; intros acc Hp; cbn; [exact Hp |].
  apply IH. apply Hbody; assumption.
Qed.

Lemma closed_tick_all_pets db now :
  Forall (fun c => ok (chat_id c)) (alive_chats db) ->
  P db -> P (fst (tick_all_pets cfg db now)).
Proof.
  intros Hok Hp. unfold tick_all_pets.
  apply (closed_fold_left _ fst (fun c => ok (chat_id c))); [| exact Hok | exact Hp].
  intros [db1 notes] chat Hchat Hp1. cbn [fst snd] in *.
  assert (P (fst (tick_pet cfg db1 now (loaded db1 chat)))) as Hp2
    by (apply closed_tick_pet; auto using ok_loaded).
  destruct (tick_pet cfg db1 now (loaded db1 chat)). exact Hp2.
Qed.

Lemma closed_trigger_random_events db now rolls :
  Forall (fun c => ok (chat_id c)) (alive_awake_chats db) ->
  P db -> P (fst (trigger_random_events db now rolls)).
Proof.
  intros Hok Hp. unfold trigger_random_events.
  apply (closed_fold_left _ fst (fun c => ok (chat_id c))); [| exact Hok | exact Hp].
  intros [db1 notes] chat Hchat Hp1. cbn [fst snd] in *.
  destruct (rolls (chat_id chat)) as [[roll1 ev] roll2].
  assert (P (fst (trigger_random_event db1 now (loaded db1 chat) roll1 ev roll2)))
    as Hp2 by (apply closed_trigger_random_event; auto using ok_loaded).
  destruct (trigger_random_event db1 now (loaded db1 chat) roll1 ev roll2).
  exact Hp2.
Qed.

Lemma closed_check_sleep_all db now :
  Forall (fun c => ok (chat_id c)) (alive_chats db) ->
  P db -> P (check_sleep_all cfg db now).
Proof.
  intros Hok Hp. unfold check_sleep_all.
  apply (closed_fold_left _ id (fun c => ok (chat_id c))); [| exact Hok | exact Hp].
  intros db1 chat Hchat Hp1. apply closed_check_sleep_status; auto using ok_loaded.
Qed.

End JobClosed.

Section Closed.

Variables (cfg : Config) (ok oku : Z -> Prop) (P : DB -> Prop).
Hypothesis P_write :
  forall cid uid db db',
    ok cid -> oku uid -> handler_write cfg cid uid db db' -> P db -> P db'.
Hypothesis P_row :
  forall db cid c, P db -> ok cid -> chats db !! cid = Some c -> ok (chat_id c).

Ltac closed_step :=
  match goal with
  | |- P (fst (if ?b then _ else _)) => destruct b
  | |- P (if ?b then _ else _) => destruct b
  | |- P (fst (match ?o with Some _ => _ | None => _ end)) => destruct o
  | |- P (match ?o with Some _ => _ | None => _ end) => destruct o
  | |- P (fst (_, _)) => cbn [fst]
  | |- P _ => assumption
  | |- P _ =>
      eapply P_write;
      [ | | first [ apply handler_update_stats
                  | apply handler_add_xp; cbn; auto
                  | apply handler_counter
                  | apply handler_event; cbn; auto 6
                  | apply handler_user
                  | apply handler_stat; cbn; auto 12 ] | ];
      [ eassumption | eassumption | ]
  end.

Tactic Notation "closed_call" ident(d) ident(r) ident(H) :=
  match goal with
  | |- context [match ?call with pair _ _ => _ end] =>
      assert (P (fst call)) as H by eauto 12;
      destruct call as [d r]; cbn [fst snd] in H |- *
  end.

Lemma closed_feed db now chat uid :
  ok (chat_id chat) -> oku uid -> P db -> P (fst (feed cfg db now chat uid)).
Proof. intros Hok Hoku Hp. unfold feed. cbv zeta. repeat closed_step. Qed.

Lemma closed_play db now chat uid :
  ok (chat_id chat) -> oku uid -> P db -> P (fst (play cfg db now chat uid)).
Proof. intros Hok Hoku Hp. unfold play. cbv zeta. repeat closed_step. Qed.

Lemma closed_disturb_at_night db now chat uid :
  ok (chat_id chat) -> oku uid -> P db ->
  P (fst (disturb_at_night db now chat uid)).
Proof. intros Hok Hoku Hp. unfold disturb_at_night. cbv zeta. repeat closed_step. Qed.

Local Hint Resolve closed_feed closed_play closed_disturb_at_night : core.

Lemma closed_check_night_disturbance db now chat message :
  ok (chat_id chat) -> ok (message_chat_id message) ->
  oku (from_user_id message) -> P db ->
  P (fst (check_night_disturbance db now chat message)).
Proof.
  intros Hok Hokm Hoku Hp. unfold check_night_disturbance.
  destruct (is_sleeping chat); [| exact Hp].
  closed_call db1 result Hp1. destruct result; repeat closed_step.
Qed.

Local Hint Resolve closed_check_night_disturbance : core.

(** The handlers: the chat of the message and its sender are allowed. *)
Section Handler.

Variable message : Message.
Hypothesis ok_chat : ok (message_chat_id message).
Hypothesis ok_user : oku (from_user_id message).

Lemma closed_cmd_feed db now : P db -> P (fst (cmd_feed cfg db now message)).
Proof.
  intros Hp. unfold cmd_feed, ChatCRUD.get.
  destruct (chat_is_private message); [exact Hp |].
  destruct (chats db !! message_chat_id message) as [chat |] eqn:Hrow;
    [| exact Hp].
  pose proof (P_row db _ chat Hp ok_chat Hrow) as Hok.
  closed_call db1 reply Hp1. destruct reply; [exact Hp1 |].
  closed_call db2 result Hp2. repeat closed_step.
Qed.

Lemma closed_cmd_play db now : P db -> P (fst (cmd_play cfg db now message)).
Proof.
  intros Hp. unfold cmd_play, ChatCRUD.get.
  destruct (chat_is_private message); [exact Hp |].
  destruct (chats db !! message_chat_id message) as [chat |] eqn:Hrow;
    [| exact Hp].
  pose proof (P_row db _ chat Hp ok_chat Hrow) as Hok.
  closed_call db1 reply Hp1. destruct reply; [exact Hp1 |].
  closed_call db2 result Hp2. repeat closed_step.
Qed.

Lemma closed_cmd_gamble db : P db -> P (fst (cmd_gamble db message)).
Proof. intros Hp. unfold cmd_gamble. repeat closed_step. Qed.

Lemma closed_callback_gamble_play db now won :
  P db -> P (fst (callback_gamble_play db now message won)).
Proof.
  intros Hp. unfold callback_gamble_play, ChatCRUD.get. cbv zeta.
  destruct (chats db !! message_chat_id message) as [chat |] eqn:Hrow;
    [| exact Hp].
  pose proof (P_row db _ chat Hp ok_chat Hrow) as Hok.
  repeat closed_step.
Qed.

Lemma closed_handle_group_message db now is_command bad caps code :
  P db -> P (handle_group_message cfg db now message is_command bad caps code).
Proof.
  intros Hp. unfold handle_group_message, ChatCRUD.get. cbv zeta.
  destruct (chat_is_private message || is_command); [exact Hp |].
  destruct (chats db !! message_chat_id message) as [chat |] eqn:Hrow;
    [| exact Hp].
  pose proof (P_row db _ chat Hp ok_chat Hrow) as Hok.
  destruct bad, caps, code; repeat closed_step.
Qed.

Lemma closed_handle_sticker db now : P db -> P (handle_sticker db now message).
Proof.
  intros Hp. unfold handle_sticker, ChatCRUD.get. cbv zeta.
  destruct (chat_is_private message); [exact Hp |].
  destruct (chats db !! message_chat_id message) as [chat |] eqn:Hrow;
    [| exact Hp].
  pose proof (P_row db _ chat Hp ok_chat Hrow) as Hok.
  repeat closed_step.
Qed.

Lemma closed_handle_photo db now caption :
  P db -> P (handle_photo db now message caption).
Proof.
  intros Hp. unfold handle_photo, ChatCRUD.get. cbv zeta.
  destruct (chat_is_private message); [exact Hp |].
  destruct (chats db !! message_chat_id message) as [chat |] eqn:Hrow;
    [| exact Hp].
  pose proof (P_row db _ chat Hp ok_chat Hrow) as Hok.
  destruct caption as [[[bad code] short] |]; repeat closed_step.
Qed.

End Handler.

End Closed.

(** ** Pets of reachable stores *)

Lemma step_quiet_or_start (cfg : Config) (db db' : DB) :
  step cfg db db' <->
  quiet_step cfg db db' \/
  exists now message, db' = fst (cmd_start db now message).
Proof.
  split.
  - intros Hstep. destruct Hstep; try (left; constructor).
    right. eauto.
  - intros [Hquiet | (now & message & ->)].
    + destruct Hquiet; constructor.
    + constructor.
Qed.

Lemma add_xp_lookup_ne (db : DB) (cid amount other : Z) :
  cid <> other ->
  chats (fst (ChatCRUD.add_xp db cid amount)) !! other = chats db !! other.
Proof.
  intros Hne. unfold ChatCRUD.add_xp.
  destruct (ChatCRUD.get db cid); [| reflexivity].
  cbn. apply lookup_insert_ne. exact Hne.
Qed.

(** The three things /start can do to the store: nothing, insert the
    row of a new pet, or revive a dead pet and log its birth. *)
Lemma cmd_start_store (db : DB) (now : Z) (message : Message) :
  let cid := message_chat_id message in
  fst (cmd_start db now message) = db \/
  (chats db !! cid = None /\
   fst (cmd_start db now message)
   = with_chats (insert cid (new_chat cid now)) db) \/
  (exists c,
     chats db !! cid = Some c /\ is_alive c = false /\
     fst (cmd_start db now message)
     = EventCRUD.create (ChatCRUD.revive_pet db now cid) now cid BIRTH None).
Proof.
  cbv zeta. unfold cmd_start, ChatCRUD.get_or_create.
  destruct (chat_is_private message); [left; reflexivity |].
  destruct (chats db !! message_chat_id message) as [c |] eqn:Hrow.
  - destruct (is_alive c) eqn:Hlife; cbn; [left; reflexivity |].
    right. right. exists c. auto.
  - right. left. split; reflexivity.
Qed.

Lemma alter_row (f : Chat -> Chat) (key cid : Z) (m : gmap Z Chat) :
  alter f key m !! cid = m !! cid \/
  exists c, m !! cid = Some c /\ alter f key m !! cid = Some (f c).
Proof.
  destruct (decide (key = cid)) as [-> | Hne].
  - rewrite lookup_alter_eq. destruct (m !! cid) as [c |]; [right | left]; eauto.
  - left. apply lookup_alter_ne. exact Hne.
Qed.

Lemma add_xp_row (cfg : Config) (db : DB) (cid amount other : Z) :
  In amount (xp_amounts cfg) ->
  chats (fst (ChatCRUD.add_xp db cid amount)) !! other = chats db !! other \/
  exists c f,
    chats db !! other = Some c /\
    chats (fst (ChatCRUD.add_xp db cid amount)) !! other = Some (f c) /\
    row_update cfg f.
Proof.
  intros Hamount. destruct (decide (cid = other)) as [-> | Hne].
  - rewrite add_xp_lookup. destruct (chats db !! other) as [c |]; [| left; auto].
    right. exists c, (ChatCRUD.set_xp amount).
    split_and!; try reflexivity. constructor. exact Hamount.
  - left. apply add_xp_lookup_ne. exact Hne.
Qed.

Lemma job_write_row (cfg : Config) (cid : Z) (db db' : DB) :
  job_write cid db db' ->
  (forall other, other <> cid -> chats db' !! other = chats db !! other) /\
  (chats db' !! cid = chats db !! cid \/
   exists c f,
     chats db !! cid = Some c /\ chats db' !! cid = Some (f c) /\
     row_update cfg f).
Proof.
  intros Hwrite.
  destruct Hwrite;
    try (unfold ChatCRUD.update_stats, ChatCRUD.kill_pet, ChatCRUD.evolve,
           ChatCRUD.update_last_tick, with_chats; cbn [chats];
         match goal with
         | |- context [alter ?f cid (chats ?d)] =>
             split;
             [ intros other Hne; apply lookup_alter_ne; congruence
             | destruct (alter_row f cid cid (chats d))
                 as [Hsame | (c & Hrow & Hrow')];
               [left; exact Hsame |];
               right; exists c, f; split_and!; try assumption; constructor ]
         end).
  - split; [intros other Hne; apply add_xp_lookup_ne; congruence |].
    apply add_xp_row. unfold xp_amounts. cbn. auto.
  - split; [reflexivity | left; reflexivity].
Qed.

Lemma handler_write_row (cfg : Config) (cid uid : Z) (db db' : DB) :
  handler_write cfg cid uid db db' ->
  (forall other, other <> cid -> chats db' !! other = chats db !! other) /\
  (chats db' !! cid = chats db !! cid \/
   exists c f,
     chats db !! cid = Some c /\ chats db' !! cid = Some (f c) /\
     row_update cfg f).
Proof.
  intros Hwrite. destruct Hwrite.
  - apply (job_write_row cfg). constructor.
  - split; [intros other Hne; apply add_xp_lookup_ne; congruence |].
    apply add_xp_row. unfold xp_amounts. cbn in *. intuition.
  - unfold ChatCRUD.increment_behavior_counter, ChatCRUD.get.
    destruct (negb _); [split; [reflexivity | left; reflexivity] |].
    destruct (chats db !! cid) as [c |] eqn:Hrow;
      [| split; [reflexivity | left; congruence]].
    split.
    + intros other Hne. cbn. apply lookup_insert_ne. congruence.
    + right. exists c, (ChatCRUD.bump_counter name 1).
      split_and!; [congruence | apply lookup_insert_eq | constructor].
  - split; [reflexivity | left; reflexivity].
  - rewrite get_or_create_user_chats. split; [reflexivity | left; reflexivity].
  - rewrite increment_stat_chats. split; [reflexivity | left; reflexivity].
Qed.

Lemma write_row (cfg : Config) (cid uid : Z) (db db' : DB) :
  write cfg cid uid db db' ->
  (forall other, other <> cid -> chats db' !! other = chats db !! other) /\
  (chats db' !! cid = chats db !! cid \/
   exists c f,
     chats db !! cid = Some c /\ chats db' !! cid = Some (f c) /\
     row_update cfg f).
Proof.
  intros [d d' Hjob | d d' Hhandler];
    [apply job_write_row | apply (handler_write_row cfg cid uid)]; assumption.
Qed.

(** What a write does to the row of any chat: nothing, or one of the
    row updates of crud.py. *)
Lemma write_row_any (cfg : Config) (cid uid : Z) (db db' : DB) (key : Z) :
  write cfg cid uid db db' ->
  chats db' !! key = chats db !! key \/
  exists c f,
    chats db !! key = Some c /\ chats db' !! key = Some (f c) /\
    row_update cfg f.
Proof.
  intros Hwrite. destruct (write_row cfg cid uid db db' Hwrite) as (Hframe & Hrow).
  destruct (decide (key = cid)) as [-> | Hne]; [exact Hrow | left; auto].
Qed.

Lemma Forall_trivial {A : Type} (l : list A) : Forall (fun _ => True) l.
Proof. apply Forall_forall. auto. Qed.

(** A property that every write of the jobs keeps is kept by every run
    of a job. *)
Lemma closed_job_step (cfg : Config) (P : DB -> Prop) (db db' : DB) :
  (forall cid d d', job_write cid d d' -> P d -> P d') ->
  job_step cfg db db' -> P db -> P db'.
Proof.
  intros P_job_write Hstep Hp.
  destruct Hstep;
    [ apply (closed_tick_all_pets cfg (fun _ => True) P)
    | apply (closed_trigger_random_events (fun _ => True) P)
    | apply (closed_check_sleep_all cfg (fun _ => True) P) ];
    eauto using Forall_trivial.
Qed.

(** A property that every write keeps is kept by every step other
    than /start. *)
Lemma closed_quiet_step (cfg : Config) (P : DB -> Prop) (db db' : DB) :
  (forall cid uid d d', write cfg cid uid d d' -> P d -> P d') ->
  quiet_step cfg db db' -> P db -> P db'.
Proof.
  intros P_write Hstep Hp.
  assert (forall cid uid d d',
            True -> True -> handler_write cfg cid uid d d' -> P d -> P d')
    as P_handler_write
    by (intros cid uid d d' _ _ Hw; apply (P_write cid uid), write_handler, Hw).
  assert (forall cid d d', True -> job_write cid d d' -> P d -> P d')
    as P_job_write
    by (intros cid d d' _ Hw; apply (P_write cid 0), write_job, Hw).
  destruct Hstep;
    [ apply (closed_cmd_feed cfg (fun _ => True) (fun _ => True) P)
    | apply (closed_cmd_play cfg (fun _ => True) (fun _ => True) P)
    | apply (closed_cmd_gamble P)
    | apply (closed_callback_gamble_play cfg (fun _ => True) (fun _ => True) P)
    | apply (closed_handle_group_message cfg (fun _ => True) (fun _ => True) P)
    | apply (closed_handle_sticker cfg (fun _ => True) (fun _ => True) P)
    | apply (closed_handle_photo cfg (fun _ => True) (fun _ => True) P)
    | apply (closed_tick_all_pets cfg (fun _ => True) P)
    | apply (closed_trigger_random_events (fun _ => True) P)
    | apply (closed_check_sleep_all cfg (fun _ => True) P) ];
    eauto using Forall_trivial.
Qed.

Lemma write_all_chats (cfg : Config) (Q : Chat -> Prop) (cid0 uid : Z)
    (db db' : DB) :
  row_closed cfg Q -> write cfg cid0 uid db db' ->
  all_chats Q db -> all_chats Q db'.
Proof.
  intros Hclosed Hwrite Hall cid c' Hrow'.
  destruct (write_row_any cfg cid0 uid db db' cid Hwrite)
    as [Hsame | (c & f & Hrow & Hf & Hkind)].
  - rewrite Hsame in Hrow'. exact (Hall cid c' Hrow').
  - rewrite Hf in Hrow'. injection Hrow' as <-.
    specialize (Hall cid c Hrow).
    destruct Hkind;
      [ apply closed_set_stats with cfg | apply closed_set_xp with cfg
      | apply closed_set_dead with cfg | apply closed_set_stage_type with cfg
      | apply closed_set_last_tick with cfg | apply closed_set_sleeping with cfg
      | apply closed_bump_counter with cfg ]; assumption.
Qed.

(** An induction principle for the pets of reachable stores: a
    property that holds for a new pet and for a revived one, and that
    every write to a row keeps, holds for every pet the bot can have. *)
Lemma reachable_all_chats (cfg : Config) (Q : Chat -> Prop) (db : DB) :
  row_closed cfg Q ->
  (forall cid now, Q (new_chat cid now)) ->
  (forall now c, Q (ChatCRUD.set_revived now c)) ->
  reachable cfg db -> all_chats Q db.
Proof.
  intros Hclosed Hnew Hrevived Hreach.
  assert (forall db0, rtc (step cfg) db0 db -> all_chats Q db0 -> all_chats Q db)
    as Hrun.
  { clear Hreach. intros db0 Hrun.
    induction Hrun as [db0 | db0 db1 db2 Hstep _ IH]; intros Hall;
      [exact Hall |].
    apply IH. clear IH.
    apply step_quiet_or_start in Hstep as [Hquiet | (now & message & ->)].
    - eapply (closed_quiet_step cfg (all_chats Q)); [| exact Hquiet | exact Hall].
      intros cid uid d d'. apply write_all_chats. exact Hclosed.
    - intros cid c' Hrow'.
      destruct (cmd_start_store db0 now message)
        as [Hsame | [(Hnone & Hborn) | (c & Hrow & Hlife & Hreborn)]].
      + rewrite Hsame in Hrow'. exact (Hall cid c' Hrow').
      + rewrite Hborn in Hrow'. cbn in Hrow'.
        destruct (decide (message_chat_id message = cid)) as [<- | Hne].
        * rewrite lookup_insert_eq in Hrow'. injection Hrow' as <-.
          apply Hnew.
        * rewrite lookup_insert_ne in Hrow' by exact Hne.
          exact (Hall cid c' Hrow').
      + rewrite Hreborn in Hrow'. cbn in Hrow'.
        destruct (decide (message_chat_id message = cid)) as [<- | Hne].
        * rewrite lookup_alter_eq, Hrow in Hrow'. injection Hrow' as <-.
          apply Hrevived.
        * rewrite lookup_alter_ne in Hrow' by exact Hne.
          exact (Hall cid c' Hrow'). }
  apply (Hrun empty_db Hreach). intros cid c. cbn. rewrite lookup_empty.
  discriminate.
Qed.

Lemma lifecycle_row_closed (cfg : Config) :
  row_closed cfg (fun c => lifecycle_ok c /\ counters_ok c).
Proof.
  split; intros; destruct_and!;
    (split; [unfold lifecycle_ok in *; cbn; try assumption
            | unfold counters_ok in *; cbn; try assumption]).
  - intuition congruence.
  - destruct_and!.
    repeat match goal with |- context [if ?b then _ else _] => destruct b end;
      split_and!; lia.
Qed.

(** X14: in every store the bot can reach, every pet is alive exactly
    when it has no death time, and none of its four behaviour counters
    is negative. *)
Theorem reachable_lifecycle (cfg : Config) (db : DB) (cid : Z) (c : Chat) :
  reachable cfg db ->
  chats db !! cid = Some c ->
  (is_alive c = true <-> death_at c = None) /\
  0 <= cursing_count c /\ 0 <= meme_count c /\
  0 <= code_count c /\ 0 <= caps_count c.
Proof.
  intros Hreach Hrow.
  assert (all_chats (fun c => lifecycle_ok c /\ counters_ok c) db) as Hall.
  { apply (reachable_all_chats cfg); [apply lifecycle_row_closed | | | exact Hreach].
    - intros. split; [unfold lifecycle_ok; cbn; tauto |].
      unfold counters_ok. cbn. lia.
    - intros. split; [unfold lifecycle_ok; cbn; tauto |].
      unfold counters_ok. cbn. lia. }
  exact (Hall cid c Hrow).
Qed.

Lemma reachable_lifecycle_witness :
  (is_alive (new_chat 1 0) = true <-> death_at (new_chat 1 0) = None) /\
  0 <= cursing_count (new_chat 1 0) /\ 0 <= meme_count (new_chat 1 0) /\
  0 <= code_count (new_chat 1 0) /\ 0 <= caps_count (new_chat 1 0).
Proof.
  apply (reachable_lifecycle default_config Spec.born_db 1).
  - apply born_db_reachable.
  - vm_compute. reflexivity.
Defined.

Lemma level_row_closed (cfg : Config) :
  xp_config_ok cfg -> row_closed cfg level_ok.
Proof.
  intros (Hmsg & Hfeed & Hgame).
  split; intros; try assumption.
  unfold level_ok in *. cbn.
  assert (0 <= amount) as Hamount.
  { unfold xp_amounts in *. cbn in *. intuition lia. }
  destruct_and!. split; [lia |].
  assert (xp c / 100 <= (xp c + amount) / 100)
    by (apply Z.div_le_mono; lia).
  destruct (Z.gtb_spec ((xp c + amount) / 100 + 1) (level c)); lia.
Qed.

(** X15: when no configured amount of xp is negative, every pet of
    every reachable store has a non-negative xp and the level
    [xp // 100 + 1]. *)
Theorem reachable_level (cfg : Config) (db : DB) (cid : Z) (c : Chat) :
  xp_config_ok cfg ->
  reachable cfg db ->
  chats db !! cid = Some c ->
  0 <= xp c /\ level c = xp c / 100 + 1.
Proof.
  intros Hcfg Hreach Hrow.
  assert (all_chats level_ok db) as Hall.
  { apply (reachable_all_chats cfg level_ok db);
      [apply level_row_closed; exact Hcfg | | | exact Hreach];
      intros; unfold level_ok; cbn; (split; [lia | reflexivity]). }
  exact (Hall cid c Hrow).
Qed.

Lemma fed_db_reachable : reachable default_config fed_db.
Proof.
  apply rtc_r with Spec.born_db; [apply born_db_reachable | apply step_feed].
Qed.

Lemma reachable_level_witness :
  0 <= xp fed_pet /\ level fed_pet = xp fed_pet / 100 + 1.
Proof.
  apply (reachable_level default_config fed_db 1).
  - unfold xp_config_ok. simpl. lia.
  - apply fed_db_reachable.
  - vm_compute. reflexivity.
Defined.

(** ** The event log *)

Lemma write_events (cfg : Config) (cid uid : Z) (db db' : DB) :
  write cfg cid uid db db' ->
  events db' = events db \/ exists e, events db' = e :: events db.
Proof.
  intros [d d' Hjob | d d' Hhandler];
    [destruct Hjob | destruct Hhandler]; try (left; reflexivity).
  - left. apply add_xp_events.
  - right. eexists. reflexivity.
  - left. apply add_xp_events.
  - left. apply increment_behavior_counter_events.
  - right. eexists. reflexivity.
  - left. apply get_or_create_user_events.
  - left. apply increment_stat_events.
Qed.

Lemma step_events (cfg : Config) (db db' : DB) :
  step cfg db db' -> exists added, events db' = added ++ events db.
Proof.
  intros Hstep.
  apply step_quiet_or_start in Hstep as [Hquiet | (now & message & ->)].
  - eapply (closed_quiet_step cfg
              (fun d => exists added, events d = added ++ events db));
      [| exact Hquiet | exists []; reflexivity].
    intros cid uid d d' Hwrite (added & Hd).
    destruct (write_events cfg cid uid d d' Hwrite) as [-> | (e & ->)].
    + exists added. exact Hd.
    + exists (e :: added). rewrite Hd. reflexivity.
  - destruct (cmd_start_store db now message)
      as [-> | [(_ & ->) | (c & _ & _ & ->)]].
    + exists []. reflexivity.
    + exists []. reflexivity.
    + eexists [_]. reflexivity.
Qed.

(** X16: the event log is append-only.  Whatever the bot does, by
    commands, messages and scheduler jobs, the log afterwards is the
    log before with new entries in front: no entry is ever removed or
    rewritten. *)
Theorem event_log_append_only (cfg : Config) (db db' : DB) :
  rtc (step cfg) db db' ->
  exists added, events db' = added ++ events db.
Proof.
  induction 1 as [db | db db1 db2 Hstep _ (added2 & H2)].
  - exists []. reflexivity.
  - destruct (step_events cfg db db1 Hstep) as (added1 & H1).
    exists (added2 ++ added1). rewrite H2, H1. apply app_assoc.
Qed.

Lemma event_log_append_only_witness :
  exists added, events fed_db = added ++ events Spec.born_db.
Proof.
  apply (event_log_append_only default_config).
  apply rtc_once. apply step_feed.
Defined.

(** ** What the steps between two /start commands keep *)

Lemma write_rows_related (cfg : Config) (R : Chat -> Chat -> Prop)
    (cid0 uid : Z) (db0 db db' : DB) :
  row_monotone cfg R -> write cfg cid0 uid db db' ->
  rows_related R db0 db -> rows_related R db0 db'.
Proof.
  intros Hmono Hwrite Hrel cid. specialize (Hrel cid).
  destruct (write_row_any cfg cid0 uid db db' cid Hwrite)
    as [-> | (c & f & Hrow & -> & Hkind)]; [exact Hrel |].
  rewrite Hrow in Hrel. inversion Hrel as [c0 c1 Hc |]; subst.
  constructor. apply (monotone_trans cfg R Hmono) with c; [exact Hc |].
  destruct Hkind;
    [ apply monotone_set_stats with cfg | apply monotone_set_xp with cfg
    | apply monotone_set_dead with cfg | apply monotone_set_stage_type with cfg
    | apply monotone_set_last_tick with cfg | apply monotone_set_sleeping with cfg
    | apply monotone_bump_counter with cfg ]; assumption.
Qed.

Lemma rows_related_refl (cfg : Config) (R : Chat -> Chat -> Prop) (db : DB) :
  row_monotone cfg R -> rows_related R db db.
Proof.
  intros Hmono cid. destruct (chats db !! cid) as [c |]; constructor.
  apply (monotone_refl cfg R Hmono).
Qed.

Lemma rows_related_trans (cfg : Config) (R : Chat -> Chat -> Prop)
    (db1 db2 db3 : DB) :
  row_monotone cfg R ->
  rows_related R db1 db2 -> rows_related R db2 db3 -> rows_related R db1 db3.
Proof.
  intros Hmono H12 H23 cid. specialize (H12 cid). specialize (H23 cid).
  destruct H12 as [c1 c2 Hc |]; inversion H23; subst; constructor.
  eapply (monotone_trans cfg R Hmono); eassumption.
Qed.

(** Between two /start commands, the rows are the rows of the same
    chats, and each is related to what it was by every relation that
    the row updates of crud.py respect. *)
Lemma quiet_steps_rows_related (cfg : Config) (R : Chat -> Chat -> Prop)
    (db db' : DB) :
  row_monotone cfg R -> rtc (quiet_step cfg) db db' -> rows_related R db db'.
Proof.
  intros Hmono Hrun.
  induction Hrun as [db | db db1 db2 Hstep _ IH].
  - apply (rows_related_refl cfg). exact Hmono.
  - apply (rows_related_trans cfg R db db1 db2 Hmono); [| exact IH].
    eapply (closed_quiet_step cfg (rows_related R db)); [| exact Hstep |].
    + intros cid uid d d'. apply write_rows_related. exact Hmono.
    + apply (rows_related_refl cfg). exact Hmono.
Qed.

Lemma stays_dead_monotone (cfg : Config) :
  row_monotone cfg
    (fun before after =>
       chat_id after = chat_id before /\
       pet_name after = pet_name before /\
       created_at after = created_at before /\
       (is_alive before = false -> is_alive after = false)).
Proof.
  split; intros; cbn; try tauto.
  destruct_and!. split_and!; try congruence. auto.
Qed.

(** X17: between two /start commands no pet is created, removed or
    revived.  Over any run of steps other than /start, a chat has a
    row afterwards exactly when it had one before; the row keeps its
    chat id, its pet name and its creation time; and a pet that was
    dead is still dead. *)
Theorem only_start_creates_or_revives (cfg : Config) (db db' : DB) (cid : Z) :
  rtc (quiet_step cfg) db db' ->
  (chats db !! cid = None -> chats db' !! cid = None) /\
  (forall c, chats db !! cid = Some c ->
     exists c',
       chats db' !! cid = Some c' /\
       chat_id c' = chat_id c /\ pet_name c' = pet_name c /\
       created_at c' = created_at c /\
       (is_alive c = false -> is_alive c' = false)).
Proof.
  intros Hrun.
  pose proof (quiet_steps_rows_related cfg _ db db'
                (stays_dead_monotone cfg) Hrun cid) as Hrel.
  split.
  - intros Hnone. rewrite Hnone in Hrel. inversion Hrel. reflexivity.
  - intros c Hrow. rewrite Hrow in Hrel.
    inversion Hrel as [c0 c' Hc |]; subst. exists c'. tauto.
Qed.

Lemma only_start_creates_or_revives_witness :
  chats fed_db !! 2 = None /\
  exists c',
    chats (fst (cmd_feed default_config (Spec.store_of dead_pet) noon
                  Spec.group_message)) !! 1 = Some c' /\
    is_alive c' = false.
Proof.
  split.
  - apply (only_start_creates_or_revives default_config Spec.born_db fed_db 2).
    + apply rtc_once. apply quiet_feed.
    + vm_compute. reflexivity.
  - destruct (only_start_creates_or_revives default_config
                (Spec.store_of dead_pet)
                (fst (cmd_feed default_config (Spec.store_of dead_pet) noon
                        Spec.group_message)) 1) as (_ & Hrow).
    + apply rtc_once. apply quiet_feed.
    + destruct (Hrow dead_pet) as (c' & Hrow' & _ & _ & _ & Hdead);
        [vm_compute; reflexivity |].
      exists c'. split; [exact Hrow' | apply Hdead; reflexivity].
Defined.

Lemma progress_monotone (cfg : Config) :
  row_monotone cfg
    (fun before after =>
       level before <= level after /\
       cursing_count before <= cursing_count after /\
       meme_count before <= meme_count after /\
       code_count before <= code_count after /\
       caps_count before <= caps_count after /\
       (xp_config_ok cfg -> xp before <= xp after)).
Proof.
  split; intros; cbn; try (split_and!; (lia || intros; lia)).
  - destruct_and!. split_and!; try lia.
    intros Hcfg.
    repeat match goal with
           | H : xp_config_ok _ -> _ |- _ => specialize (H Hcfg)
           end.
    lia.
  - split_and!; try lia.
    + destruct (Z.gtb_spec ((xp c + amount) / 100 + 1) (level c)); lia.
    + intros (Hmsg & Hfeed & Hgame). unfold xp_amounts in *. cbn in *.
      intuition lia.
  - repeat match goal with |- context [if ?b then _ else _] => destruct b end;
      split_and!; (lia || intros; lia).
Qed.

(** X18: between two /start commands a pet never loses progress.
    Over any run of steps other than /start, the level and the four
    behaviour counters of a pet never decrease, and, when no
    configured amount of xp is negative, neither does its xp. *)
Theorem progress_never_lost (cfg : Config) (db db' : DB) (cid : Z) (c : Chat) :
  rtc (quiet_step cfg) db db' ->
  chats db !! cid = Some c ->
  exists c',
    chats db' !! cid = Some c' /\
    level c <= level c' /\
    cursing_count c <= cursing_count c' /\
    meme_count c <= meme_count c' /\
    code_count c <= code_count c' /\
    caps_count c <= caps_count c' /\
    (xp_config_ok cfg -> xp c <= xp c').
Proof.
  intros Hrun Hrow.
  pose proof (quiet_steps_rows_related cfg _ db db'
                (progress_monotone cfg) Hrun cid) as Hrel.
  rewrite Hrow in Hrel. inversion Hrel as [c0 c' Hc |]; subst.
  exists c'. tauto.
Qed.

Lemma progress_never_lost_witness :
  exists c',
    chats fed_db !! 1 = Some c' /\
    level (new_chat 1 0) <= level c' /\
    cursing_count (new_chat 1 0) <= cursing_count c' /\
    meme_count (new_chat 1 0) <= meme_count c' /\
    code_count (new_chat 1 0) <= code_count c' /\
    caps_count (new_chat 1 0) <= caps_count c' /\
    (xp_config_ok default_config -> xp (new_chat 1 0) <= xp c').
Proof.
  apply (progress_never_lost default_config Spec.born_db fed_db 1).
  - apply rtc_once. apply quiet_feed.
  - vm_compute. reflexivity.
Defined.

(** ** User rows *)

Lemma user_never_loses_refl (u : User) : user_never_loses u u.
Proof. unfold user_never_loses. split_and!; (reflexivity || lia). Qed.

Lemma user_never_loses_trans (u1 u2 u3 : User) :
  user_never_loses u1 u2 -> user_never_loses u2 u3 -> user_never_loses u1 u3.
Proof. unfold user_never_loses. intros. destruct_and!. split_and!; (congruence || lia). Qed.

Lemma user_never_loses_touch (uname fname : option string) (now : Z) (u : User) :
  user_never_loses u (UserCRUD.touch uname fname now u).
Proof. unfold user_never_loses. cbn. split_and!; (reflexivity || lia). Qed.

Lemma user_never_loses_bump (name : string) (amount : Z) (u : User) :
  In (name, amount) stat_increments ->
  user_never_loses u (UserCRUD.bump_stat name amount u).
Proof.
  intros Hin. unfold stat_increments in Hin. cbn in Hin.
  unfold user_never_loses.
  repeat destruct Hin as [Hin | Hin]; try contradiction;
    injection Hin as <- <-; cbn; split_and!; (reflexivity || lia).
Qed.

Lemma write_users (cfg : Config) (cid uid : Z) (db db' : DB) (key : Z * Z)
    (u : User) :
  write cfg cid uid db db' ->
  users db !! key = Some u ->
  exists u', users db' !! key = Some u' /\ user_never_loses u u'.
Proof.
  intros Hwrite Hrow.
  assert (users db' = users db ->
          exists u', users db' !! key = Some u' /\ user_never_loses u u')
    as Hsame.
  { intros ->. exists u. split; [exact Hrow | apply user_never_loses_refl]. }
  destruct Hwrite as [db db' Hjob | db db' Hhandler];
    [apply Hsame; destruct Hjob; try reflexivity; apply add_xp_users |].
  destruct Hhandler.
  - apply Hsame. reflexivity.
  - apply Hsame. apply add_xp_users.
  - apply Hsame. apply increment_behavior_counter_users.
  - apply Hsame. reflexivity.
  - unfold UserCRUD.get_or_create.
    destruct (decide ((uid, cid) = key)) as [<- | Hne].
    + rewrite Hrow. cbn. rewrite lookup_insert_eq. eexists. split; [reflexivity |].
      apply user_never_loses_touch.
    + destruct (users db !! (uid, cid)); cbn;
        rewrite lookup_insert_ne by exact Hne;
        exists u; (split; [exact Hrow | apply user_never_loses_refl]).
  - unfold UserCRUD.increment_stat, UserCRUD.get_or_create.
    destruct (negb _);
      [exists u; split; [exact Hrow | apply user_never_loses_refl] |].
    destruct (decide ((uid, cid) = key)) as [<- | Hne].
    + rewrite Hrow. cbn. rewrite lookup_insert_eq. eexists. split; [reflexivity |].
      eapply user_never_loses_trans;
        [apply user_never_loses_touch | apply user_never_loses_bump; assumption].
    + destruct (users db !! (uid, cid)); cbn;
        rewrite lookup_insert_ne by exact Hne;
        rewrite lookup_insert_ne by exact Hne;
        exists u; (split; [exact Hrow | apply user_never_loses_refl]).
Qed.

Lemma step_users (cfg : Config) (db db' : DB) (key : Z * Z) (u : User) :
  step cfg db db' ->
  users db !! key = Some u ->
  exists u', users db' !! key = Some u' /\ user_never_loses u u'.
Proof.
  intros Hstep Hrow.
  apply step_quiet_or_start in Hstep as [Hquiet | (now & message & ->)].
  - eapply (closed_quiet_step cfg
              (fun d => exists u', users d !! key = Some u' /\
                                   user_never_loses u u'));
      [| exact Hquiet | exists u; split; [exact Hrow | apply user_never_loses_refl]].
    intros cid uid d d' Hwrite (u1 & Hrow1 & Hu1).
    destruct (write_users cfg cid uid d d' key u1 Hwrite Hrow1)
      as (u2 & Hrow2 & Hu2).
    exists u2. split; [exact Hrow2 |].
    eapply user_never_loses_trans; eassumption.
  - exists u. split; [| apply user_never_loses_refl].
    destruct (cmd_start_store db now message)
      as [-> | [(_ & ->) | (c & _ & _ & ->)]]; exact Hrow.
Qed.

(** X19: the bot never deletes a user row and never takes back what a
    user did.  Over any run of steps, the row of a user is still
    there, under the same user and chat and with the same first
    interaction, and none of its counts of feedings, games, messages,
    night disturbances, gamble wins and gamble losses has decreased. *)
Theorem user_rows_never_lose (cfg : Config) (db db' : DB) (key : Z * Z)
    (u : User) :
  rtc (step cfg) db db' ->
  users db !! key = Some u ->
  exists u',
    users db' !! key = Some u' /\
    user_id u' = user_id u /\ user_chat_id u' = user_chat_id u /\
    first_interaction u' = first_interaction u /\
    feed_count u <= feed_count u' /\
    play_count u <= play_count u' /\
    message_count u <= message_count u' /\
    night_disturb_count u <= night_disturb_count u' /\
    gamble_wins u <= gamble_wins u' /\
    gamble_losses u <= gamble_losses u'.
Proof.
  intros Hrun. revert u.
  induction Hrun as [db | db db1 db2 Hstep _ IH]; intros u Hrow.
  - exists u. split; [exact Hrow | apply user_never_loses_refl].
  - destruct (step_users cfg db db1 key u Hstep Hrow) as (u1 & Hrow1 & Hu1).
    destruct (IH u1 Hrow1) as (u2 & Hrow2 & Hu2).
    exists u2. split; [exact Hrow2 |].
    exact (user_never_loses_trans u u1 u2 Hu1 Hu2).
Qed.

Lemma user_rows_never_lose_witness :
  exists u',
    users (fst (cmd_play default_config fed_db noon Spec.group_message))
      !! (42, 1) = Some u' /\
    user_id u' = user_id fed_user /\ user_chat_id u' = user_chat_id fed_user /\
    first_interaction u' = first_interaction fed_user /\
    feed_count fed_user <= feed_count u' /\
    play_count fed_user <= play_count u' /\
    message_count fed_user <= message_count u' /\
    night_disturb_count fed_user <= night_disturb_count u' /\
    gamble_wins fed_user <= gamble_wins u' /\
    gamble_losses fed_user <= gamble_losses u'.
Proof.
  apply (user_rows_never_lose default_config fed_db).
  - apply rtc_once. apply step_play.
  - vm_compute. reflexivity.
Defined.

(** ** The scheduler jobs *)

Lemma job_write_users (cid : Z) (db db' : DB) :
  job_write cid db db' -> users db' = users db.
Proof. intros Hpet. destruct Hpet; try reflexivity. apply add_xp_users. Qed.

Lemma job_write_events (cid : Z) (db db' : DB) :
  job_write cid db db' ->
  events db' = events db \/
  exists e, events db' = e :: events db /\ event_chat_id e = cid /\
            event_user_id e = None /\ In (event_type e) job_event_types.
Proof.
  intros Hpet. destruct Hpet; try (left; reflexivity).
  - left. apply add_xp_events.
  - right. eexists.
    split_and!; [reflexivity | reflexivity | reflexivity | assumption].
Qed.

(** X20: a scheduler job works on pets only.  A run of the tick, of
    the random events or of the sleep check leaves every user row as
    it is, creates and removes no chat row, and what it adds to the log
    are entries without a user, of the types DEATH, CRITICAL_HEALTH,
    EVOLUTION and RANDOM_EVENT. *)
Theorem jobs_touch_pets_only (cfg : Config) (db db' : DB) :
  job_step cfg db db' ->
  users db' = users db /\
  (forall cid, is_Some (chats db' !! cid) <-> is_Some (chats db !! cid)) /\
  exists added,
    events db' = added ++ events db /\
    forall e, In e added ->
      event_user_id e = None /\ In (event_type e) job_event_types.
Proof.
  intros Hjob.
  eapply (closed_job_step cfg
            (fun d =>
               users d = users db /\
               (forall cid, is_Some (chats d !! cid) <-> is_Some (chats db !! cid)) /\
               exists added,
                 events d = added ++ events db /\
                 forall e, In e added ->
                   event_user_id e = None /\ In (event_type e) job_event_types));
    [| exact Hjob |].
  - intros cid0 d d' Hpet (Husers & Hdom & added & Hevents & Hadded).
    split_and!.
    + rewrite (job_write_users cid0 d d' Hpet). exact Husers.
    + intros cid. rewrite <- Hdom.
      destruct (write_row_any cfg cid0 0 d d' cid (write_job cfg cid0 0 d d' Hpet))
        as [-> | (c & f & -> & -> & _)]; [reflexivity |].
      split; intros _; eexists; reflexivity.
    + destruct (job_write_events cid0 d d' Hpet)
        as [-> | (e & -> & _ & Huser & Htype)].
      * exists added. split; assumption.
      * exists (e :: added). rewrite Hevents. split; [reflexivity |].
        intros e' [<- | Hin]; [split; assumption | apply Hadded, Hin].
  - split_and!; [reflexivity | reflexivity |].
    exists []. split; [reflexivity | intros e []].
Qed.

Lemma jobs_touch_pets_only_witness :
  let db' := fst (tick_all_pets default_config fed_db Spec.night) in
  users db' = users fed_db /\
  (forall cid, is_Some (chats db' !! cid) <-> is_Some (chats fed_db !! cid)) /\
  exists added,
    events db' = added ++ events fed_db /\
    forall e, In e added ->
      event_user_id e = None /\ In (event_type e) job_event_types.
Proof.
  apply (jobs_touch_pets_only default_config). apply job_tick.
Defined.

(** ** Where the writes land *)

Lemma row_update_chat_id (cfg : Config) (f : Chat -> Chat) (c : Chat) :
  row_update cfg f -> chat_id (f c) = chat_id c.
Proof. intros Hf. destruct Hf; reflexivity. Qed.

Lemma write_keys_ok (cfg : Config) (cid uid : Z) (db db' : DB) :
  write cfg cid uid db db' -> keys_ok db -> keys_ok db'.
Proof.
  intros Hwrite Hkeys key c' Hrow'.
  destruct (write_row_any cfg cid uid db db' key Hwrite)
    as [Hsame | (c & f & Hrow & Hf & Hkind)].
  - rewrite Hsame in Hrow'. exact (Hkeys key c' Hrow').
  - rewrite Hf in Hrow'. injection Hrow' as <-.
    rewrite (row_update_chat_id cfg f c Hkind). exact (Hkeys key c Hrow).
Qed.

Lemma db_ok_keys_ok (db : DB) : db_ok db -> keys_ok db.
Proof. intros Hok cid c Hrow. apply (Hok cid c Hrow). Qed.

Lemma handler_write_users (cfg : Config) (cid uid : Z) (db db' : DB)
    (key : Z * Z) :
  handler_write cfg cid uid db db' ->
  key <> (uid, cid) -> users db' !! key = users db !! key.
Proof.
  intros Hwrite Hne. destruct Hwrite; try reflexivity.
  - rewrite add_xp_users. reflexivity.
  - rewrite increment_behavior_counter_users. reflexivity.
  - unfold UserCRUD.get_or_create.
    destruct (users db !! (uid, cid)); cbn;
      apply lookup_insert_ne; congruence.
  - unfold UserCRUD.increment_stat, UserCRUD.get_or_create.
    destruct (negb _); [reflexivity |].
    destruct (users db !! (uid, cid)); cbn;
      rewrite !lookup_insert_ne by congruence; reflexivity.
Qed.

Lemma handler_write_events (cfg : Config) (cid uid : Z) (db db' : DB) :
  handler_write cfg cid uid db db' ->
  events db' = events db \/
  exists e, events db' = e :: events db /\ event_chat_id e = cid /\
            event_user_id e = Some uid /\ In (event_type e) user_event_types.
Proof.
  intros Hwrite. destruct Hwrite; try (left; reflexivity).
  - left. apply add_xp_events.
  - left. apply increment_behavior_counter_events.
  - right. eexists.
    split_and!; [reflexivity | reflexivity | reflexivity | assumption].
  - left. apply get_or_create_user_events.
  - left. apply increment_stat_events.
Qed.

(** X21: a handler works on the chat of its message only.  Whatever
    /feed, /play, /gamble, the gamble button, a text message, a
    sticker or a photo does, the pets of all other chats and the rows
    of all other users (and of the sender in other chats) stay as
    they are, and every entry it adds to the log belongs to the chat
    of the message, names the sender and has one of the types FEED,
    PLAY, NIGHT_DISTURB, GAMBLE_WIN and GAMBLE_LOSS. *)
Theorem handlers_touch_own_chat_only (cfg : Config) (message : Message)
    (db db' : DB) :
  db_ok db ->
  handler_step cfg message db db' ->
  (forall other, other <> message_chat_id message ->
     chats db' !! other = chats db !! other) /\
  (forall key, key <> (from_user_id message, message_chat_id message) ->
     users db' !! key = users db !! key) /\
  exists added,
    events db' = added ++ events db /\
    forall e, In e added ->
      event_chat_id e = message_chat_id message /\
      event_user_id e = Some (from_user_id message) /\
      In (event_type e) user_event_types.
Proof.
  intros Hok Hstep.
  set (P := fun d : DB =>
    keys_ok d /\
    (forall other, other <> message_chat_id message ->
       chats d !! other = chats db !! other) /\
    (forall key, key <> (from_user_id message, message_chat_id message) ->
       users d !! key = users db !! key) /\
    exists added,
      events d = added ++ events db /\
      forall e, In e added ->
        event_chat_id e = message_chat_id message /\
        event_user_id e = Some (from_user_id message) /\
        In (event_type e) user_event_types).
  assert (P db) as Hp.
  { split_and!; [apply db_ok_keys_ok, Hok | reflexivity | reflexivity |].
    exists []. split; [reflexivity | intros e []]. }
  assert (forall cid uid d d',
            cid = message_chat_id message -> uid = from_user_id message ->
            handler_write cfg cid uid d d' -> P d -> P d') as P_write.
  { intros cid uid d d' -> -> Hwrite (Hkeys & Hchats & Husers & added & Hev & Hadded).
    split_and!.
    - exact (write_keys_ok cfg _ _ d d' (write_handler cfg _ _ d d' Hwrite) Hkeys).
    - intros other Hne. rewrite <- (Hchats other Hne).
      apply (handler_write_row cfg _ _ d d' Hwrite). exact Hne.
    - intros key Hne. rewrite <- (Husers key Hne).
      exact (handler_write_users cfg _ _ d d' key Hwrite Hne).
    - destruct (handler_write_events cfg _ _ d d' Hwrite)
        as [-> | (e & -> & Hchat & Huser & Htype)].
      + exists added. split; assumption.
      + exists (e :: added). rewrite Hev. split; [reflexivity |].
        intros e' [<- | Hin]; [split_and!; assumption | apply Hadded, Hin]. }
  assert (forall d cid c,
            P d -> cid = message_chat_id message -> chats d !! cid = Some c ->
            chat_id c = message_chat_id message) as P_row.
  { intros d cid c (Hkeys & _) -> Hrow. exact (Hkeys _ c Hrow). }
  assert (P db') as (_ & Hchats & Husers & Hevents).
  { destruct Hstep;
      [ apply (closed_cmd_feed cfg (fun cid => cid = message_chat_id message)
                 (fun uid => uid = from_user_id message) P)
      | apply (closed_cmd_play cfg (fun cid => cid = message_chat_id message)
                 (fun uid => uid = from_user_id message) P)
      | apply (closed_cmd_gamble P)
      | apply (closed_callback_gamble_play cfg
                 (fun cid => cid = message_chat_id message)
                 (fun uid => uid = from_user_id message) P)
      | apply (closed_handle_group_message cfg
                 (fun cid => cid = message_chat_id message)
                 (fun uid => uid = from_user_id message) P)
      | apply (closed_handle_sticker cfg
                 (fun cid => cid = message_chat_id message)
                 (fun uid => uid = from_user_id message) P)
      | apply (closed_handle_photo cfg
                 (fun cid => cid = message_chat_id message)
                 (fun uid => uid = from_user_id message) P) ];
      auto. }
  split_and!; assumption.
Qed.

Lemma handlers_touch_own_chat_only_witness :
  let db' := fst (cmd_feed default_config fed_db noon Spec.group_message) in
  (forall other, other <> 1 -> chats db' !! other = chats fed_db !! other) /\
  (forall key, key <> (42, 1) -> users db' !! key = users fed_db !! key) /\
  exists added,
    events db' = added ++ events fed_db /\
    forall e, In e added ->
      event_chat_id e = 1 /\ event_user_id e = Some 42 /\
      In (event_type e) user_event_types.
Proof.
  apply (handlers_touch_own_chat_only default_config Spec.group_message fed_db).
  - apply (db_ok_run default_config empty_db);
      [apply fed_db_reachable | apply db_ok_empty].
  - apply handles_feed.
Defined.

(** ** The jobs select the pets they work on *)

Lemma alive_chats_row (db : DB) (c : Chat) :
  In c (alive_chats db) ->
  exists cid, chats db !! cid = Some c /\ is_alive c = true.
Proof.
  unfold alive_chats. intros Hin. apply filter_In in Hin as (Hin & Halive).
  apply list_elem_of_In, list_elem_of_fmap in Hin as ([cid c'] & -> & Hin).
  apply elem_of_map_to_list in Hin. exists cid. split; assumption.
Qed.





(** ** The statistics of the users and the event log *)

Lemma stat_of_users (db db' : DB) (key : Z * Z) (name : string) :
  users db' = users db -> stat_of db' key name = stat_of db key name.
Proof. unfold stat_of. intros ->. reflexivity. Qed.

Lemma logged_events (db db' : DB) (etype : EventType) (key : Z * Z) :
  events db' = events db -> logged db' etype key = logged db etype key.
Proof. unfold logged. intros ->. reflexivity. Qed.

Lemma stat_of_increment_stat (db : DB) (now uid cid : Z) (name other : string)
    (amount : Z) (key : Z * Z) :
  In name UserCRUD.valid_stats -> In other UserCRUD.valid_stats ->
  stat_of (UserCRUD.increment_stat db now uid cid name amount) key other
  = stat_of db key other
    + (if bool_decide (key = (uid, cid)) && String.eqb name other
       then amount else 0).
Proof.
  intros Hname Hother. unfold stat_of.
  rewrite increment_stat_users by exact Hname.
  destruct (bool_decide_reflect (key = (uid, cid))) as [-> | Hne]; cbn [andb].
  - rewrite lookup_insert_eq. cbn [from_option].
    rewrite bump_stat_user_stat, seen_user_stats by assumption. reflexivity.
  - rewrite lookup_insert_ne by congruence. lia.
Qed.

Lemma stat_of_get_or_create (db : DB) (now uid cid : Z)
    (uname fname : option string) (key : Z * Z) (name : string) :
  stat_of (fst (UserCRUD.get_or_create db now uid cid uname fname)) key name
  = stat_of db key name.
Proof. apply get_or_create_user_stat. Qed.

Lemma logged_create (db : DB) (now cid : Z) (et etype : EventType)
    (uid : option Z) (key : Z * Z) :
  logged (EventCRUD.create db now cid et uid) etype key
  = logged db etype key
    + (if bool_decide (et = etype /\ cid = snd key /\ uid = Some (fst key))
       then 1 else 0).
Proof.
  unfold logged, EventCRUD.create. cbn [events List.filter event_type
    event_chat_id event_user_id].
  destruct (bool_decide _); cbn [length]; lia.
Qed.

Lemma stat_of_update_stats db now cid h m e hl key name :
  stat_of (ChatCRUD.update_stats db now cid h m e hl) key name
  = stat_of db key name.
Proof. reflexivity. Qed.

Lemma stat_of_add_xp db cid amount key name :
  stat_of (fst (ChatCRUD.add_xp db cid amount)) key name = stat_of db key name.
Proof. apply stat_of_users, add_xp_users. Qed.

Lemma stat_of_create db now cid et uid key name :
  stat_of (EventCRUD.create db now cid et uid) key name = stat_of db key name.
Proof. reflexivity. Qed.

Lemma stat_of_counter db cid counter amount key name :
  stat_of (ChatCRUD.increment_behavior_counter db cid counter amount) key name
  = stat_of db key name.
Proof. apply stat_of_users, increment_behavior_counter_users. Qed.

Lemma logged_update_stats db now cid h m e hl etype key :
  logged (ChatCRUD.update_stats db now cid h m e hl) etype key
  = logged db etype key.
Proof. reflexivity. Qed.

Lemma logged_add_xp db cid amount etype key :
  logged (fst (ChatCRUD.add_xp db cid amount)) etype key = logged db etype key.
Proof. apply logged_events, add_xp_events. Qed.

Lemma logged_counter db cid counter amount etype key :
  logged (ChatCRUD.increment_behavior_counter db cid counter amount) etype key
  = logged db etype key.
Proof. apply logged_events, increment_behavior_counter_events. Qed.

Lemma logged_increment_stat db now uid cid name amount etype key :
  logged (UserCRUD.increment_stat db now uid cid name amount) etype key
  = logged db etype key.
Proof. apply logged_events, increment_stat_events. Qed.

Lemma logged_get_or_create db now uid cid uname fname etype key :
  logged (fst (UserCRUD.get_or_create db now uid cid uname fname)) etype key
  = logged db etype key.
Proof. apply logged_events, get_or_create_user_events. Qed.

Create Rewrite HintDb ledger.

#[local] Hint Rewrite stat_of_update_stats stat_of_add_xp stat_of_create
  stat_of_counter stat_of_get_or_create logged_update_stats logged_add_xp
  logged_counter logged_increment_stat logged_get_or_create logged_create
  : ledger.
#[local] Hint Rewrite stat_of_increment_stat using (vm_compute; auto 10)
  : ledger.

(** The ledger of the store a handler returns, from the ledger of the
    store it was given. *)
Ltac ledger_solve Hledger :=
  let key := fresh "key" in
  intros key; specialize (Hledger key); destruct key;
  autorewrite with ledger; cbn;
  repeat match goal with
         | |- context [bool_decide ?p] =>
             let H := fresh in
             destruct (bool_decide_reflect p) as [H | H];
             try (exfalso;
                  match type of H with
                  | _ /\ _ => destruct H as [H _]; discriminate H
                  end)
         end;
  cbn; simplify_eq; first [lia | exfalso; intuition congruence].

Lemma cmd_feed_ledger (cfg : Config) (db : DB) (now : Z) (message : Message) :
  keys_ok db -> ledger_ok db -> ledger_ok (fst (cmd_feed cfg db now message)).
Proof.
  intros Hkeys Hledger. unfold cmd_feed, ChatCRUD.get.
  destruct (chat_is_private message); [exact Hledger |].
  destruct (chats db !! message_chat_id message) as [chat |] eqn:Hrow;
    [| exact Hledger].
  pose proof (Hkeys _ _ Hrow) as Hid.
  unfold check_night_disturbance, disturb_at_night, feed. rewrite Hid.
  destruct (is_sleeping chat), (is_alive chat); cbn [negb fst snd success];
    try exact Hledger; ledger_solve Hledger.
Qed.

Lemma cmd_play_ledger (cfg : Config) (db : DB) (now : Z) (message : Message) :
  keys_ok db -> ledger_ok db -> ledger_ok (fst (cmd_play cfg db now message)).
Proof.
  intros Hkeys Hledger. unfold cmd_play, ChatCRUD.get.
  destruct (chat_is_private message); [exact Hledger |].
  destruct (chats db !! message_chat_id message) as [chat |] eqn:Hrow;
    [| exact Hledger].
  pose proof (Hkeys _ _ Hrow) as Hid.
  unfold check_night_disturbance, disturb_at_night, play. rewrite Hid.
  destruct (is_sleeping chat), (is_alive chat), (energy chat <? 20);
    cbn [negb fst snd success];
    try exact Hledger; ledger_solve Hledger.
Qed.

Lemma callback_gamble_play_ledger (db : DB) (now : Z) (callback : Message)
    (won : bool) :
  keys_ok db -> ledger_ok db ->
  ledger_ok (fst (callback_gamble_play db now callback won)).
Proof.
  intros Hkeys Hledger. unfold callback_gamble_play, ChatCRUD.get.
  destruct (chats db !! message_chat_id callback) as [chat |] eqn:Hrow;
    [| exact Hledger].
  pose proof (Hkeys _ _ Hrow) as Hid. rewrite Hid.
  destruct (is_alive chat), won; cbn [negb fst snd];
    try exact Hledger; ledger_solve Hledger.
Qed.

Lemma handle_group_message_ledger (cfg : Config) (db : DB) (now : Z)
    (message : Message) (is_command bad caps code : bool) :
  ledger_ok db ->
  ledger_ok (handle_group_message cfg db now message is_command bad caps code).
Proof.
  intros Hledger. unfold handle_group_message, ChatCRUD.get.
  destruct (chat_is_private message || is_command); [exact Hledger |].
  destruct (chats db !! message_chat_id message) as [chat |]; [| exact Hledger].
  destruct (is_alive chat); [| exact Hledger]. cbn [negb]. cbv zeta.
  destruct bad, caps, code; ledger_solve Hledger.
Qed.

Lemma handle_sticker_ledger (db : DB) (now : Z) (message : Message) :
  ledger_ok db -> ledger_ok (handle_sticker db now message).
Proof.
  intros Hledger. unfold handle_sticker, ChatCRUD.get.
  destruct (chat_is_private message); [exact Hledger |].
  destruct (chats db !! message_chat_id message) as [chat |]; [| exact Hledger].
  destruct (is_alive chat); [| exact Hledger]. cbn [negb]. cbv zeta.
  ledger_solve Hledger.
Qed.

Lemma handle_photo_ledger (db : DB) (now : Z) (message : Message)
    (caption : option (bool * bool * bool)) :
  ledger_ok db -> ledger_ok (handle_photo db now message caption).
Proof.
  intros Hledger. unfold handle_photo, ChatCRUD.get.
  destruct (chat_is_private message); [exact Hledger |].
  destruct (chats db !! message_chat_id message) as [chat |]; [| exact Hledger].
  destruct (is_alive chat); [| exact Hledger]. cbn [negb]. cbv zeta.
  destruct caption as [[[[] []] []] |]; try exact Hledger;
    ledger_solve Hledger.
Qed.

Lemma ledger_ok_same (db db' : DB) :
  users db' = users db -> events db' = events db ->
  ledger_ok db -> ledger_ok db'.
Proof.
  intros Husers Hevents Hledger key. specialize (Hledger key).
  rewrite !(stat_of_users db db') by exact Husers.
  rewrite !(logged_events db db') by exact Hevents.
  exact Hledger.
Qed.

Lemma logged_create_none (db : DB) (now cid : Z) (et etype : EventType)
    (key : Z * Z) :
  logged (EventCRUD.create db now cid et None) etype key = logged db etype key.
Proof.
  unfold logged, EventCRUD.create.
  cbn [events List.filter event_type event_chat_id event_user_id].
  rewrite bool_decide_eq_false_2; [reflexivity |].
  intros (_ & _ & H). discriminate H.
Qed.

Lemma ledger_ok_job_event (db : DB) (now cid : Z) (etype : EventType) :
  ledger_ok db -> ledger_ok (EventCRUD.create db now cid etype None).
Proof.
  intros Hledger key. specialize (Hledger key).
  rewrite !stat_of_create, !logged_create_none. exact Hledger.
Qed.

Lemma job_write_ledger (cid : Z) (db db' : DB) :
  job_write cid db db' -> ledger_ok db -> ledger_ok db'.
Proof.
  intros Hwrite. destruct Hwrite;
    try (apply ledger_ok_same; reflexivity).
  - apply ledger_ok_same; [apply add_xp_users | apply add_xp_events].
  - apply ledger_ok_job_event.
Qed.

Lemma step_ledger (cfg : Config) (db db' : DB) :
  step cfg db db' -> keys_ok db -> ledger_ok db -> ledger_ok db'.
Proof.
  intros Hstep Hkeys Hledger. destruct Hstep.
  - destruct (cmd_start_store db now message)
      as [-> | [(_ & ->) | (c & _ & _ & ->)]].
    + exact Hledger.
    + apply (ledger_ok_same db); [reflexivity | reflexivity | exact Hledger].
    + apply ledger_ok_job_event.
      apply (ledger_ok_same db); [reflexivity | reflexivity | exact Hledger].
  - apply cmd_feed_ledger; assumption.
  - apply cmd_play_ledger; assumption.
  - rewrite (closed_cmd_gamble (fun d => d = db) message db eq_refl).
    exact Hledger.
  - apply callback_gamble_play_ledger; assumption.
  - apply handle_group_message_ledger; assumption.
  - apply handle_sticker_ledger; assumption.
  - apply handle_photo_ledger; assumption.
  - apply (closed_tick_all_pets cfg (fun _ => True) ledger_ok);
      eauto using Forall_trivial, job_write_ledger.
  - apply (closed_trigger_random_events (fun _ => True) ledger_ok);
      eauto using Forall_trivial, job_write_ledger.
  - apply (closed_check_sleep_all cfg (fun _ => True) ledger_ok);
      eauto using Forall_trivial, job_write_ledger.
Qed.

Lemma reachable_ledger_ok (cfg : Config) (db : DB) :
  reachable cfg db -> ledger_ok db.
Proof.
  intros Hreach.
  assert (forall db0, rtc (step cfg) db0 db -> db_ok db0 -> ledger_ok db0 ->
                      ledger_ok db) as Hrun.
  { clear Hreach. intros db0 Hrun.
    induction Hrun as [db0 | db0 db1 db2 Hstep _ IH]; intros Hok Hledger;
      [exact Hledger |].
    apply IH.
    - exact (db_ok_preserved cfg db0 db1 Hstep Hok).
    - apply (step_ledger cfg db0 db1 Hstep); [apply db_ok_keys_ok, Hok | exact Hledger]. }
  apply (Hrun empty_db Hreach db_ok_empty).
  intros key. unfold stat_of, logged. cbn. rewrite lookup_empty. cbn.
  split_and!; reflexivity.
Qed.

(** X23: the statistics of the users always agree with the event
    log.  In every store the bot can reach, the feed, play, night
    disturbance, gamble win and gamble loss counters of a user in a
    chat are the numbers of FEED, PLAY, NIGHT_DISTURB, GAMBLE_WIN and
    GAMBLE_LOSS entries that the log holds for that user in that
    chat, and the karma is 5 per feeding, 3 per game, 10 per win and
    -5 per loss; and the log holds no such entry for a user without
    a row. *)
Theorem statistics_agree_with_log (cfg : Config) (db : DB) (uid cid : Z) :
  reachable cfg db ->
  (forall u, users db !! (uid, cid) = Some u ->
     feed_count u = logged db FEED (uid, cid) /\
     play_count u = logged db PLAY (uid, cid) /\
     night_disturb_count u = logged db NIGHT_DISTURB (uid, cid) /\
     gamble_wins u = logged db GAMBLE_WIN (uid, cid) /\
     gamble_losses u = logged db GAMBLE_LOSS (uid, cid) /\
     karma_points u
     = 5 * feed_count u + 3 * play_count u + 10 * gamble_wins u
       - 5 * gamble_losses u) /\
  (users db !! (uid, cid) = None ->
   logged db FEED (uid, cid) = 0 /\ logged db PLAY (uid, cid) = 0 /\
   logged db NIGHT_DISTURB (uid, cid) = 0 /\
   logged db GAMBLE_WIN (uid, cid) = 0 /\
   logged db GAMBLE_LOSS (uid, cid) = 0).
Proof.
  intros Hreach.
  pose proof (reachable_ledger_ok cfg db Hreach (uid, cid)) as Hledger.
  unfold stat_of in Hledger. split.
  - intros u Hrow. rewrite Hrow in Hledger. exact Hledger.
  - intros Hrow. rewrite Hrow in Hledger. cbn in Hledger.
    destruct_and!. split_and!; congruence.
Qed.

Lemma statistics_agree_with_log_witness :
  (feed_count fed_user = logged fed_db FEED (42, 1) /\
   play_count fed_user = logged fed_db PLAY (42, 1) /\
   night_disturb_count fed_user = logged fed_db NIGHT_DISTURB (42, 1) /\
   gamble_wins fed_user = logged fed_db GAMBLE_WIN (42, 1) /\
   gamble_losses fed_user = logged fed_db GAMBLE_LOSS (42, 1) /\
   karma_points fed_user
   = 5 * feed_count fed_user + 3 * play_count fed_user
     + 10 * gamble_wins fed_user - 5 * gamble_losses fed_user) /\
  logged fed_db FEED (7, 1) = 0.
Proof.
  destruct (statistics_agree_with_log default_config fed_db 42 1
              fed_db_reachable) as (Hknown & _).
  destruct (statistics_agree_with_log default_config fed_db 7 1
              fed_db_reachable) as (_ & Hunknown).
  split.
  - apply (Hknown fed_user). vm_compute. reflexivity.
  - apply Hunknown. vm_compute. reflexivity.
Defined.

(** ** The jobs treat every pet on its own *)

Lemma job_write_keys_ok (cid : Z) (db db' : DB) :
  job_write cid db db' -> keys_ok db -> keys_ok db'.
Proof.
  intros Hwrite.
  exact (write_keys_ok default_config cid 0 db db'
           (write_job default_config cid 0 db db' Hwrite)).
Qed.

Lemma loaded_chat_id (db : DB) (chat : Chat) :
  keys_ok db -> chat_id (loaded db chat) = chat_id chat.
Proof.
  intros Hkeys. unfold loaded.
  destruct (chats db !! chat_id chat) as [c |] eqn:Hrow; cbn; [| reflexivity].
  exact (Hkeys _ c Hrow).
Qed.

Lemma loaded_row (db : DB) (cid : Z) (c : Chat) :
  keys_ok db -> chats db !! cid = Some c -> loaded db c = c.
Proof.
  intros Hkeys Hrow. unfold loaded.
  rewrite (Hkeys cid c Hrow), Hrow. reflexivity.
Qed.

Lemma loaded_agree (d1 d2 : DB) (chat : Chat) :
  chats d1 !! chat_id chat = chats d2 !! chat_id chat ->
  loaded d1 chat = loaded d2 chat.
Proof. unfold loaded. intros ->. reflexivity. Qed.

(** What the operations on one pet keep: the keys of the rows, and
    the rows of all other chats. *)
Section PetFrame.

Variables (cfg : Config) (now : Z) (chat : Chat) (key : Z) (db0 : DB).
Hypothesis Hkey : key <> chat_id chat.

Let P (d : DB) : Prop := keys_ok d /\ chats d !! key = chats db0 !! key.

Lemma frame_job_write cid d d' :
  cid = chat_id chat -> job_write cid d d' -> P d -> P d'.
Proof.
  intros -> Hwrite (Hkeys & Hrow). split.
  - exact (job_write_keys_ok _ d d' Hwrite Hkeys).
  - rewrite <- Hrow.
    apply (job_write_row default_config _ d d' Hwrite). exact Hkey.
Qed.

Lemma frame_row d cid c :
  P d -> cid = chat_id chat -> chats d !! cid = Some c ->
  chat_id c = chat_id chat.
Proof. intros (Hkeys & _) -> Hrow. exact (Hkeys _ c Hrow). Qed.

Lemma frame_check_sleep_status d :
  P d -> P (check_sleep_status cfg d now chat).
Proof.
  apply (closed_check_sleep_status cfg (fun cid => cid = chat_id chat) P
           frame_job_write). reflexivity.
Qed.

Lemma frame_tick_pet d : P d -> P (fst (tick_pet cfg d now chat)).
Proof.
  apply (closed_tick_pet cfg (fun cid => cid = chat_id chat) P
           frame_job_write frame_row). reflexivity.
Qed.

Lemma frame_trigger_random_event d roll1 ev roll2 :
  P d -> P (fst (trigger_random_event d now chat roll1 ev roll2)).
Proof.
  apply (closed_trigger_random_event (fun cid => cid = chat_id chat) P
           frame_job_write). reflexivity.
Qed.

End PetFrame.

(** The row an operation leaves for its pet depends on the row it
    finds, not on the rest of the store. *)
Ltac row_lookup :=
  repeat first
    [ rewrite update_last_tick_lookup | rewrite kill_pet_lookup
    | rewrite evolve_lookup | rewrite update_stats_lookup
    | rewrite add_xp_lookup | rewrite create_event_chats
    | progress cbn [chats with_chats] | rewrite lookup_alter_eq ].

Lemma check_sleep_status_local (cfg : Config) (now : Z) (chat : Chat)
    (d1 d2 : DB) :
  chats d1 !! chat_id chat = chats d2 !! chat_id chat ->
  chats (check_sleep_status cfg d1 now chat) !! chat_id chat
  = chats (check_sleep_status cfg d2 now chat) !! chat_id chat.
Proof.
  intros Hagree. unfold check_sleep_status. cbv zeta.
  repeat match goal with |- context [if ?b then _ else _] => destruct b end;
    row_lookup; rewrite ?Hagree; reflexivity.
Qed.

Lemma tick_stats_local (cfg : Config) (now : Z) (chat : Chat) (d1 d2 : DB) :
  chats d1 !! chat_id chat = chats d2 !! chat_id chat ->
  chats (fst (tick_stats cfg d1 now chat)) !! chat_id chat
  = chats (fst (tick_stats cfg d2 now chat)) !! chat_id chat /\
  snd (tick_stats cfg d1 now chat) = snd (tick_stats cfg d2 now chat).
Proof.
  intros Hagree. unfold tick_stats. cbv zeta.
  destruct (negb (is_alive chat)); [split; [exact Hagree | reflexivity] |].
  match goal with
  | |- context [if ?b then (_, (false, true)) else _] => destruct b
  end; cbn [fst snd].
  - split; [| reflexivity]. row_lookup. rewrite Hagree. reflexivity.
  - split; [| reflexivity].
    match goal with |- context [if ?b then _ else _] => destruct b end;
      row_lookup; rewrite Hagree; reflexivity.
Qed.

Lemma check_and_evolve_local (now : Z) (chat : Chat) (d1 d2 : DB) :
  chats d1 !! chat_id chat = chats d2 !! chat_id chat ->
  chats (fst (check_and_evolve d1 now chat)) !! chat_id chat
  = chats (fst (check_and_evolve d2 now chat)) !! chat_id chat /\
  snd (check_and_evolve d1 now chat) = snd (check_and_evolve d2 now chat).
Proof.
  intros Hagree. unfold check_and_evolve. cbv zeta.
  destruct (negb (is_alive chat)); [split; [exact Hagree | reflexivity] |].
  destruct (get_next_stage (pet_stage chat));
    [| split; [exact Hagree | reflexivity]].
  match goal with |- context [if ?b then _ else _] => destruct b end;
    [split; [exact Hagree | reflexivity] |].
  cbn [fst snd]. split; [| reflexivity].
  row_lookup. rewrite Hagree. reflexivity.
Qed.

Lemma trigger_random_event_local (now : Z) (chat : Chat) (roll1 : Q)
    (ev : RandomEvent) (roll2 : Q) (d1 d2 : DB) :
  chats d1 !! chat_id chat = chats d2 !! chat_id chat ->
  chats (fst (trigger_random_event d1 now chat roll1 ev roll2)) !! chat_id chat
  = chats (fst (trigger_random_event d2 now chat roll1 ev roll2))
      !! chat_id chat.
Proof.
  intros Hagree. unfold trigger_random_event.
  repeat match goal with
         | |- context [if ?b then (_, None) else _] => destruct b
         end; try exact Hagree.
  cbn [fst].
  destruct ev as [[] | [] | []];
    unfold execute, execute_box, execute_visitor, execute_weather; cbv zeta;
    row_lookup; rewrite Hagree; reflexivity.
Qed.

Lemma keys_ok_job_write cid d d' :
  True -> job_write cid d d' -> keys_ok d -> keys_ok d'.
Proof. intros _. apply job_write_keys_ok. Qed.

Lemma keys_ok_row (d : DB) (cid : Z) (c : Chat) :
  keys_ok d -> True -> chats d !! cid = Some c -> True.
Proof. auto. Qed.

Lemma keys_ok_check_sleep_status cfg d now chat :
  keys_ok d -> keys_ok (check_sleep_status cfg d now chat).
Proof.
  apply (closed_check_sleep_status cfg (fun _ => True) keys_ok
           keys_ok_job_write). exact I.
Qed.

Lemma keys_ok_tick_stats cfg d now chat :
  keys_ok d -> keys_ok (fst (tick_stats cfg d now chat)).
Proof.
  apply (closed_tick_stats cfg (fun _ => True) keys_ok keys_ok_job_write).
  exact I.
Qed.

Lemma keys_ok_tick_pet cfg d now chat :
  keys_ok d -> keys_ok (fst (tick_pet cfg d now chat)).
Proof.
  apply (closed_tick_pet cfg (fun _ => True) keys_ok keys_ok_job_write
           keys_ok_row). exact I.
Qed.

Lemma keys_ok_trigger_random_event d now chat roll1 ev roll2 :
  keys_ok d -> keys_ok (fst (trigger_random_event d now chat roll1 ev roll2)).
Proof.
  apply (closed_trigger_random_event (fun _ => True) keys_ok
           keys_ok_job_write). exact I.
Qed.

Lemma tick_pet_local (cfg : Config) (now : Z) (chat : Chat) (d1 d2 : DB) :
  keys_ok d1 -> keys_ok d2 ->
  chats d1 !! chat_id chat = chats d2 !! chat_id chat ->
  chats (fst (tick_pet cfg d1 now chat)) !! chat_id chat
  = chats (fst (tick_pet cfg d2 now chat)) !! chat_id chat.
Proof.
  intros Hkeys1 Hkeys2 Hagree. unfold tick_pet. cbv zeta.
  pose proof (check_sleep_status_local cfg now chat d1 d2 Hagree) as Hagree0.
  pose proof (keys_ok_check_sleep_status cfg d1 now chat Hkeys1) as Hk1.
  pose proof (keys_ok_check_sleep_status cfg d2 now chat Hkeys2) as Hk2.
  rewrite <- (loaded_agree _ _ chat Hagree0).
  set (e1 := check_sleep_status cfg d1 now chat) in *.
  set (e2 := check_sleep_status cfg d2 now chat) in *.
  set (chat1 := loaded e1 chat).
  assert (chat_id chat1 = chat_id chat) as Hid1
    by (apply loaded_chat_id; exact Hk1).
  rewrite <- Hid1 in Hagree0 |- *.
  destruct (tick_stats_local cfg now chat1 e1 e2 Hagree0) as (Hagree1 & Hans).
  pose proof (keys_ok_tick_stats cfg e1 now chat1 Hk1) as Hk1'.
  pose proof (keys_ok_tick_stats cfg e2 now chat1 Hk2) as Hk2'.
  destruct (tick_stats cfg e1 now chat1) as [f1 [alive1 critical1]].
  destruct (tick_stats cfg e2 now chat1) as [f2 [alive2 critical2]].
  cbn [fst snd] in *. injection Hans as <- <-.
  rewrite <- (loaded_agree _ _ chat1 Hagree1).
  destruct alive1; cbn [fst]; [| exact Hagree1].
  set (chat2 := loaded f1 chat1).
  assert (chat_id chat2 = chat_id chat1) as Hid2
    by (apply loaded_chat_id; exact Hk1').
  rewrite <- Hid2 in Hagree1 |- *.
  destruct (check_and_evolve_local now chat2 f1 f2 Hagree1) as (Hagree2 & Hans).
  destruct (check_and_evolve f1 now chat2) as [g1 [[ev1 s1] t1]].
  destruct (check_and_evolve f2 now chat2) as [g2 [[ev2 s2] t2]].
  cbn [fst snd] in *. exact Hagree2.
Qed.

(** A loop over pets whose body works on the pet it is given: the row
    of each pet of the list is what the body alone makes of it, and
    the rows of the pets outside the list stay. *)
Section PerPet.

Variable body : DB -> Chat -> DB.
Hypothesis body_keys : forall d c, keys_ok d -> keys_ok (body d c).
Hypothesis body_frame :
  forall d c k, keys_ok d -> k <> chat_id c ->
    chats (body d c) !! k = chats d !! k.
Hypothesis body_local :
  forall d1 d2 c, keys_ok d1 -> keys_ok d2 ->
    chats d1 !! chat_id c = chats d2 !! chat_id c ->
    chats (body d1 c) !! chat_id c = chats (body d2 c) !! chat_id c.

Lemma fold_outside (l : list Chat) (d : DB) (k : Z) :
  keys_ok d -> ~ In k (List.map chat_id l) ->
  chats (fold_left body l d) !! k = chats d !! k.
Proof.
  revert d. induction l as [| x l IH]; intros d Hkeys Hout; cbn; [reflexivity |].
  cbn in Hout. rewrite IH by (auto; tauto).
  apply body_frame; [exact Hkeys | intros ->; tauto].
Qed.

Lemma fold_per_pet (l : list Chat) (d : DB) (c : Chat) :
  keys_ok d -> List.NoDup (List.map chat_id l) -> In c l ->
  chats (fold_left body l d) !! chat_id c = chats (body d c) !! chat_id c.
Proof.
  revert d. induction l as [| x l IH]; intros d Hkeys Hnodup Hin; [destruct Hin |].
  cbn in Hnodup. apply List.NoDup_cons_iff in Hnodup as (Hfresh & Hnodup).
  cbn [fold_left]. destruct Hin as [-> | Hin].
  - apply fold_outside; [apply body_keys, Hkeys | exact Hfresh].
  - rewrite IH by auto.
    apply body_local; [apply body_keys, Hkeys | exact Hkeys |].
    apply body_frame; [exact Hkeys |].
    intros Heq. apply Hfresh. rewrite <- Heq. apply in_map. exact Hin.
Qed.

End PerPet.

Lemma map_to_list_chat_ids (db : DB) :
  keys_ok db ->
  List.map chat_id (snd <$> map_to_list (chats db))
  = (map_to_list (chats db)).*1.
Proof.
  intros Hkeys.
  assert (forall l : list (Z * Chat),
            (forall k c, In (k, c) l -> chat_id c = k) ->
            List.map chat_id (snd <$> l) = l.*1) as Hgen.
  { induction l as [| [k c] l IH]; intros Hl; cbn; [reflexivity |].
    rewrite (Hl k c) by (left; reflexivity).
    f_equal. apply IH. intros k' c' Hin. apply Hl. right. exact Hin. }
  apply Hgen. intros k c Hin.
  apply list_elem_of_In, elem_of_map_to_list in Hin. exact (Hkeys k c Hin).
Qed.

Lemma NoDup_map_filter {A B : Type} (f : A -> B) (p : A -> bool) (l : list A) :
  List.NoDup (List.map f l) -> List.NoDup (List.map f (List.filter p l)).
Proof.
  induction l as [| x l IH]; cbn; intros Hnodup; [exact Hnodup |].
  apply List.NoDup_cons_iff in Hnodup as (Hfresh & Hnodup).
  destruct (p x); cbn; [| auto].
  apply List.NoDup_cons; [| auto].
  intros Hin. apply Hfresh. apply in_map_iff in Hin as (y & Hy & Hin).
  apply filter_In in Hin as (Hin & _). apply in_map_iff. eauto.
Qed.

Lemma selected_chats_NoDup (db : DB) (p : Chat -> bool) :
  keys_ok db ->
  List.NoDup (List.map chat_id (List.filter p (snd <$> map_to_list (chats db)))).
Proof.
  intros Hkeys. apply NoDup_map_filter.
  rewrite map_to_list_chat_ids by exact Hkeys.
  apply NoDup_ListNoDup, NoDup_fst_map_to_list.
Qed.

Lemma alive_chats_In (db : DB) (cid : Z) (c : Chat) :
  chats db !! cid = Some c -> is_alive c = true -> In c (alive_chats db).
Proof.
  intros Hrow Halive. unfold alive_chats. apply filter_In. split; [| exact Halive].
  apply list_elem_of_In, list_elem_of_fmap. exists (cid, c).
  split; [reflexivity | apply elem_of_map_to_list, Hrow].
Qed.

Lemma alive_awake_chats_In (db : DB) (cid : Z) (c : Chat) :
  chats db !! cid = Some c -> is_alive c = true -> is_sleeping c = false ->
  In c (alive_awake_chats db).
Proof.
  intros Hrow Halive Hawake. unfold alive_awake_chats. apply filter_In.
  split; [| rewrite Halive, Hawake; reflexivity].
  apply list_elem_of_In, list_elem_of_fmap. exists (cid, c).
  split; [reflexivity | apply elem_of_map_to_list, Hrow].
Qed.

(** The stores of the three loops, without their notifications. *)
Lemma tick_all_pets_fold (cfg : Config) (db : DB) (now : Z) :
  fst (tick_all_pets cfg db now)
  = fold_left (fun d c => fst (tick_pet cfg d now (loaded d c)))
      (alive_chats db) db.
Proof.
  unfold tick_all_pets.
  assert (forall l d notes,
            fst (fold_left
                   (fun (acc : DB * list Notification) chat =>
                      let '(db, out) :=
                        tick_pet cfg (fst acc) now (loaded (fst acc) chat) in
                      (db, snd acc ++ notifications out))
                   l (d, notes))
            = fold_left (fun d c => fst (tick_pet cfg d now (loaded d c))) l d)
    as Hgen.
  { induction l as [| c l IH]; intros d notes; cbn [fold_left fst snd];
      [reflexivity |].
    destruct (tick_pet cfg d now (loaded d c)) as [d' out]. apply IH. }
  apply Hgen.
Qed.

Lemma trigger_random_events_fold (db : DB) (now : Z)
    (rolls : Z -> Q * RandomEvent * Q) :
  fst (trigger_random_events db now rolls)
  = fold_left
      (fun d c =>
         fst (trigger_random_event d now (loaded d c)
                (fst (fst (rolls (chat_id c)))) (snd (fst (rolls (chat_id c))))
                (snd (rolls (chat_id c)))))
      (alive_awake_chats db) db.
Proof.
  unfold trigger_random_events.
  assert (forall l d notes,
            fst (fold_left
                   (fun (acc : DB * list Notification) chat =>
                      let '(roll1, ev, roll2) := rolls (chat_id chat) in
                      let '(db, fired) :=
                        trigger_random_event (fst acc) now
                          (loaded (fst acc) chat) roll1 ev roll2 in
                      (db, snd acc ++ match fired with
                                      | Some ev => [EventNotice (chat_id chat) ev]
                                      | None => []
                                      end))
                   l (d, notes))
            = fold_left
                (fun d c =>
                   fst (trigger_random_event d now (loaded d c)
                          (fst (fst (rolls (chat_id c))))
                          (snd (fst (rolls (chat_id c))))
                          (snd (rolls (chat_id c)))))
                l d)
    as Hgen.
  { induction l as [| c l IH]; intros d notes; cbn [fold_left fst snd];
      [reflexivity |].
    destruct (rolls (chat_id c)) as [[roll1 ev] roll2]. cbn [fst snd].
    destruct (trigger_random_event d now (loaded d c) roll1 ev roll2)
      as [d' fired]. apply IH. }
  apply Hgen.
Qed.

Lemma tick_all_pets_row (cfg : Config) (db : DB) (now cid : Z) (c : Chat) :
  keys_ok db -> chats db !! cid = Some c -> is_alive c = true ->
  chats (fst (tick_all_pets cfg db now)) !! cid
  = chats (fst (tick_pet cfg db now c)) !! cid.
Proof.
  intros Hkeys Hrow Halive. rewrite tick_all_pets_fold.
  rewrite <- (Hkeys cid c Hrow).
  rewrite (fold_per_pet (fun d c => fst (tick_pet cfg d now (loaded d c)))).
  - rewrite (loaded_row db cid c Hkeys Hrow). reflexivity.
  - intros d x. apply keys_ok_tick_pet.
  - intros d x k Hk Hne.
    apply (frame_tick_pet cfg now (loaded d x) k d).
    + rewrite loaded_chat_id by exact Hk. exact Hne.
    + split; [exact Hk | reflexivity].
  - intros d1 d2 x Hk1 Hk2 Hagree.
    rewrite <- (loaded_agree d1 d2 x Hagree).
    rewrite <- (loaded_chat_id d1 x Hk1) in Hagree |- *.
    apply tick_pet_local; assumption.
  - exact Hkeys.
  - apply selected_chats_NoDup. exact Hkeys.
  - exact (alive_chats_In db cid c Hrow Halive).
Qed.

Lemma check_sleep_all_row (cfg : Config) (db : DB) (now cid : Z) (c : Chat) :
  keys_ok db -> chats db !! cid = Some c -> is_alive c = true ->
  chats (check_sleep_all cfg db now) !! cid
  = chats (check_sleep_status cfg db now c) !! cid.
Proof.
  intros Hkeys Hrow Halive. unfold check_sleep_all.
  rewrite <- (Hkeys cid c Hrow).
  rewrite (fold_per_pet (fun d c => check_sleep_status cfg d now (loaded d c))).
  - rewrite (loaded_row db cid c Hkeys Hrow). reflexivity.
  - intros d x. apply keys_ok_check_sleep_status.
  - intros d x k Hk Hne.
    apply (frame_check_sleep_status cfg now (loaded d x) k d).
    + rewrite loaded_chat_id by exact Hk. exact Hne.
    + split; [exact Hk | reflexivity].
  - intros d1 d2 x Hk1 Hk2 Hagree.
    rewrite <- (loaded_agree d1 d2 x Hagree).
    rewrite <- (loaded_chat_id d1 x Hk1) in Hagree |- *.
    apply check_sleep_status_local; assumption.
  - exact Hkeys.
  - apply selected_chats_NoDup. exact Hkeys.
  - exact (alive_chats_In db cid c Hrow Halive).
Qed.

Lemma trigger_random_events_row (db : DB) (now : Z)
    (rolls : Z -> Q * RandomEvent * Q) (cid : Z) (c : Chat) :
  keys_ok db -> chats db !! cid = Some c ->
  is_alive c = true -> is_sleeping c = false ->
  chats (fst (trigger_random_events db now rolls)) !! cid
  = chats (fst (trigger_random_event db now c
                  (fst (fst (rolls cid))) (snd (fst (rolls cid)))
                  (snd (rolls cid)))) !! cid.
Proof.
  intros Hkeys Hrow Halive Hawake. rewrite trigger_random_events_fold.
  rewrite <- (Hkeys cid c Hrow).
  rewrite (fold_per_pet
             (fun d c =>
                fst (trigger_random_event d now (loaded d c)
                       (fst (fst (rolls (chat_id c))))
                       (snd (fst (rolls (chat_id c))))
                       (snd (rolls (chat_id c)))))).
  - rewrite (loaded_row db cid c Hkeys Hrow). reflexivity.
  - intros d x. apply keys_ok_trigger_random_event.
  - intros d x k Hk Hne.
    apply (frame_trigger_random_event now (loaded d x) k d).
    + rewrite loaded_chat_id by exact Hk. exact Hne.
    + split; [exact Hk | reflexivity].
  - intros d1 d2 x Hk1 Hk2 Hagree.
    rewrite <- (loaded_agree d1 d2 x Hagree).
    rewrite <- (loaded_chat_id d1 x Hk1) in Hagree |- *.
    apply trigger_random_event_local; assumption.
  - exact Hkeys.
  - apply selected_chats_NoDup. exact Hkeys.
  - exact (alive_awake_chats_In db cid c Hrow Halive Hawake).
Qed.

(** X24: the jobs treat every pet as if it were alone.  After a run
    of the tick the row of a living pet is the row that one iteration
    of the loop, run on that pet in the store before the job, leaves;
    the same holds for the sleep check, and for the random events and
    a living pet that is awake.  Neither the other pets nor the order
    in which the database returns the rows matter. *)
Theorem jobs_treat_pets_independently (cfg : Config) (db : DB) (now : Z)
    (rolls : Z -> Q * RandomEvent * Q) (cid : Z) (c : Chat) :
  db_ok db ->
  chats db !! cid = Some c ->
  is_alive c = true ->
  chats (fst (tick_all_pets cfg db now)) !! cid
  = chats (fst (tick_pet cfg db now c)) !! cid /\
  chats (check_sleep_all cfg db now) !! cid
  = chats (check_sleep_status cfg db now c) !! cid /\
  (is_sleeping c = false ->
   chats (fst (trigger_random_events db now rolls)) !! cid
   = chats (fst (trigger_random_event db now c
                   (fst (fst (rolls cid))) (snd (fst (rolls cid)))
                   (snd (rolls cid)))) !! cid).
Proof.
  intros Hok Hrow Halive. apply db_ok_keys_ok in Hok. split_and!.
  - apply tick_all_pets_row; assumption.
  - apply check_sleep_all_row; assumption.
  - intros Hawake. apply trigger_random_events_row; assumption.
Qed.

Lemma fed_db_ok : db_ok fed_db.
Proof.
  apply (db_ok_run default_config empty_db);
    [apply fed_db_reachable | apply db_ok_empty].
Qed.

Lemma two_pets_db_reachable : reachable default_config two_pets_db.
Proof.
  apply rtc_r with fed_db; [apply fed_db_reachable | apply step_start].
Qed.

Lemma two_pets_db_ok : db_ok two_pets_db.
Proof.
  apply (db_ok_run default_config empty_db);
    [apply two_pets_db_reachable | apply db_ok_empty].
Qed.

Lemma jobs_treat_pets_independently_witness :
  (chats two_pets_db !! 1 = Some fed_pet /\
   chats two_pets_db !! 2 = Some second_pet) /\
  (chats (fst (tick_all_pets default_config two_pets_db next_night)) !! 1
   = chats (fst (tick_pet default_config two_pets_db next_night fed_pet)) !! 1 /\
   chats (check_sleep_all default_config two_pets_db next_night) !! 1
   = chats (check_sleep_status default_config two_pets_db next_night fed_pet)
       !! 1 /\
   chats (fst (trigger_random_events two_pets_db next_night two_rolls)) !! 1
   = chats (fst (trigger_random_event two_pets_db next_night fed_pet
                   0%Q (WeatherEvent Rain) 0%Q)) !! 1) /\
  (chats (fst (tick_all_pets default_config two_pets_db next_night)) !! 2
   = chats (fst (tick_pet default_config two_pets_db next_night second_pet))
       !! 2 /\
   chats (check_sleep_all default_config two_pets_db next_night) !! 2
   = chats (check_sleep_status default_config two_pets_db next_night second_pet)
       !! 2 /\
   chats (fst (trigger_random_events two_pets_db next_night two_rolls)) !! 2
   = chats (fst (trigger_random_event two_pets_db next_night second_pet
                   0%Q (FindBoxEvent BoxMold) 0%Q)) !! 2).
Proof.
  destruct (jobs_treat_pets_independently default_config two_pets_db next_night
              two_rolls 1 fed_pet two_pets_db_ok)
    as (Htick1 & Hsleep1 & Hevent1);
    [vm_compute; reflexivity | reflexivity |].
  destruct (jobs_treat_pets_independently default_config two_pets_db next_night
              two_rolls 2 second_pet two_pets_db_ok)
    as (Htick2 & Hsleep2 & Hevent2);
    [vm_compute; reflexivity | reflexivity |].
  split; [split; vm_compute; reflexivity |].
  split; (split; [| split]).
  - exact Htick1.
  - exact Hsleep1.
  - exact (Hevent1 eq_refl).
  - exact Htick2.
  - exact Hsleep2.
  - exact (Hevent2 eq_refl).
Defined.

(** ** What a run of a job leaves behind *)

Lemma not_selected (db : DB) (p : Chat -> bool) (cid : Z) (c : Chat) :
  keys_ok db -> chats db !! cid = Some c -> p c = false ->
  ~ In cid (List.map chat_id (List.filter p (snd <$> map_to_list (chats db)))).
Proof.
  intros Hkeys Hrow Hp Hin.
  apply in_map_iff in Hin as (x & Hid & Hin).
  apply filter_In in Hin as (Hin & Hpx).
  apply list_elem_of_In, list_elem_of_fmap in Hin as ([k x'] & -> & Hin).
  apply elem_of_map_to_list in Hin. cbn in *.
  rewrite (Hkeys k x' Hin) in Hid. subst k. congruence.
Qed.

Lemma check_sleep_all_skips (cfg : Config) (db : DB) (now cid : Z) (c : Chat) :
  keys_ok db -> chats db !! cid = Some c -> is_alive c = false ->
  chats (check_sleep_all cfg db now) !! cid = Some c.
Proof.
  intros Hkeys Hrow Hdead. unfold check_sleep_all, alive_chats.
  rewrite (fold_outside (fun d c => check_sleep_status cfg d now (loaded d c))).
  - exact Hrow.
  - intros d x. apply keys_ok_check_sleep_status.
  - intros d x k Hk Hne.
    apply (frame_check_sleep_status cfg now (loaded d x) k d).
    + rewrite loaded_chat_id by exact Hk. exact Hne.
    + split; [exact Hk | reflexivity].
  - exact Hkeys.
  - exact (not_selected db is_alive cid c Hkeys Hrow Hdead).
Qed.

Lemma tick_all_pets_skips (cfg : Config) (db : DB) (now cid : Z) (c : Chat) :
  keys_ok db -> chats db !! cid = Some c -> is_alive c = false ->
  chats (fst (tick_all_pets cfg db now)) !! cid = Some c.
Proof.
  intros Hkeys Hrow Hdead. rewrite tick_all_pets_fold. unfold alive_chats.
  rewrite (fold_outside (fun d c => fst (tick_pet cfg d now (loaded d c)))).
  - exact Hrow.
  - intros d x. apply keys_ok_tick_pet.
  - intros d x k Hk Hne.
    apply (frame_tick_pet cfg now (loaded d x) k d).
    + rewrite loaded_chat_id by exact Hk. exact Hne.
    + split; [exact Hk | reflexivity].
  - exact Hkeys.
  - exact (not_selected db is_alive cid c Hkeys Hrow Hdead).
Qed.

Lemma check_sleep_status_flag (cfg : Config) (db : DB) (now : Z) (chat : Chat) :
  chats db !! chat_id chat = Some chat ->
  exists chat',
    chats (check_sleep_status cfg db now chat) !! chat_id chat = Some chat' /\
    is_sleeping chat' = is_night_time cfg now /\
    is_alive chat' = is_alive chat.
Proof.
  intros Hrow. unfold check_sleep_status. cbv zeta.
  destruct (is_night_time cfg now), (is_sleeping chat) eqn:Hsleep;
    cbn [andb negb]; row_lookup; rewrite ?Hrow; cbn;
    eexists; (split; [reflexivity |]); cbn; auto.
Qed.

(** X25: after the sleep check every living pet sleeps exactly when
    it is night, and every dead pet is left as it was: a pet that died
    asleep stays flagged asleep until it is revived. *)
Theorem check_sleep_all_effect (cfg : Config) (db : DB) (now cid : Z)
    (c : Chat) :
  db_ok db ->
  chats db !! cid = Some c ->
  (is_alive c = true ->
   exists c',
     chats (check_sleep_all cfg db now) !! cid = Some c' /\
     is_alive c' = true /\
     is_sleeping c' = is_night_time cfg now) /\
  (is_alive c = false ->
   chats (check_sleep_all cfg db now) !! cid = Some c).
Proof.
  intros Hok Hrow. pose proof (db_ok_keys_ok db Hok) as Hkeys. split.
  - intros Halive. rewrite (check_sleep_all_row cfg db now cid c) by assumption.
    pose proof (Hkeys cid c Hrow) as Hid. rewrite <- Hid in Hrow |- *.
    destruct (check_sleep_status_flag cfg db now c Hrow)
      as (c' & Hrow' & Hflag & Hlife).
    exists c'. split_and!; congruence.
  - intros Hdead. apply check_sleep_all_skips; assumption.
Qed.

Lemma check_sleep_all_effect_witness :
  (exists c',
     chats (check_sleep_all default_config fed_db Spec.night) !! 1 = Some c' /\
     is_alive c' = true /\
     is_sleeping c' = is_night_time default_config Spec.night) /\
  chats (check_sleep_all default_config (Spec.store_of dead_pet) Spec.night) !! 1
  = Some dead_pet.
Proof.
  split.
  - destruct (check_sleep_all_effect default_config fed_db Spec.night 1 fed_pet)
      as (Halive & _);
      [apply fed_db_ok | vm_compute; reflexivity |].
    apply Halive. reflexivity.
  - destruct (check_sleep_all_effect default_config (Spec.store_of dead_pet)
                Spec.night 1 dead_pet) as (_ & Hdead).
    + intros cid c Hrow.
      change (chats (Spec.store_of dead_pet))
        with ({[1 := dead_pet]} : gmap Z Chat) in Hrow.
      apply lookup_singleton_Some in Hrow as (<- & <-).
      split; [reflexivity |]. unfold vitals_in_range, in_range. simpl. lia.
    + vm_compute. reflexivity.
    + apply Hdead. reflexivity.
Defined.

Lemma check_and_evolve_keeps (db : DB) (now : Z) (chat : Chat) :
  chats db !! chat_id chat = Some chat ->
  exists chat',
    chats (fst (check_and_evolve db now chat)) !! chat_id chat = Some chat' /\
    vitals chat' = vitals chat /\ is_alive chat' = is_alive chat /\
    death_at chat' = death_at chat /\ xp chat' = xp chat.
Proof.
  intros Hrow. unfold check_and_evolve. cbv zeta.
  repeat match goal with
         | |- context [if ?b then (_, (false, None, None)) else _] => destruct b
         | |- context [match ?o with Some _ => _ | None => _ end] => destruct o
         end; cbn [fst]; row_lookup; rewrite ?Hrow; cbn;
    eexists; (split; [reflexivity |]); cbn; auto.
Qed.

Lemma tick_pet_health (cfg : Config) (db : DB) (now : Z) (chat : Chat) :
  chats db !! chat_id chat = Some chat ->
  is_alive chat = true ->
  exists chat',
    chats (fst (tick_pet cfg db now chat)) !! chat_id chat = Some chat' /\
    (is_alive chat' = true -> 0 < health chat') /\
    (is_alive chat' = false -> health chat' = 0 /\ death_at chat' = Some now).
Proof.
  intros Hrow Halive.
  destruct (check_sleep_status_row cfg db now chat Hrow)
    as (chat1 & Hrow1 & Hloaded & Hid1 & Halive1 & _).
  unfold tick_pet. cbv zeta. rewrite Hloaded.
  set (db1 := check_sleep_status cfg db now chat) in *.
  rewrite <- Hid1 in Hrow1 |- *. rewrite Halive in Halive1.
  destruct (tick_stats_row cfg db1 now chat1 Hrow1 Halive1) as (Hrow2 & Hans).
  cbv zeta in Hrow2, Hans.
  destruct (tick_stats cfg db1 now chat1) as [db2 [alive is_critical]].
  cbn [fst snd] in Hrow2, Hans.
  set (new_health := Z.max 0 (health chat1 - Spec.health_penalty cfg chat1)) in *.
  destruct (Z.leb_spec new_health 0) as [Hle | Hgt].
  - injection Hans as -> ->. cbn [fst]. eexists. split; [exact Hrow2 |].
    cbn. split; [discriminate | auto].
  - injection Hans as -> ->.
    set (chat2 := ChatCRUD.set_last_tick now
                    (ChatCRUD.set_stats
                       (Some (Spec.decayed cfg (hunger chat1)))
                       (Some (Spec.decayed cfg (mood chat1)))
                       (Some (Spec.decayed cfg (energy chat1)))
                       (Some new_health) now chat1)) in *.
    assert (loaded db2 chat1 = chat2) as ->
      by (unfold loaded; rewrite Hrow2; reflexivity).
    change (chat_id chat1) with (chat_id chat2) in Hrow2 |- *.
    destruct (check_and_evolve_keeps db2 now chat2 Hrow2)
      as (chat3 & Hrow3 & Hvitals & Halive3 & _).
    destruct (check_and_evolve db2 now chat2) as [db3 [[evolved s] t]].
    cbn [fst] in *. exists chat3. split; [exact Hrow3 |].
    assert (health chat3 = health chat2) as -> by (unfold vitals in Hvitals; congruence).
    rewrite Halive3. cbn. unfold ChatCRUD.clamp.
    split; [intros _; lia | rewrite Halive1; discriminate].
Qed.

(** X26: a tick leaves no living pet without health.  After a run of
    the tick every pet that is alive has a health above 0, also a pet
    that a night disturbance had left alive at health 0; and a pet
    that the tick has killed has health 0 and the time of the tick as
    its death time. *)
Theorem tick_all_pets_health (cfg : Config) (db : DB) (now cid : Z)
    (c : Chat) :
  db_ok db ->
  chats db !! cid = Some c ->
  exists c',
    chats (fst (tick_all_pets cfg db now)) !! cid = Some c' /\
    (is_alive c' = true -> is_alive c = true /\ 0 < health c') /\
    (is_alive c = true -> is_alive c' = false ->
     health c' = 0 /\ death_at c' = Some now).
Proof.
  intros Hok Hrow. pose proof (db_ok_keys_ok db Hok) as Hkeys.
  destruct (is_alive c) eqn:Halive.
  - rewrite (tick_all_pets_row cfg db now cid c) by assumption.
    pose proof (Hkeys cid c Hrow) as Hid. rewrite <- Hid in Hrow |- *.
    destruct (tick_pet_health cfg db now c Hrow Halive)
      as (c' & Hrow' & Hgood & Hbad).
    exists c'. split_and!; auto.
  - exists c. split; [apply tick_all_pets_skips; assumption |].
    split; [congruence | discriminate].
Qed.

Lemma store_of_ok (c : Chat) : vitals_in_range c -> db_ok (Spec.store_of c).
Proof.
  intros Hvitals cid c' Hrow. unfold Spec.store_of in Hrow. cbn [chats] in Hrow.
  apply lookup_singleton_Some in Hrow as (<- & <-). split; [reflexivity | exact Hvitals].
Qed.

Lemma tick_all_pets_health_witness :
  exists c',
    chats (fst (tick_all_pets default_config
                  (Spec.store_of (Spec.pet_with_vitals 50 50 50 0 false)) noon))
      !! 1 = Some c' /\
    (is_alive c' = true ->
     is_alive (Spec.pet_with_vitals 50 50 50 0 false) = true /\ 0 < health c') /\
    (is_alive (Spec.pet_with_vitals 50 50 50 0 false) = true ->
     is_alive c' = false -> health c' = 0 /\ death_at c' = Some noon).
Proof.
  apply (tick_all_pets_health default_config
           (Spec.store_of (Spec.pet_with_vitals 50 50 50 0 false)) noon 1).
  - apply store_of_ok. unfold vitals_in_range, in_range. simpl. lia.
  - vm_compute. reflexivity.
Defined.

(** ** A dead pet between two /start commands *)


Lemma quiet_step_cases (cfg : Config) (db db' : DB) :
  quiet_step cfg db db' ->
  (exists message, handler_step cfg message db db') \/ job_step cfg db db'.
Proof.
  intros Hstep. destruct Hstep;
    try (left; eexists; constructor); right; constructor.
Qed.










(** ** Deaths and births in the log *)

Lemma count_by_type_create (db : DB) (now cid0 : Z) (et : EventType)
    (uid : option Z) (cid : Z) (etype : EventType) :
  EventCRUD.count_by_type (EventCRUD.create db now cid0 et uid) cid etype
  = EventCRUD.count_by_type db cid etype
    + (if bool_decide (cid0 = cid) && bool_decide (et = etype) then 1 else 0).
Proof.
  unfold EventCRUD.count_by_type, EventCRUD.create.
  cbn [events List.filter event_chat_id event_type].
  destruct (bool_decide (cid0 = cid) && bool_decide (et = etype));
    cbn [length]; lia.
Qed.

Lemma count_by_type_events (db db' : DB) (cid : Z) (etype : EventType) :
  events db' = events db ->
  EventCRUD.count_by_type db' cid etype = EventCRUD.count_by_type db cid etype.
Proof. unfold EventCRUD.count_by_type. intros ->. reflexivity. Qed.

Lemma same_graves_refl (db : DB) : same_graves db db.
Proof. split; intros; auto. Qed.

Lemma same_graves_step (db0 db db' : DB) :
  same_graves db0 db -> same_graves db db' -> same_graves db0 db'.
Proof.
  intros (Hrows & Hcounts) (Hrows' & Hcounts'). split.
  - intros cid. rewrite Hrows'. apply Hrows.
  - intros cid. destruct (Hcounts cid), (Hcounts' cid). split; congruence.
Qed.

Lemma graves_ok_same (db db' : DB) :
  same_graves db db' -> graves_ok db -> graves_ok db'.
Proof.
  intros (Hrows & Hcounts) Hgraves cid.
  specialize (Hrows cid). specialize (Hgraves cid).
  destruct (Hcounts cid) as (-> & ->).
  destruct (chats db' !! cid) as [c' |], (chats db !! cid) as [c |];
    cbn in Hrows; try discriminate; [| exact Hgraves].
  injection Hrows as ->. exact Hgraves.
Qed.

(** A write that keeps the life flag of every row and logs neither a
    death nor a birth. *)
Lemma same_graves_rows (db db' : DB) (cid : Z) (f : Chat -> Chat) :
  (forall c, is_alive (f c) = is_alive c) ->
  chats db' = alter f cid (chats db) ->
  events db' = events db ->
  same_graves db db'.
Proof.
  intros Hf Hchats Hevents. split.
  - intros k. rewrite Hchats.
    destruct (decide (cid = k)) as [-> | Hne].
    + rewrite lookup_alter_eq. destruct (chats db !! k); cbn; [| reflexivity].
      rewrite Hf. reflexivity.
    + rewrite lookup_alter_ne by exact Hne. reflexivity.
  - intros k. split; apply count_by_type_events; exact Hevents.
Qed.

Lemma same_graves_update_stats db now cid h m e hl :
  same_graves db (ChatCRUD.update_stats db now cid h m e hl).
Proof.
  apply (same_graves_rows _ _ cid (ChatCRUD.set_stats h m e hl now));
    reflexivity.
Qed.

Lemma same_graves_add_xp db cid amount :
  same_graves db (fst (ChatCRUD.add_xp db cid amount)).
Proof.
  apply (same_graves_rows _ _ cid (ChatCRUD.set_xp amount));
    [reflexivity | | apply add_xp_events].
  apply map_eq. intros k. destruct (decide (cid = k)) as [-> | Hne].
  - rewrite add_xp_lookup, lookup_alter_eq. reflexivity.
  - rewrite add_xp_lookup_ne, lookup_alter_ne by exact Hne. reflexivity.
Qed.

Lemma same_graves_evolve db cid s t :
  same_graves db (ChatCRUD.evolve db cid s t).
Proof.
  apply (same_graves_rows _ _ cid (ChatCRUD.set_stage_type s t)); reflexivity.
Qed.

Lemma same_graves_update_last_tick db now cid :
  same_graves db (ChatCRUD.update_last_tick db now cid).
Proof.
  apply (same_graves_rows _ _ cid (ChatCRUD.set_last_tick now)); reflexivity.
Qed.

Lemma same_graves_sleep_flag db cid b :
  same_graves db (with_chats (alter (set_sleeping b) cid) db).
Proof. apply (same_graves_rows _ _ cid (set_sleeping b)); reflexivity. Qed.

Lemma same_graves_counter db cid name amount :
  same_graves db (ChatCRUD.increment_behavior_counter db cid name amount).
Proof.
  unfold ChatCRUD.increment_behavior_counter, ChatCRUD.get.
  destruct (negb _); [apply same_graves_refl |].
  destruct (chats db !! cid) as [c |] eqn:Hrow; [| apply same_graves_refl].
  apply (same_graves_rows _ _ cid (ChatCRUD.bump_counter name amount));
    [reflexivity | | reflexivity].
  cbn. apply map_eq. intros k. destruct (decide (cid = k)) as [-> | Hne].
  - rewrite lookup_insert_eq, lookup_alter_eq, Hrow. reflexivity.
  - rewrite lookup_insert_ne, lookup_alter_ne by exact Hne. reflexivity.
Qed.

Lemma same_graves_event db now cid etype uid :
  etype <> DEATH -> etype <> BIRTH ->
  same_graves db (EventCRUD.create db now cid etype uid).
Proof.
  intros Hd Hb. split; [reflexivity |].
  intros k. rewrite !count_by_type_create.
  rewrite !(bool_decide_eq_false_2 (etype = _)) by assumption.
  rewrite !andb_false_r. lia.
Qed.

Lemma same_graves_users (db db' : DB) :
  chats db' = chats db -> events db' = events db -> same_graves db db'.
Proof.
  intros Hchats Hevents. split.
  - intros k. rewrite Hchats. reflexivity.
  - intros k. split; apply count_by_type_events; exact Hevents.
Qed.

Lemma same_graves_handler_write (cfg : Config) (cid uid : Z) (db0 db db' : DB) :
  handler_write cfg cid uid db db' -> same_graves db0 db -> same_graves db0 db'.
Proof.
  intros Hwrite Hsame. apply (same_graves_step db0 db db' Hsame).
  destruct Hwrite.
  - apply same_graves_update_stats.
  - apply same_graves_add_xp.
  - apply same_graves_counter.
  - apply same_graves_event;
      unfold user_event_types in *; cbn in *; intros ->; intuition discriminate.
  - apply same_graves_users;
      [apply get_or_create_user_chats | apply get_or_create_user_events].
  - apply same_graves_users;
      [apply increment_stat_chats | apply increment_stat_events].
Qed.

(** One step towards [same_graves] of the result of an operation that
    neither kills nor revives. *)
Ltac graves_step :=
  match goal with
  | |- same_graves _ (fst (if ?b then _ else _)) => destruct b
  | |- same_graves _ (if ?b then _ else _) => destruct b
  | |- same_graves _ (fst (_, _)) => cbn [fst]
  | |- same_graves _ (ChatCRUD.update_stats _ _ _ _ _ _ _) =>
      eapply same_graves_step; [| apply same_graves_update_stats]
  | |- same_graves _ (fst (ChatCRUD.add_xp _ _ _)) =>
      eapply same_graves_step; [| apply same_graves_add_xp]
  | |- same_graves _ (ChatCRUD.evolve _ _ _ _) =>
      eapply same_graves_step; [| apply same_graves_evolve]
  | |- same_graves _ (ChatCRUD.update_last_tick _ _ _) =>
      eapply same_graves_step; [| apply same_graves_update_last_tick]
  | |- same_graves _ (with_chats (alter (set_sleeping _) _) _) =>
      eapply same_graves_step; [| apply same_graves_sleep_flag]
  | |- same_graves _ (EventCRUD.create _ _ _ _ _) =>
      eapply same_graves_step; [| apply same_graves_event; discriminate]
  | |- same_graves ?d0 ?d => constr_eq d0 d; apply same_graves_refl
  | H : same_graves ?d0 ?d |- same_graves ?d0 ?d => exact H
  end.

Lemma same_graves_check_sleep_status cfg db0 db now chat :
  same_graves db0 db -> same_graves db0 (check_sleep_status cfg db now chat).
Proof.
  intros Hsame. unfold check_sleep_status. cbv zeta. repeat graves_step.
Qed.

Lemma same_graves_check_and_evolve db0 db now chat :
  same_graves db0 db -> same_graves db0 (fst (check_and_evolve db now chat)).
Proof.
  intros Hsame. unfold check_and_evolve. cbv zeta.
  destruct (negb (is_alive chat)); [exact Hsame |].
  destruct (get_next_stage (pet_stage chat)); [| exact Hsame].
  repeat graves_step.
Qed.

Lemma same_graves_trigger_random_event db0 db now chat roll1 ev roll2 :
  same_graves db0 db ->
  same_graves db0 (fst (trigger_random_event db now chat roll1 ev roll2)).
Proof.
  intros Hsame. unfold trigger_random_event.
  repeat match goal with
         | |- context [if ?b then (_, None) else _] => destruct b
         end; try exact Hsame.
  cbn [fst].
  destruct ev as [[] | [] | []];
    unfold execute, execute_box, execute_visitor, execute_weather; cbv zeta;
    repeat graves_step.
Qed.

Lemma handler_step_same_graves (cfg : Config) (message : Message) (db db' : DB) :
  handler_step cfg message db db' -> same_graves db db'.
Proof.
  intros Hstep.
  assert (forall cid uid d d',
            True -> True -> handler_write cfg cid uid d d' ->
            same_graves db d -> same_graves db d') as P_write
    by (intros cid uid d d' _ _; apply same_graves_handler_write).
  assert (forall (d : DB) (cid : Z) (c : Chat),
            same_graves db d -> True -> chats d !! cid = Some c -> True)
    as P_row by auto.
  pose proof (same_graves_refl db) as Hp.
  destruct Hstep;
    [ apply (closed_cmd_feed cfg (fun _ => True) (fun _ => True) (same_graves db))
    | apply (closed_cmd_play cfg (fun _ => True) (fun _ => True) (same_graves db))
    | apply (closed_cmd_gamble (same_graves db))
    | apply (closed_callback_gamble_play cfg (fun _ => True) (fun _ => True)
               (same_graves db))
    | apply (closed_handle_group_message cfg (fun _ => True) (fun _ => True)
               (same_graves db))
    | apply (closed_handle_sticker cfg (fun _ => True) (fun _ => True)
               (same_graves db))
    | apply (closed_handle_photo cfg (fun _ => True) (fun _ => True)
               (same_graves db)) ];
    auto.
Qed.

Lemma check_sleep_all_same_graves (cfg : Config) (db : DB) (now : Z) :
  same_graves db (check_sleep_all cfg db now).
Proof.
  unfold check_sleep_all.
  apply (closed_fold_left (same_graves db) _ id (fun _ => True));
    [| apply Forall_trivial | apply same_graves_refl].
  intros d c _. apply same_graves_check_sleep_status.
Qed.

Lemma trigger_random_events_same_graves (db : DB) (now : Z)
    (rolls : Z -> Q * RandomEvent * Q) :
  same_graves db (fst (trigger_random_events db now rolls)).
Proof.
  rewrite trigger_random_events_fold.
  apply (closed_fold_left (same_graves db) _ id (fun _ => True));
    [| apply Forall_trivial | apply same_graves_refl].
  intros d c _. apply same_graves_trigger_random_event.
Qed.

Lemma graves_ok_death (db : DB) (now cid : Z) (c : Chat) :
  chats db !! cid = Some c -> is_alive c = true ->
  graves_ok db ->
  graves_ok (EventCRUD.create (ChatCRUD.kill_pet db now cid) now cid DEATH None).
Proof.
  intros Hrow Halive Hgraves k. specialize (Hgraves k).
  rewrite !count_by_type_create, create_event_chats.
  rewrite !(count_by_type_events db (ChatCRUD.kill_pet db now cid)) by reflexivity.
  destruct (decide (cid = k)) as [<- | Hne].
  - rewrite kill_pet_lookup, Hrow. rewrite Hrow, Halive in Hgraves.
    rewrite !bool_decide_eq_true_2 by reflexivity.
    rewrite (bool_decide_eq_false_2 (DEATH = BIRTH)) by discriminate.
    cbn. lia.
  - cbn [chats ChatCRUD.kill_pet with_chats].
    rewrite lookup_alter_ne by exact Hne.
    rewrite !(bool_decide_eq_false_2 (cid = k)) by exact Hne. cbn [andb].
    destruct (chats db !! k); lia.
Qed.

Lemma tick_pet_graves (cfg : Config) (db : DB) (now : Z) (chat : Chat) :
  chats db !! chat_id chat = Some chat ->
  graves_ok db -> graves_ok (fst (tick_pet cfg db now chat)).
Proof.
  intros Hrow Hgraves.
  destruct (check_sleep_status_row cfg db now chat Hrow)
    as (chat1 & Hrow1 & Hloaded & Hid1 & Halive1 & _).
  pose proof (graves_ok_same _ _
                (same_graves_check_sleep_status cfg db db now chat
                   (same_graves_refl db)) Hgraves) as Hgraves1.
  unfold tick_pet. cbv zeta. rewrite Hloaded.
  set (db1 := check_sleep_status cfg db now chat) in *.
  rewrite <- Hid1 in Hrow1.
  destruct (is_alive chat1) eqn:Hlife.
  - rewrite (tick_stats_unfold cfg db1 now chat1 Hlife). cbv zeta.
    destruct (_ <=? 0).
    + cbn [fst]. eapply graves_ok_death; [| | ].
      * rewrite update_stats_lookup, Hrow1. reflexivity.
      * exact Hlife.
      * exact (graves_ok_same _ _ (same_graves_update_stats _ _ _ _ _ _ _)
                 Hgraves1).
    + match goal with
      | |- context [check_and_evolve ?d now ?c] =>
          assert (same_graves db1 d) as Hsame by (repeat graves_step);
          pose proof (same_graves_check_and_evolve db1 d now c Hsame) as Hsame';
          destruct (check_and_evolve d now c) as [db3 [[evolved s] t]]
      end.
      cbn [fst] in *. exact (graves_ok_same _ _ Hsame' Hgraves1).
  - unfold tick_stats. rewrite Hlife. cbn. exact Hgraves1.
Qed.

Lemma job_write_rows_stay (cid k : Z) (db db' : DB) :
  job_write cid db db' ->
  is_Some (chats db !! k) -> is_Some (chats db' !! k).
Proof.
  intros Hwrite Hrow.
  destruct (write_row_any default_config cid 0 db db' k
              (write_job default_config cid 0 db db' Hwrite))
    as [-> | (c & f & _ & -> & _)]; [exact Hrow | eexists; reflexivity].
Qed.

Lemma tick_pet_rows_stay (cfg : Config) (db : DB) (now : Z) (chat : Chat)
    (k : Z) :
  is_Some (chats db !! k) ->
  is_Some (chats (fst (tick_pet cfg db now chat)) !! k).
Proof.
  apply (closed_tick_pet cfg (fun _ => True) (fun d => is_Some (chats d !! k)));
    [| auto | exact I].
  intros cid d d' _. apply job_write_rows_stay.
Qed.

Lemma tick_all_pets_graves (cfg : Config) (db : DB) (now : Z) :
  keys_ok db -> graves_ok db -> graves_ok (fst (tick_all_pets cfg db now)).
Proof.
  intros Hkeys Hgraves. rewrite tick_all_pets_fold.
  set (P := fun d : DB =>
              graves_ok d /\ keys_ok d /\
              forall k, is_Some (chats db !! k) -> is_Some (chats d !! k)).
  assert (P (fold_left (fun d c => fst (tick_pet cfg d now (loaded d c)))
               (alive_chats db) db)) as (Hdone & _); [| exact Hdone].
  apply (closed_fold_left P _ id
           (fun c => is_Some (chats db !! chat_id c))).
  - unfold id. intros d c Hc (Hg & Hk & Hdom).
    destruct (Hdom _ Hc) as (r & Hrow).
    assert (loaded d c = r) as -> by (unfold loaded; rewrite Hrow; reflexivity).
    pose proof (Hk _ r Hrow) as Hid. rewrite <- Hid in Hrow.
    split_and!.
    + apply tick_pet_graves; assumption.
    + apply keys_ok_tick_pet. exact Hk.
    + intros k Hsome. apply tick_pet_rows_stay. apply Hdom. exact Hsome.
  - apply Forall_forall. intros c Hin.
    apply list_elem_of_In, alive_chats_row in Hin as (k & Hrow & _).
    rewrite (Hkeys k c Hrow), Hrow. eexists. reflexivity.
  - split_and!; auto.
Qed.

Lemma cmd_start_graves (db : DB) (now : Z) (message : Message) :
  graves_ok db -> graves_ok (fst (cmd_start db now message)).
Proof.
  intros Hgraves.
  destruct (cmd_start_store db now message)
    as [-> | [(Hnone & ->) | (c & Hrow & Hdead & ->)]]; [exact Hgraves | |].
  - intros k. specialize (Hgraves k).
    unfold EventCRUD.count_by_type in *. cbn [chats events with_chats] in *.
    destruct (decide (message_chat_id message = k)) as [<- | Hne].
    + rewrite lookup_insert_eq. rewrite Hnone in Hgraves. cbn. lia.
    + rewrite lookup_insert_ne by exact Hne. exact Hgraves.
  - intros k. specialize (Hgraves k).
    rewrite !count_by_type_create, create_event_chats.
    rewrite !(count_by_type_events db (ChatCRUD.revive_pet db now _))
      by reflexivity.
    destruct (decide (message_chat_id message = k)) as [<- | Hne].
    + rewrite revive_pet_lookup, Hrow. rewrite Hrow, Hdead in Hgraves.
      rewrite !bool_decide_eq_true_2 by reflexivity.
      rewrite (bool_decide_eq_false_2 (BIRTH = DEATH)) by discriminate.
      rewrite ?(bool_decide_eq_true_2 (BIRTH = BIRTH)) by reflexivity.
      cbn. lia.
    + cbn [chats ChatCRUD.revive_pet with_chats].
      rewrite lookup_alter_ne by exact Hne.
      rewrite !(bool_decide_eq_false_2 (message_chat_id message = k))
        by exact Hne.
      cbn [andb]. destruct (chats db !! k); lia.
Qed.

Lemma step_graves (cfg : Config) (db db' : DB) :
  step cfg db db' -> keys_ok db -> graves_ok db -> graves_ok db'.
Proof.
  intros Hstep Hkeys Hgraves.
  apply step_quiet_or_start in Hstep as [Hquiet | (now & message & ->)];
    [| apply cmd_start_graves; exact Hgraves].
  destruct (quiet_step_cases cfg db db' Hquiet) as [(message & Hhandler) | Hjob].
  - exact (graves_ok_same db db'
             (handler_step_same_graves cfg message db db' Hhandler) Hgraves).
  - destruct Hjob.
    + apply tick_all_pets_graves; assumption.
    + exact (graves_ok_same _ _
               (trigger_random_events_same_graves db now rolls) Hgraves).
    + exact (graves_ok_same _ _ (check_sleep_all_same_graves cfg db now) Hgraves).
Qed.

Lemma reachable_graves_ok (cfg : Config) (db : DB) :
  reachable cfg db -> graves_ok db.
Proof.
  intros Hreach.
  assert (forall db0, rtc (step cfg) db0 db -> db_ok db0 -> graves_ok db0 ->
                      graves_ok db) as Hrun.
  { clear Hreach. intros db0 Hrun.
    induction Hrun as [db0 | db0 db1 db2 Hstep _ IH]; intros Hok Hgraves;
      [exact Hgraves |].
    apply IH.
    - exact (db_ok_preserved cfg db0 db1 Hstep Hok).
    - apply (step_graves cfg db0 db1 Hstep);
        [apply db_ok_keys_ok, Hok | exact Hgraves]. }
  apply (Hrun empty_db Hreach db_ok_empty).
  intros k. cbn. rewrite lookup_empty. split; reflexivity.
Qed.

Lemma revived_db_reachable : reachable default_config revived_db.
Proof.
  apply rtc_r with Spec.dead_asleep_db;
    [apply dead_asleep_db_reachable | apply step_start].
Qed.

(** X28: the deaths and births that [count_by_type] counts in the log
    of a chat agree with its pet.  In every store the bot can reach, a
    chat with a living pet has as many DEATH as BIRTH entries, a chat
    with a dead pet has exactly one DEATH entry more, and a chat
    without a pet has neither: every death is logged once, every
    revival is logged once, and the first pet of a chat is born
    without a BIRTH entry. *)
Theorem deaths_and_births (cfg : Config) (db : DB) (cid : Z) :
  reachable cfg db ->
  (is_alive <$> chats db !! cid = Some true ->
     EventCRUD.count_by_type db cid DEATH = EventCRUD.count_by_type db cid BIRTH)
  /\
  (is_alive <$> chats db !! cid = Some false ->
     EventCRUD.count_by_type db cid DEATH
     = EventCRUD.count_by_type db cid BIRTH + 1) /\
  (chats db !! cid = None ->
     EventCRUD.count_by_type db cid DEATH = 0 /\
     EventCRUD.count_by_type db cid BIRTH = 0).
Proof.
  intros Hreach. pose proof (reachable_graves_ok cfg db Hreach cid) as Hgraves.
  destruct (chats db !! cid) as [c |]; cbn; split_and!;
    try discriminate; try (intros _; exact Hgraves).
  - intros [= Halive]. rewrite Halive in Hgraves. lia.
  - intros [= Hdead]. rewrite Hdead in Hgraves. exact Hgraves.
Qed.

Lemma deaths_and_births_witness :
  (EventCRUD.count_by_type Spec.dead_asleep_db 1 DEATH = 1 /\
   EventCRUD.count_by_type revived_db 1 BIRTH = 1) /\
  EventCRUD.count_by_type Spec.dead_asleep_db 1 DEATH
  = EventCRUD.count_by_type Spec.dead_asleep_db 1 BIRTH + 1 /\
  EventCRUD.count_by_type revived_db 1 DEATH
  = EventCRUD.count_by_type revived_db 1 BIRTH /\
  (EventCRUD.count_by_type revived_db 2 DEATH = 0 /\
   EventCRUD.count_by_type revived_db 2 BIRTH = 0).
Proof.
  destruct (deaths_and_births default_config Spec.dead_asleep_db 1
              dead_asleep_db_reachable) as (_ & Hdead & _).
  destruct (deaths_and_births default_config revived_db 1 revived_db_reachable)
    as (Halive & _).
  destruct (deaths_and_births default_config revived_db 2 revived_db_reachable)
    as (_ & _ & Hnone).
  split; [split; vm_compute; reflexivity |].
  split; [| split].
  - apply Hdead. vm_compute. reflexivity.
  - apply Halive. vm_compute. reflexivity.
  - apply Hnone. vm_compute. reflexivity.
Defined.
